(** * Product crawler: identity, recognition, fusion, traversal, bookkeeping

    A shallow embedding of the parts of the crawler that its specification
    makes checkable statements about.  [src/barcode/index.js] holds three
    modules one after the other, each with its own [module.exports]: the
    barcode module, the crawler ([SupermarketCrawler]) and the OCR module;
    [src/unnamed/part_000] is the database module ([CrawlerDatabase]).

    - [Js]: the string and number operations the code uses;
    - [Barcode]: the EAN-13 check digit of the barcode module;
    - [Sha1], [Identity]: the stable product identity
      ([generateProductId]);
    - [Db]: the tables and statements of [CrawlerDatabase];
    - [Regex], [Ocr]: the patterns of the OCR module, its classification,
      field parsing, field merge and barcode fallback;
    - [Pipeline]: the crawler's [processProductImages];
    - [Fusion]: the crawler's [extractProductData];
    - [Traversal]: [crawlCategory] and [startCrawl].

    The browser, the network, the recognition engines, the clock and the
    URL and path libraries are collaborators: their answers are the fields
    of a [world] record, and the modelled functions are total functions of
    a world and a state.  Loops that the site can keep going for ever take
    a bound on their rounds and return [None] when it is reached.

    JavaScript strings are modelled as byte strings (Rocq [string], one
    [ascii] per UTF-8 byte).  Every string operation modelled below acts on
    ASCII characters only, where bytes and UTF-16 code units coincide;
    white space is ASCII white space. *)

From Stdlib Require Import ZArith QArith Ascii String List Lia Bool.
From stdpp Require Import base option list gmap strings fin_maps pretty.
Import ListNotations.

Local Open Scope string_scope.
Local Open Scope list_scope.
Local Open Scope Z_scope.

(* ===================================================================== *)
(** ** JavaScript strings and numbers *)
(* ===================================================================== *)

Module Js.

(** Characters of a string, and back. *)
Definition chars (s : string) : list ascii := list_ascii_of_string s.
Definition str (l : list ascii) : string := string_of_list_ascii l.

Definition code (c : ascii) : Z := Z.of_N (N_of_ascii c).

Definition isDigit (c : ascii) : bool := (48 <=? code c) && (code c <=? 57).
Definition isUpper (c : ascii) : bool := (65 <=? code c) && (code c <=? 90).
Definition isLower (c : ascii) : bool := (97 <=? code c) && (code c <=? 122).
(** The class [[a-zA-Z0-9]]. *)
Definition isAlnum (c : ascii) : bool := isLower c || isUpper c || isDigit c.
(** The class [\w]: [[A-Za-z0-9_]]. *)
Definition isWord (c : ascii) : bool := isAlnum c || (code c =? 95).

Definition upperChar (c : ascii) : ascii :=
  if isLower c then ascii_of_N (N_of_ascii c - 32) else c.
Definition lowerChar (c : ascii) : ascii :=
  if isUpper c then ascii_of_N (N_of_ascii c + 32) else c.

(** [s.toUpperCase()] and [s.toLowerCase()]. *)
Definition toUpperCase (s : string) : string := str (map upperChar (chars s)).
Definition toLowerCase (s : string) : string := str (map lowerChar (chars s)).

(** [s.substring(0, n)]. *)
Definition substring0 (n : nat) (s : string) : string := str (take n (chars s)).

(** [s.length]. *)
Definition length (s : string) : nat := List.length (chars s).

(** A value is truthy unless it is the empty string ([if (s)] on strings). *)
Definition truthy (s : string) : bool :=
  match s with EmptyString => false | _ => true end.

(** JavaScript numbers as far as the modelled code needs them: integers and
    [NaN]. *)
Inductive number := Int (z : Z) | NaN.

Definition add (a b : number) : number :=
  match a, b with Int x, Int y => Int (x + y) | _, _ => NaN end.
Definition sub (a b : number) : number :=
  match a, b with Int x, Int y => Int (x - y) | _, _ => NaN end.
Definition mul (a b : number) : number :=
  match a, b with Int x, Int y => Int (x * y) | _, _ => NaN end.
(** [a % b]: the remainder takes the sign of the dividend; [x % 0] is NaN. *)
Definition rem (a b : number) : number :=
  match a, b with
  | Int x, Int y => if y =? 0 then NaN else Int (Z.rem x y)
  | _, _ => NaN
  end.

(** [parseInt(c, 10)] on a one-character string. *)
Definition parseIntChar (c : ascii) : number :=
  if isDigit c then Int (code c - 48) else NaN.

End Js.

(* ===================================================================== *)
(** ** Barcode module: the EAN-13 check digit *)
(* ===================================================================== *)

Module Barcode.

(** The loop body of [calculateEAN13CheckDigit]:
    [sum += i % 2 === 0 ? digit : digit * 3]. *)
Definition ean13_step (digits : list ascii) (sum : Js.number) (i : nat)
  : Js.number :=
  let digit := match digits !! i with
               | Some c => Js.parseIntChar c
               | None => Js.NaN
               end in
  Js.add sum (if (i mod 2 =? 0)%nat then digit else Js.mul digit (Js.Int 3)).

(** [calculateEAN13CheckDigit(digits)]. *)
Definition calculateEAN13CheckDigit (digits : string) : Js.number :=
  if negb (Js.length digits =? 12)%nat then Js.Int (-1)
  else
    let sum := fold_left (ean13_step (Js.chars digits)) (seq 0 12) (Js.Int 0) in
    Js.rem (Js.sub (Js.Int 10) (Js.rem sum (Js.Int 10))) (Js.Int 10).

(** The standard EAN-13 algorithm in the specification's words: positions
    are counted from 1, odd positions weigh 1 and even positions weigh 3,
    and the check digit is [(10 - (sum mod 10)) mod 10]. *)
Fixpoint ean13_weighted_sum (pos : nat) (ds : list Z) : Z :=
  match ds with
  | [] => 0
  | d :: ds' =>
      (if Nat.odd pos then d else 3 * d) + ean13_weighted_sum (S pos) ds'
  end.

Definition ean13_standard (ds : list Z) : Z :=
  (10 - (ean13_weighted_sum 1 ds) mod 10) mod 10.

Definition digitValues (s : string) : list Z :=
  map (fun c => Js.code c - 48) (Js.chars s).

End Barcode.

(* ===================================================================== *)
(** ** SHA-1, as computed by [crypto.createHash('sha1')] *)
(* ===================================================================== *)

Module Sha1.

(** 32-bit words are integers in [0, 2^32), with wrap-around written out. *)
Definition wrap (x : Z) : Z := x mod 2 ^ 32.
Definition rotl (n : Z) (x : Z) : Z :=
  wrap (Z.lor (Z.shiftl x n) (Z.shiftr x (32 - n))).
Definition wnot (x : Z) : Z := Z.lxor x (2 ^ 32 - 1).

(** The message as bytes, padded: a [0x80] byte, zeroes up to 56 modulo 64,
    then the bit length as a 64-bit big-endian integer. *)
Definition bytes (s : string) : list Z := map Js.code (Js.chars s).

Definition be_bytes (n : nat) (x : Z) : list Z :=
  map (fun k => Z.land (Z.shiftr x (8 * Z.of_nat k)) 255) (rev (seq 0 n)).

Definition pad (msg : list Z) : list Z :=
  let len := Z.of_nat (List.length msg) in
  let zeros := Z.to_nat ((55 - len) mod 64) in
  msg ++ [128] ++ repeat 0 zeros ++ be_bytes 8 (8 * len).

Fixpoint be_word (bs : list Z) : Z :=
  match bs with
  | [] => 0
  | b :: bs' => Z.shiftl b (8 * Z.of_nat (List.length bs')) + be_word bs'
  end.

(** The sixteen big-endian words of a 64-byte block. *)
Fixpoint words (n : nat) (bs : list Z) : list Z :=
  match n with
  | O => []
  | S n' => be_word (take 4 bs) :: words n' (drop 4 bs)
  end.

(** The message schedule, most recent word first:
    [w[t] = rotl 1 (w[t-3] xor w[t-8] xor w[t-14] xor w[t-16])]. *)
Fixpoint schedule (n : nat) (w : list Z) : list Z :=
  match n with
  | O => w
  | S n' =>
      let x := Z.lxor (Z.lxor (nth 2 w 0) (nth 7 w 0))
                      (Z.lxor (nth 13 w 0) (nth 15 w 0)) in
      schedule n' (rotl 1 x :: w)
  end.

Record state := State { ha : Z; hb : Z; hc : Z; hd : Z; he : Z }.

Definition round (st : state) (tw : nat * Z) : state :=
  let '(t, w) := tw in
  let '(State a b c d e) := st in
  let '(f, k) :=
    if (t <? 20)%nat then
      (Z.lor (Z.land b c) (Z.land (wnot b) d), 0x5A827999)
    else if (t <? 40)%nat then
      (Z.lxor (Z.lxor b c) d, 0x6ED9EBA1)
    else if (t <? 60)%nat then
      (Z.lor (Z.lor (Z.land b c) (Z.land b d)) (Z.land c d), 0x8F1BBCDC)
    else
      (Z.lxor (Z.lxor b c) d, 0xCA62C1D6) in
  State (wrap (rotl 5 a + f + e + k + w)) a (rotl 30 b) c d.

Definition block (h : state) (bs : list Z) : state :=
  let w := rev (schedule 64 (rev (words 16 bs))) in
  let '(State a b c d e) := fold_left round (zip (seq 0 80) w) h in
  State (wrap (ha h + a)) (wrap (hb h + b)) (wrap (hc h + c))
        (wrap (hd h + d)) (wrap (he h + e)).

Fixpoint blocks (n : nat) (h : state) (bs : list Z) : state :=
  match n with
  | O => h
  | S n' => blocks n' (block h (take 64 bs)) (drop 64 bs)
  end.

Definition init : state :=
  State 0x67452301 0xEFCDAB89 0x98BADCFE 0x10325476 0xC3D2E1F0.

Definition hexdigits : list ascii := Js.chars "0123456789abcdef".

Definition hexdigit (x : Z) : ascii :=
  nth (Z.to_nat (x mod 16)) hexdigits "0"%char.

(** Eight lower-case hexadecimal digits of a word. *)
Definition hex8 (x : Z) : list ascii :=
  map (fun k => hexdigit (Z.shiftr x (4 * Z.of_nat k))) (rev (seq 0 8)).

(** [crypto.createHash('sha1').update(s).digest('hex')]. *)
Definition digest_hex (s : string) : string :=
  let p := pad (bytes s) in
  let '(State a b c d e) := blocks (List.length p / 64) init p in
  Js.str (hex8 a ++ hex8 b ++ hex8 c ++ hex8 d ++ hex8 e).

End Sha1.

(* ===================================================================== *)
(** ** Stable product identity *)
(* ===================================================================== *)

Module Identity.

(** [sku.replace(/[^a-zA-Z0-9]/g, '')]: every character outside the class
    is removed. *)
Definition stripNonAlnum (s : string) : string :=
  Js.str (filter (fun c => Is_true (Js.isAlnum c)) (Js.chars s)).

(** [generateProductId(url, sku = null)].  The SKU is [None] for [null] or
    [undefined]; an empty string is falsy as well. *)
Definition generateProductId (url : string) (sku : option string) : string :=
  match sku with
  | Some s =>
      if Js.truthy s then
        Js.toUpperCase (Js.substring0 12 (stripNonAlnum s))
      else
        Js.toUpperCase (Js.substring0 12 (Sha1.digest_hex url))
  | None => Js.toUpperCase (Js.substring0 12 (Sha1.digest_hex url))
  end.

End Identity.

(* ===================================================================== *)
(** ** Results of fallible operations *)
(* ===================================================================== *)

(** A call either returns a value or throws an [Error] with a message. *)
Inductive result (A : Type) : Type :=
| Ok (a : A)
| Throw (msg : string).
Arguments Ok {A} a.
Arguments Throw {A} msg.

(* ===================================================================== *)
(** ** Persistence: [CrawlerDatabase] *)
(* ===================================================================== *)

Module Db.

(** Job status values written by the crawler and the server. *)
Inductive jobStatus :=
| Pending | Running | Stopping | Stopped | Completed | Failed.

(** One entry of the per-job error log. *)
Record errorEntry := ErrorEntry { timestamp : string; error : string }.

(** The integer counter columns of [crawl_jobs]. *)
Inductive counter :=
| TotalCategories | ProcessedCategories | TotalProducts | ProcessedProducts.

(** A row of [crawl_jobs].  The [error_log] column holds the JSON text of a
    list of entries; it is modelled by the list it encodes, [None] being
    SQL [NULL]. *)
Record job := Job {
  job_id : string;
  homepage_url : string;
  status : jobStatus;
  started_at : option string;
  finished_at : option string;
  total_categories : Z;
  processed_categories : Z;
  total_products : Z;
  processed_products : Z;
  errors : Z;
  error_log : option (list errorEntry);
  config_json : string
}.

(** Values of the OCR field map: strings, or [true] for the halal and
    kosher flags. *)
Inductive fieldValue := FStr (s : string) | FBool (b : bool).

(** A product, as the object handed to [upsertProduct] and as a row of
    [products].  Text columns are [None] for [NULL]/[undefined]. *)
Record product := Product {
  product_id : string;
  url : string;
  name : option string;
  brand : option string;
  category : option string;
  variant : option string;
  price : option Q;
  currency : option string;
  description : option string;
  ingredients : option string;
  nutrition : option string;
  manufacturer : option string;
  origin : option string;
  availability : option string;
  scrape_date : option string;
  source_site : option string;
  merged_ocr_text : option string;
  ocr_fields_json : option (gmap string fieldValue)
}.

(** A row of [images]. *)
Record image := Image {
  img_product_id : string;
  image_url : option string;
  local_path : option string;
  tag : string;
  barcode_value : option string;
  barcode_type : option string;
  barcode_confidence : option Q;
  ocr_text : option string;
  ocr_confidence : option Q
}.

(** The tables touched by the modelled operations.  [products] is keyed by
    its primary key [product_id], [jobs] by [job_id]. *)
Record t := Database {
  jobs : gmap string job;
  products : gmap string product;
  images : list image
}.

Definition empty : t := Database ∅ ∅ [].

(** [createJob(jobId, homepageUrl, config)]: the row starts as running,
    with zero counters; a second row with the same key is refused. *)
Definition createJob (now : string) (jobId homepageUrl config : string)
    (db : t) : result t :=
  match jobs db !! jobId with
  | Some _ => Throw "UNIQUE constraint failed: crawl_jobs.job_id"
  | None =>
      Ok (Database
            (<[jobId := Job jobId homepageUrl Running (Some now) None 0 0 0 0
                            0 None config]> (jobs db))
            (products db) (images db))
  end.

Definition getJob (jobId : string) (db : t) : option job := jobs db !! jobId.

Definition setCounter (c : counter) (v : Z) (j : job) : job :=
  match c with
  | TotalCategories =>
      Job (job_id j) (homepage_url j) (status j) (started_at j) (finished_at j)
          v (processed_categories j) (total_products j) (processed_products j)
          (errors j) (error_log j) (config_json j)
  | ProcessedCategories =>
      Job (job_id j) (homepage_url j) (status j) (started_at j) (finished_at j)
          (total_categories j) v (total_products j) (processed_products j)
          (errors j) (error_log j) (config_json j)
  | TotalProducts =>
      Job (job_id j) (homepage_url j) (status j) (started_at j) (finished_at j)
          (total_categories j) (processed_categories j) v (processed_products j)
          (errors j) (error_log j) (config_json j)
  | ProcessedProducts =>
      Job (job_id j) (homepage_url j) (status j) (started_at j) (finished_at j)
          (total_categories j) (processed_categories j) (total_products j) v
          (errors j) (error_log j) (config_json j)
  end.

Definition getCounter (c : counter) (j : job) : Z :=
  match c with
  | TotalCategories => total_categories j
  | ProcessedCategories => processed_categories j
  | TotalProducts => total_products j
  | ProcessedProducts => processed_products j
  end.

Definition isTerminal (s : jobStatus) : bool :=
  match s with Completed | Failed | Stopped => true | _ => false end.

Definition withJobs (f : gmap string job → gmap string job) (db : t) : t :=
  Database (f (jobs db)) (products db) (images db).

(** [updateJobStatus(jobId, status, additionalFields)]: an [UPDATE] of the
    row with that id; no row, no change. *)
Definition updateJobStatus (now : string) (jobId : string) (s : jobStatus)
    (additionalFields : list (counter * Z)) (db : t) : t :=
  withJobs (alter (fun j =>
    let j1 :=
      Job (job_id j) (homepage_url j) s (started_at j)
          (if isTerminal s then Some now else finished_at j)
          (total_categories j) (processed_categories j) (total_products j)
          (processed_products j) (errors j) (error_log j) (config_json j) in
    fold_left (fun j' kv => setCounter kv.1 kv.2 j') additionalFields j1)
    jobId) db.

(** [incrementJobCounter(jobId, field, amount = 1)]. *)
Definition incrementJobCounter (jobId : string) (c : counter) (db : t) : t :=
  withJobs (alter (fun j => setCounter c (getCounter c j + 1) j) jobId) db.

(** [errors.slice(-n)]: the last [n] elements. *)
Definition sliceLast {A} (n : nat) (l : list A) : list A :=
  drop (List.length l - n)%nat l.

(** [appendJobError(jobId, error)], with [now] the value of
    [new Date().toISOString()]. *)
Definition appendJobError (now : string) (jobId : string) (err : string)
    (db : t) : t :=
  let job := getJob jobId db in
  let errors0 :=
    match job with
    | Some j => match error_log j with Some l => l | None => [] end
    | None => []
    end in
  let errors1 := errors0 ++ [ErrorEntry now err] in
  let trimmed := sliceLast 100 errors1 in
  withJobs (alter (fun j =>
    Job (job_id j) (homepage_url j) (status j) (started_at j) (finished_at j)
        (total_categories j) (processed_categories j) (total_products j)
        (processed_products j) (errors j + 1) (Some trimmed) (config_json j))
    jobId) db.

(** [x || null] on a text column. *)
Definition orNull (o : option string) : option string :=
  match o with
  | Some s => if Js.truthy s then Some s else None
  | None => None
  end.

(** [price || null]: zero is falsy. *)
Definition orNullQ (o : option Q) : option Q :=
  match o with
  | Some q => if Qeq_bool q 0 then None else Some q
  | None => None
  end.

Definition getProduct (productId : string) (db : t) : option product :=
  products db !! productId.

Definition urlTaken (u : string) (db : t) : bool :=
  existsb (fun kv => bool_decide (url kv.2 = u)) (map_to_list (products db)).

(** [upsertProduct(product)].  The row is inserted; on a conflict on the
    primary key the listed columns of the existing row are overwritten
    ([url] and [source_site] keep their stored values).  A new row whose
    [url] is already stored under another key violates the [UNIQUE]
    constraint and the statement throws. *)
Definition upsertProduct (now : string) (p : product) (db : t) : result t :=
  let scrape := match orNull (scrape_date p) with
                | Some d => Some d | None => Some now end in
  match products db !! product_id p with
  | Some old =>
      let row :=
        Product (product_id old) (url old) (orNull (name p)) (orNull (brand p))
          (orNull (category p)) (orNull (variant p)) (orNullQ (price p))
          (orNull (currency p)) (orNull (description p))
          (orNull (ingredients p)) (orNull (nutrition p))
          (orNull (manufacturer p)) (orNull (origin p))
          (orNull (availability p)) scrape (source_site old)
          (orNull (merged_ocr_text p)) (ocr_fields_json p) in
      Ok (Database (jobs db) (<[product_id p := row]> (products db))
                   (images db))
  | None =>
      if urlTaken (url p) db then
        Throw "UNIQUE constraint failed: products.url"
      else
        let row :=
          Product (product_id p) (url p) (orNull (name p)) (orNull (brand p))
            (orNull (category p)) (orNull (variant p)) (orNullQ (price p))
            (orNull (currency p)) (orNull (description p))
            (orNull (ingredients p)) (orNull (nutrition p))
            (orNull (manufacturer p)) (orNull (origin p))
            (orNull (availability p)) scrape (orNull (source_site p))
            (orNull (merged_ocr_text p)) (ocr_fields_json p) in
        Ok (Database (jobs db) (<[product_id p := row]> (products db))
                     (images db))
  end.

(** [imageExists(productId, imageUrl)]. *)
Definition imageExists (productId imageUrl : string) (db : t) : bool :=
  existsb (fun i => bool_decide (img_product_id i = productId) &&
                    bool_decide (image_url i = Some imageUrl)) (images db).

(** [addImage(image)]: appends a row, empty texts stored as [NULL] and an
    empty tag as ['other']. *)
Definition addImage (i : image) (db : t) : t :=
  Database (jobs db) (products db)
    (images db ++
     [Image (img_product_id i) (orNull (image_url i)) (orNull (local_path i))
            (if Js.truthy (tag i) then tag i else "other")
            (orNull (barcode_value i)) (orNull (barcode_type i))
            (orNullQ (barcode_confidence i)) (orNull (ocr_text i))
            (orNullQ (ocr_confidence i))]).

End Db.

(* ===================================================================== *)
(** ** Regular expressions, as [RegExp] matches them *)
(* ===================================================================== *)

Module Regex.

(** The syntax used by the patterns of the source.  Flags are folded into
    the character predicates: under [/i] a literal compares lower-cased
    characters, under [/s] the dot accepts line terminators. *)
Inductive re :=
| Eps
| Chr (p : ascii → bool)
| Seq (r1 r2 : re)
| Alt (r1 r2 : re)
| Rep (lo : nat) (hi : option nat) (greedy : bool) (r : re)
| Grp (i : nat) (r : re)
| Bnd
| Eos
| Ahead (r : re).

(** A position in the input: the character just before it, and what is
    left to read. *)
Record pos := Pos { prev : option ascii; rest : list ascii }.

(** Captures, most recent first. *)
Definition caps := list (nat * list ascii).
Definition cont := pos → caps → option (pos * caps).

Definition isWordOpt (o : option ascii) : bool :=
  match o with Some c => Js.isWord c | None => false end.

Definition between (p p' : pos) : list ascii :=
  take (List.length (rest p) - List.length (rest p'))%nat (rest p).

Definition orElse {A} (a b : option A) : option A :=
  match a with Some x => Some x | None => b end.

Definition below (hi : option nat) (cnt : nat) : bool :=
  match hi with Some h => (cnt <? h)%nat | None => true end.

(** A repetition [r{lo,hi}], greedy or lazy, of the matcher [body]: [cnt]
    rounds are done, at most [n] more are tried.  Once [lo] rounds are
    done, a round that consumes nothing is rejected, as in ECMAScript. *)
Fixpoint repLoop (body : cont → pos → caps → option (pos * caps))
    (lo : nat) (hi : option nat) (greedy : bool) (k : cont)
    (n cnt : nat) (p : pos) (c : caps) {struct n} : option (pos * caps) :=
  let stop := if (lo <=? cnt)%nat then k p c else None in
  let more :=
    match n with
    | O => None
    | S n' =>
        if below hi cnt then
          body (fun p' c' =>
            if (lo <=? cnt)%nat &&
               (List.length (rest p') =? List.length (rest p))%nat
            then None
            else repLoop body lo hi greedy k n' (S cnt) p' c') p c
        else None
    end in
  if greedy then orElse more stop else orElse stop more.

(** The backtracking matcher, in continuation-passing style.  A repetition
    needs at most [lo + |rest|] rounds. *)
Fixpoint run (r : re) (k : cont) (p : pos) (c : caps) {struct r}
  : option (pos * caps) :=
  match r with
  | Eps => k p c
  | Chr f =>
      match rest p with
      | a :: s => if f a then k (Pos (Some a) s) c else None
      | [] => None
      end
  | Seq r1 r2 => run r1 (run r2 k) p c
  | Alt r1 r2 => orElse (run r1 k p c) (run r2 k p c)
  | Grp i r1 => run r1 (fun p' c' => k p' ((i, between p p') :: c')) p c
  | Bnd =>
      if xorb (isWordOpt (prev p)) (isWordOpt (head (rest p))) then k p c
      else None
  | Eos => match rest p with [] => k p c | _ :: _ => None end
  | Ahead r1 =>
      match run r1 (fun p' c' => Some (p', c')) p c with
      | Some (_, c') => k p c'
      | None => None
      end
  | Rep lo hi greedy r1 =>
      repLoop (run r1) lo hi greedy k (lo + List.length (rest p))%nat O p c
  end.

(** The result of a successful match: [m[0]] and the captures. *)
Record matched := Matched { whole : list ascii; groups : caps }.

(** The leftmost match, start positions tried from left to right. *)
Fixpoint search (r : re) (pr : option ascii) (s : list ascii)
  : option matched :=
  match run r (fun p c => Some (p, c)) (Pos pr s) [] with
  | Some (p', c) =>
      Some (Matched (take (List.length s - List.length (rest p'))%nat s) c)
  | None =>
      match s with
      | [] => None
      | a :: s' => search r (Some a) s'
      end
  end.

(** [text.match(r)] for a pattern without the [g] flag. *)
Definition exec (r : re) (text : string) : option matched :=
  search r None (Js.chars text).

(** [r.test(text)]. *)
Definition test (r : re) (text : string) : bool :=
  match exec r text with Some _ => true | None => false end.

(** [m[i]] for a group that took part in the match. *)
Definition group (i : nat) (m : matched) : option string :=
  match List.find (fun g => (g.1 =? i)%nat) (groups m) with
  | Some g => Some (Js.str g.2)
  | None => None
  end.

Definition group0 (m : matched) : string := Js.str (whole m).

(** Pattern builders. *)
Definition never : re := Chr (fun _ => false).
Fixpoint seqs (l : list re) : re :=
  match l with [] => Eps | [r] => r | r :: l' => Seq r (seqs l') end.
Fixpoint alts (l : list re) : re :=
  match l with [] => never | [r] => r | r :: l' => Alt r (alts l') end.

Definition star (r : re) : re := Rep 0 None true r.
Definition plus (r : re) : re := Rep 1 None true r.
Definition plusLazy (r : re) : re := Rep 1 None false r.
Definition opt (r : re) : re := Rep 0 (Some 1%nat) true r.
Definition times (n : nat) (r : re) : re := Rep n (Some n) true r.
Definition range (lo hi : nat) (r : re) : re := Rep lo (Some hi) true r.
Definition atLeast (n : nat) (r : re) : re := Rep n None true r.

(** One character, exactly or ignoring case. *)
Definition chr (a : ascii) : re := Chr (Ascii.eqb a).
Definition chri (a : ascii) : re :=
  Chr (fun c => Ascii.eqb (Js.lowerChar c) (Js.lowerChar a)).
(** A literal, exactly or under [/i]. *)
Definition lit (s : string) : re := seqs (map chr (Js.chars s)).
Definition liti (s : string) : re := seqs (map chri (Js.chars s)).

(** Character classes: [\d], [\s], [.] and [.] under [/s]. *)
Definition isSpace (c : ascii) : bool :=
  let n := Js.code c in ((9 <=? n) && (n <=? 13)) || (n =? 32).
Definition isLineEnd (c : ascii) : bool :=
  let n := Js.code c in (n =? 10) || (n =? 13).
Definition digit : re := Chr Js.isDigit.
Definition space : re := Chr isSpace.
Definition dot : re := Chr (fun c => negb (isLineEnd c)).
Definition dotAll : re := Chr (fun _ => true).
Definition oneOf (s : string) : re :=
  Chr (fun c => existsb (Ascii.eqb c) (Js.chars s)).

End Regex.

(* ===================================================================== *)
(** ** OCR module: classification, field parsing, barcode fallback *)
(* ===================================================================== *)

Module Ocr.
Import Regex.

(** [s.includes(p)]. *)
Fixpoint prefixb (p s : list ascii) : bool :=
  match p, s with
  | [], _ => true
  | a :: p', b :: s' => Ascii.eqb a b && prefixb p' s'
  | _ :: _, [] => false
  end.

Fixpoint includesb (s p : list ascii) : bool :=
  prefixb p s || match s with [] => false | _ :: s' => includesb s' p end.

Definition includes (s p : string) : bool :=
  includesb (Js.chars s) (Js.chars p).

(** [s.trim()]. *)
Fixpoint trimStart (s : list ascii) : list ascii :=
  match s with
  | a :: s' => if isSpace a then trimStart s' else s
  | [] => []
  end.

Definition trim (s : string) : string :=
  Js.str (rev (trimStart (rev (trimStart (Js.chars s))))).

(** [s.replace(/\n/g, ' ')]. *)
Definition newlinesToSpaces (s : string) : string :=
  Js.str (map (fun c => if (Js.code c =? 10) then " "%char else c)
              (Js.chars s)).

Definition nutritionPatterns : list string :=
  [ "nutrition facts"; "nutritional information"; "per serving";
    "calories"; "total fat"; "sodium"; "carbohydrate"; "protein";
    "daily value"; "saturated fat"; "cholesterol"; "dietary fiber" ].

Definition ingredientPatterns : list string :=
  [ "ingredients:"; "ingredients"; "contains:"; "may contain";
    "allergen"; "wheat"; "soy"; "milk"; "eggs"; "nuts" ].

(** An entry of [barcodePatterns] is a regular expression or a string. *)
Inductive pattern := PRe (r : re) | PStr (s : string).

(** [/\d{8,14}/] *)
Definition longNumber : re := range 8 14 digit.

Definition barcodePatterns : list pattern :=
  [ PRe longNumber; PStr "ean"; PStr "upc"; PStr "gtin" ].

Definition frontPatterns : list string :=
  [ "new"; "organic"; "natural"; "best before";
    "net weight"; "net wt"; "oz"; "ml"; "g " ].

(** The body of the loop over [barcodePatterns]: strings are looked up in
    the lower-cased text, the regular expression is tested on the text. *)
Definition barcodeHit (text lowerText : string) (p : pattern) : bool :=
  match p with
  | PStr s => includes lowerText s
  | PRe r => test r text
  end.

(** [classifyImageContent(text)]. *)
Definition classifyImageContent (text : string) : string :=
  let lowerText := Js.toLowerCase text in
  if existsb (includes lowerText) nutritionPatterns then "nutrition"
  else if existsb (includes lowerText) ingredientPatterns then "ingredients"
  else if existsb (barcodeHit text lowerText) barcodePatterns then "barcode"
  else if existsb (includes lowerText) frontPatterns then "front"
  else "other".

(** The first pattern of an ordered list that matches. *)
Fixpoint firstMatch (patterns : list re) (text : string) : option matched :=
  match patterns with
  | [] => None
  | r :: rest => orElse (exec r text) (firstMatch rest text)
  end.

(** [(?:g|kg|oz|lb|ml|l)] under [/i]. *)
Definition unit : re :=
  alts [liti "g"; liti "kg"; liti "oz"; liti "lb"; liti "ml"; liti "l"].
(** [\d+(?:\.\d+)?\s*(?:g|kg|oz|lb|ml|l)] *)
Definition quantity : re :=
  seqs [plus digit; opt (Seq (lit ".") (plus digit)); star space; unit].
(** [[:\s]*] *)
Definition sep : re := star (Alt (lit ":") space).

Definition weightPatterns : list re :=
  [ (* /net\s*(?:weight|wt\.?)[:\s]*(<quantity>)/i *)
    seqs [liti "net"; star space;
          Alt (liti "weight") (Seq (liti "wt") (opt (lit ".")));
          sep; Grp 1 quantity];
    (* /(<quantity>)\s*net/i *)
    seqs [Grp 1 quantity; star space; liti "net"] ].

(** [/ingredients[:\s]*(.+?)(?=nutrition|contains|allergen|$)/is] *)
Definition ingredientsPattern : re :=
  seqs [liti "ingredients"; sep; Grp 1 (plusLazy dotAll);
        Ahead (alts [liti "nutrition"; liti "contains"; liti "allergen"; Eos])].

(** [[a-z\s]] under [/i]. *)
Definition letterOrSpace : re :=
  Chr (fun c => Js.isLower (Js.lowerChar c) || isSpace c).

Definition originPatterns : list re :=
  [ (* /(?:product of|made in|origin)[:\s]*([a-z\s]+?)(?:\.|,|$)/i *)
    seqs [alts [liti "product of"; liti "made in"; liti "origin"]; sep;
          Grp 1 (plusLazy letterOrSpace); alts [lit "."; lit ","; Eos]];
    (* /(?:country of origin)[:\s]*([a-z\s]+?)(?:\.|,|$)/i *)
    seqs [liti "country of origin"; sep;
          Grp 1 (plusLazy letterOrSpace); alts [lit "."; lit ","; Eos]] ].

Definition mfgPatterns : list re :=
  [ (* /(?:manufactured by|distributed by|produced by)[:\s]*(.+?)(?:\.|,|$)/i *)
    seqs [alts [liti "manufactured by"; liti "distributed by";
                liti "produced by"]; sep;
          Grp 1 (plusLazy dot); alts [lit "."; lit ","; Eos]];
    (* /(?:mfg by|dist by)[:\s]*(.+?)(?:\.|,|$)/i *)
    seqs [alts [liti "mfg by"; liti "dist by"]; sep;
          Grp 1 (plusLazy dot); alts [lit "."; lit ","; Eos]] ].

Definition storagePatterns : list re :=
  [ (* /(?:store|keep|storage)[:\s]*(.+?)(?:\.|$)/i *)
    seqs [alts [liti "store"; liti "keep"; liti "storage"]; sep;
          Grp 1 (plusLazy dot); alts [lit "."; Eos]];
    (* /(?:refrigerate|freeze|keep frozen)/i *)
    alts [liti "refrigerate"; liti "freeze"; liti "keep frozen"] ].

Definition expiryPatterns : list re :=
  [ (* /(?:best before|use by|expiry|exp)[:\s]*(.+?)(?:\.|$)/i *)
    seqs [alts [liti "best before"; liti "use by"; liti "expiry"; liti "exp"];
          sep; Grp 1 (plusLazy dot); alts [lit "."; Eos]];
    (* /(?:bb|exp)[:\s]*(\d{1,2}[\/\-]\d{1,2}[\/\-]\d{2,4})/i *)
    seqs [alts [liti "bb"; liti "exp"]; sep;
          Grp 1 (seqs [range 1 2 digit; oneOf "/-"; range 1 2 digit;
                       oneOf "/-"; range 2 4 digit])] ].

(** [/\b(\d{8}|\d{12}|\d{13}|\d{14})\b/] *)
Definition potentialBarcodePattern : re :=
  seqs [Bnd;
        Grp 1 (alts [times 8 digit; times 12 digit; times 13 digit;
                     times 14 digit]);
        Bnd].

(** [fields.k = v] when the optional value is there. *)
Definition setField (k : string) (v : option Db.fieldValue)
    (fields : gmap string Db.fieldValue) : gmap string Db.fieldValue :=
  match v with Some x => <[k := x]> fields | None => fields end.

Definition groupTrim (i : nat) (m : option matched) : option Db.fieldValue :=
  match m with
  | Some m' =>
      match group i m' with
      | Some s => Some (Db.FStr (trim s))
      | None => None
      end
  | None => None
  end.

Definition flag (b : bool) : option Db.fieldValue :=
  if b then Some (Db.FBool true) else None.

(** [parseOCRFields(text)].  The fields are set in the order of the source;
    the keys are distinct, so the order does not show in the map. *)
Definition parseOCRFields (text : string) : gmap string Db.fieldValue :=
  let f1 := setField "net_weight" (groupTrim 1 (firstMatch weightPatterns text)) ∅ in
  let f2 :=
    setField "ingredients"
      (match exec ingredientsPattern text with
       | Some m =>
           match group 1 m with
           | Some s => Some (Db.FStr (newlinesToSpaces (trim s)))
           | None => None
           end
       | None => None
       end) f1 in
  let f3 := setField "origin" (groupTrim 1 (firstMatch originPatterns text)) f2 in
  let f4 := setField "manufacturer" (groupTrim 1 (firstMatch mfgPatterns text)) f3 in
  let f5 :=
    setField "storage"
      (match firstMatch storagePatterns text with
       | Some m => Some (Db.FStr (trim (group0 m)))
       | None => None
       end) f4 in
  let f6 := setField "halal" (flag (test (liti "halal") text)) f5 in
  let f7 := setField "kosher" (flag (test (liti "kosher") text)) f6 in
  let f8 := setField "expiry" (groupTrim 1 (firstMatch expiryPatterns text)) f7 in
  setField "potential_barcode"
    (match exec potentialBarcodePattern text with
     | Some m => option_map Db.FStr (group 1 m)
     | None => None
     end) f8.

(** [/\b(\d{n})\b/] *)
Definition standaloneRun (n : nat) : re :=
  seqs [Bnd; Grp 1 (times n digit); Bnd].

(** The [patterns] of [extractBarcodeFromOCR]: EAN-13, UPC-A, EAN-8/UPC-E,
    ITF-14, in that order. *)
Definition barcodeLengths : list nat := [13; 12; 8; 14]%nat.

(** [extractBarcodeFromOCR(text)]. *)
Definition extractBarcodeFromOCR (text : string) : option string :=
  match firstMatch (map standaloneRun barcodeLengths) text with
  | Some m => group 1 m
  | None => None
  end.

(** A field value is falsy when it is the empty string or [false]. *)
Definition truthyField (v : Db.fieldValue) : bool :=
  match v with Db.FStr s => Js.truthy s | Db.FBool b => b end.

(** The field merge of the OCR module's [processProductImages]:
    [for ([key, value] of Object.entries(fields))
       if (!parsed_fields[key]) parsed_fields[key] = value]. *)
Definition mergeFields (parsed fields : gmap string Db.fieldValue)
  : gmap string Db.fieldValue :=
  union_with (fun old new => Some (if truthyField old then old else new))
             parsed fields.

(** What [processProductImages(images)] of the OCR module accumulates, given
    the OCR text of each image in order: the merged text, the tags and the
    merged fields. *)
Record ocrResults := OcrResults {
  merged_text : string;
  parsed_fields : gmap string Db.fieldValue;
  tags : list string
}.

Definition processProductImages (texts : list string) : ocrResults :=
  fold_left (fun r text =>
    OcrResults (merged_text r +:+ text +:+ Js.str [ascii_of_nat 10])
               (mergeFields (parsed_fields r) (parseOCRFields text))
               (tags r ++ [classifyImageContent text]))
    texts (OcrResults "" ∅ []).

End Ocr.

(* ===================================================================== *)
(** ** The crawler: image pipeline *)
(* ===================================================================== *)

Module Pipeline.

(** Image bytes are opaque to the crawler; a buffer is named by a string. *)
Definition buffer := string.

(** What the collaborators answer: the HTTP fetch, the raster transforms,
    the barcode and OCR engines, the clock and the path library. *)
Inductive fetched :=
| FetchOk (body : buffer)
| FetchNotOk
| FetchThrows (msg : string).

Record world := World {
  (** [fetch(imageUrl)] *)
  w_fetch : string → fetched;
  (** the variants built by [preprocessImage], in order *)
  w_variants : buffer → list buffer;
  (** [readBarcodesFromImageData]: the symbols read, as (text, format) *)
  w_zxing : buffer → list (string * string);
  (** Tesseract's [recognize] after [preprocessForOCR]: text and
      confidence, or [None] when it fails *)
  w_recognize : buffer → option (string * Q);
  (** [sharp(buffer).jpeg().toFile(path)]: [Some msg] when it throws *)
  w_toFile : buffer → string → option string;
  (** [path.join(imageDir, productId, filename)] *)
  w_join : string → string → string → string;
  (** [new Date().toISOString()] at the end of the run *)
  w_now : string
}.

Record config := Config {
  enableOCR : bool;
  enableBarcode : bool;
  imageDir : string
}.

Record barcodeResult := BarcodeResult {
  value : string;
  format : string;
  confidence : Q
}.

(** The confidence [decodeWithZXing] attaches to a decoded symbol, and the
    one the crawler attaches to a barcode read from OCR text. *)
Definition decodeConfidence : Q := 95 # 100.
Definition ocrBarcodeConfidence : Q := 5 # 10.

(** [decodeWithZXing(variant)]: the first symbol read, if any. *)
Definition decodeWithZXing (w : world) (variant : buffer)
  : option barcodeResult :=
  match w_zxing w variant with
  | (text, fmt) :: _ => Some (BarcodeResult text fmt decodeConfidence)
  | [] => None
  end.

(** [detectBarcode(buffer)]: the first variant that decodes wins. *)
Fixpoint firstDecode (w : world) (variants : list buffer)
  : option barcodeResult :=
  match variants with
  | [] => None
  | v :: rest =>
      match decodeWithZXing w v with
      | Some r => Some r
      | None => firstDecode w rest
      end
  end.

Definition detectBarcode (w : world) (b : buffer) : option barcodeResult :=
  firstDecode w (w_variants w b).

(** [extractText(buffer)]: trimmed text and confidence; an engine failure
    gives the empty text with confidence 0. *)
Definition extractText (w : world) (b : buffer) : string * Q :=
  match w_recognize w b with
  | Some (text, conf) => (Ocr.trim text, conf)
  | None => ("", 0%Q)
  end.

(** What a module exports under a name: a function from a text to a text
    or [null], or some other function. *)
Inductive exported :=
| FnText (f : string → option string)
| FnOther.

(** [module.exports] of the barcode module and of the OCR module. *)
Definition barcodeExports : list (string * exported) :=
  [ ("detectBarcode", FnOther); ("detectBarcodesBatch", FnOther);
    ("validateBarcode", FnOther); ("calculateEAN13CheckDigit", FnOther);
    ("preprocessImage", FnOther) ].

Definition ocrExports : list (string * exported) :=
  [ ("initScheduler", FnOther); ("terminateScheduler", FnOther);
    ("extractText", FnOther); ("classifyImageContent", FnOther);
    ("parseOCRFields", FnOther); ("processProductImages", FnOther);
    ("extractBarcodeFromOCR", FnText Ocr.extractBarcodeFromOCR);
    ("preprocessForOCR", FnOther) ].

Definition lookupExport (name : string) (exports : list (string * exported))
  : option exported :=
  option_map snd (List.find (fun e => String.eqb e.1 name) exports).

(** [const { detectBarcode, extractBarcodeFromOCR } = require('../barcode')]:
    the crawler binds [extractBarcodeFromOCR] to what the barcode module
    exports under that name. *)
Definition extractBarcodeFromOCR : option exported :=
  lookupExport "extractBarcodeFromOCR" barcodeExports.

(** Calling a binding on a text: [undefined] is not callable. *)
Definition callText (f : option exported) (name text : string)
  : result (option string) :=
  match f with
  | Some (FnText g) => Ok (g text)
  | _ => Throw (name +:+ " is not a function")
  end.

Record stats := Stats {
  categories : Z;
  products : Z;
  images : Z;
  barcodes : Z;
  errors : Z
}.

(** The variables of [processProductImages] that outlive one iteration. *)
Record acc := Acc {
  a_db : Db.t;
  a_stats : stats;
  ocrTexts : list string;
  ocrFields : gmap string Db.fieldValue
}.

Definition bumpBarcodes (s : stats) : stats :=
  Stats (categories s) (products s) (images s) (barcodes s + 1) (errors s).
Definition bumpImages (s : stats) : stats :=
  Stats (categories s) (products s) (images s + 1) (barcodes s) (errors s).

(** [String(i + 1).padStart(2, '0')] for the indices of the loop, [i < 10]. *)
Definition indexStr (i : nat) : string :=
  if (i <? 9)%nat then Js.str ["0"%char; ascii_of_nat (48 + i + 1)]
  else "10".

(** The [try] block for one image.  [Throw] is what the [catch] logs; the
    accumulator comes back in both cases, with the changes made before the
    throw. *)
Definition tryImage (w : world) (cfg : config) (productId : string)
    (i : nat) (imageUrl : string) (a : acc) : result unit * acc :=
  match w_fetch w imageUrl with
  | FetchThrows msg => (Throw msg, a)
  | FetchNotOk => (Ok (), a)
  | FetchOk buf =>
      (* barcode detection *)
      let barcode0 := if enableBarcode cfg then detectBarcode w buf else None in
      let tag0 := match barcode0 with Some _ => "barcode" | None => "other" end in
      let stats0 := match barcode0 with
                    | Some _ => bumpBarcodes (a_stats a)
                    | None => a_stats a
                    end in
      (* OCR *)
      let ocr := if enableOCR cfg then Some (extractText w buf) else None in
      let hasText := match ocr with Some (t, _) => Js.truthy t | None => false end in
      let text := match ocr with Some (t, _) => t | None => "" end in
      let tag1 := if hasText then Ocr.classifyImageContent text else tag0 in
      let texts1 := if hasText then ocrTexts a ++ [text] else ocrTexts a in
      (* ocrFields = { ...ocrFields, ...fields } *)
      let fields1 := if hasText then Ocr.parseOCRFields text ∪ ocrFields a
                     else ocrFields a in
      let a1 := Acc (a_db a) stats0 texts1 fields1 in
      let recovered : result (option barcodeResult) :=
        match barcode0 with
        | Some r => Ok (Some r)
        | None =>
            if hasText then
              match callText extractBarcodeFromOCR "extractBarcodeFromOCR" text with
              | Throw msg => Throw msg
              | Ok (Some ocrBarcode) =>
                  Ok (Some (BarcodeResult ocrBarcode
                              (if (Js.length ocrBarcode =? 13)%nat
                               then "EAN-13" else "Unknown")
                              ocrBarcodeConfidence))
              | Ok None => Ok None
              end
            else Ok None
        end in
      match recovered with
      | Throw msg => (Throw msg, a1)
      | Ok barcode1 =>
          let filename :=
            productId +:+ "__img" +:+ indexStr i +:+ "__" +:+ tag1 +:+ ".jpg" in
          let localPath := w_join w (imageDir cfg) productId filename in
          match w_toFile w buf localPath with
          | Some msg => (Throw msg, a1)
          | None =>
              let row :=
                Db.Image productId (Some imageUrl) (Some localPath) tag1
                  (option_map value barcode1) (option_map format barcode1)
                  (option_map confidence barcode1)
                  (option_map fst ocr) (option_map snd ocr) in
              (Ok (), Acc (Db.addImage row (a_db a1)) (bumpImages stats0)
                          texts1 fields1)
          end
      end
  end.

(** One iteration of the loop: images already recorded are skipped. *)
Definition imageStep (w : world) (cfg : config) (productId : string)
    (a : acc) (iu : nat * string) : acc :=
  let '(i, imageUrl) := iu in
  if Db.imageExists productId imageUrl (a_db a) then a
  else (tryImage w cfg productId i imageUrl a).2.

(** [ocrTexts.join('\n---\n')]. *)
Definition separator : string :=
  Js.str [ascii_of_nat 10; "-"%char; "-"%char; "-"%char; ascii_of_nat 10].

Fixpoint join (sep : string) (l : list string) : string :=
  match l with
  | [] => ""
  | [x] => x
  | x :: rest => x +:+ sep +:+ join sep rest
  end.

(** [{ ...product, merged_ocr_text: t, ocr_fields_json: f }] *)
Definition withOcr (p : Db.product) (t : string)
    (f : gmap string Db.fieldValue) : Db.product :=
  Db.Product (Db.product_id p) (Db.url p) (Db.name p) (Db.brand p)
    (Db.category p) (Db.variant p) (Db.price p) (Db.currency p)
    (Db.description p) (Db.ingredients p) (Db.nutrition p)
    (Db.manufacturer p) (Db.origin p) (Db.availability p)
    (Db.scrape_date p) (Db.source_site p) (Some t) (Some f).

(** [SupermarketCrawler.processProductImages(productId, imageUrls)]: at
    most ten images, then the merged OCR data is written to the product.
    The directory of the images is taken to exist or to be created. *)
Definition processProductImages (w : world) (cfg : config)
    (productId : string) (imageUrls : list string)
    (db : Db.t) (st : stats) : result (Db.t * stats) :=
  let a := fold_left (imageStep w cfg productId)
             (zip (seq 0 10) (take 10 imageUrls)) (Acc db st [] ∅) in
  if (0 <? List.length (ocrTexts a))%nat then
    match Db.getProduct productId (a_db a) with
    | Some product =>
        match Db.upsertProduct (w_now w)
                (withOcr product (join separator (ocrTexts a)) (ocrFields a))
                (a_db a) with
        | Ok db' => Ok (db', a_stats a)
        | Throw msg => Throw msg
        end
    | None => Ok (a_db a, a_stats a)
    end
  else Ok (a_db a, a_stats a).

End Pipeline.

(* ===================================================================== *)
(** ** The crawler: fusing the data sources of a product page *)
(* ===================================================================== *)

Module Fusion.
Import Regex.

(** JSON values, and [undefined]. *)
#[warnings="-register-all"]
Inductive value :=
| VUndefined
| VNull
| VBool (b : bool)
| VNum (q : Q)
| VStr (s : string)
| VArr (l : list value)
| VObj (m : gmap string value).

Definition truthy (v : value) : bool :=
  match v with
  | VUndefined | VNull => false
  | VBool b => b
  | VNum q => negb (Qeq_bool q 0)
  | VStr s => Js.truthy s
  | VArr _ | VObj _ => true
  end.

(** [a || b] *)
Definition orV (a b : value) : value := if truthy a then a else b.

(** [v.k] for the property names read by the crawler; a missing property
    and a property of a primitive are [undefined]. *)
Definition getProp (v : value) (k : string) : value :=
  match v with
  | VObj m => default VUndefined (m !! k)
  | _ => VUndefined
  end.

(** [v?.k] *)
Definition getPropOpt (v : value) (k : string) : value :=
  match v with
  | VUndefined | VNull => VUndefined
  | _ => getProp v k
  end.

(** The own enumerable properties that [{ ...v }] copies: those of an
    object, the indexed elements of an array or of a string, and nothing
    for the other values. *)
Definition indexed (l : list value) : gmap string value :=
  list_to_map (imap (fun i x => (pretty i, x)) l).

Definition spread (v : value) : gmap string value :=
  match v with
  | VObj m => m
  | VArr l => indexed l
  | VStr s => indexed (map (fun c => VStr (Js.str [c])) (Js.chars s))
  | _ => ∅
  end.

(** What [page.evaluate] returns for the DOM fallback: the first matching
    selector per field ([None] when no selector matches), the image
    sources and the joined breadcrumb. *)
Record domData := DomData {
  d_name : option string;
  d_brand : option string;
  d_price : option string;
  d_description : option string;
  d_sku : option string;
  d_images : list string;
  d_breadcrumb : string
}.

Definition ofText (o : option string) : value :=
  match o with Some s => VStr s | None => VNull end.

Definition domObject (d : domData) : gmap string value :=
  <["name" := ofText (d_name d)]>
  (<["brand" := ofText (d_brand d)]>
  (<["price" := ofText (d_price d)]>
  (<["description" := ofText (d_description d)]>
  (<["sku" := ofText (d_sku d)]>
  (<["images" := VArr (map VStr (d_images d))]>
  (<["breadcrumb" := VStr (d_breadcrumb d)]> ∅)))))).

(** The JSON-LD lookup: the first parsed block whose [@type] is
    ["Product"] or that has a truthy [product]; [data.product || data]. *)
Definition isProductBlock (data : value) : bool :=
  match getProp data "@type" with
  | VStr t => String.eqb t "Product" || truthy (getProp data "product")
  | _ => truthy (getProp data "product")
  end.

Fixpoint findStructured (blocks : list value) : value :=
  match blocks with
  | [] => VNull
  | data :: rest =>
      if isProductBlock data then orV (getProp data "product") data
      else findStructured rest
  end.

(** The response listener of [crawlProduct]: the last JSON response with a
    truthy [product], [item] or [data]. *)
Definition isProductJson (json : value) : bool :=
  truthy (getProp json "product") || truthy (getProp json "item") ||
  truthy (getProp json "data").

Definition intercepted (responses : list value) : option value :=
  last (filter (fun j => Is_true (isProductJson j)) responses).

(** [structuredData = { ...structuredData, ...jsonData.product,
    ...jsonData.item }] when a response was intercepted. *)
Definition withJson (structuredData : value) (jsonData : option value)
  : value :=
  match jsonData with
  | Some json =>
      VObj (spread (getProp json "item") ∪
            (spread (getProp json "product") ∪ spread structuredData))
  | None => structuredData
  end.

(** [merged = { ...domData, ...structuredData }] *)
Definition mergeSources (dom : domData) (structuredData : value)
    (jsonData : option value) : gmap string value :=
  spread (withJson structuredData jsonData) ∪ domObject dom.

(** The price pattern: an optional group 1 [([A-Z]{3}|\$|€|£|¥|﷼)], blanks
    [[\s]*], and group 2, the numeral [\d+[.,]?\d*]. *)
Definition pricePattern : re :=
  seqs [opt (Grp 1 (alts [times 3 (Chr Js.isUpper); lit "$"; lit "€";
                          lit "£"; lit "¥"; lit "﷼"]));
        star space;
        Grp 2 (seqs [plus digit; opt (oneOf ".,"); star digit])].

(** [parseFloat(s.replace(',', '.'))] on a match of [\d+[.,]?\d*], as an
    exact decimal. *)
Fixpoint decimalDigits (acc : Z) (s : list ascii) : Z :=
  match s with
  | c :: s' => if Js.isDigit c then decimalDigits (10 * acc + (Js.code c - 48)) s'
               else acc
  | [] => acc
  end.

Fixpoint leadingDigits (s : list ascii) : list ascii :=
  match s with
  | c :: s' => if Js.isDigit c then c :: leadingDigits s' else []
  | [] => []
  end.

Definition parseDecimal (s : string) : Q :=
  let cs := Js.chars s in
  let int := leadingDigits cs in
  let frac := drop (S (List.length int)) cs in
  (decimalDigits 0 int # 1) +
  (decimalDigits 0 frac # Pos.of_nat (10 ^ List.length frac)).

(** The record returned by [extractProductData].  Fields copied from the
    merged object keep the JSON value found there. *)
Record productData := ProductData {
  product_id : string;
  url : string;
  name : value;
  brand : value;
  category : value;
  variant : value;
  price : option Q;
  currency : option string;
  description : value;
  ingredients : value;
  nutrition : value;
  manufacturer : value;
  origin : value;
  availability : value;
  scrape_date : string;
  source_site : string;
  images : value
}.

(** [extractProductData(page, productUrl, category, baseDomain, jsonData)],
    given the parsed JSON-LD blocks of the page and its DOM data. *)
Definition extractProductData (now : string) (blocks : list value)
    (dom : domData) (productUrl category baseDomain : string)
    (jsonData : option value) : result productData :=
  let merged := VObj (mergeSources dom (findStructured blocks) jsonData) in
  let get := getProp merged in
  let priced : result (option Q * option string) :=
    if truthy (get "price") then
      match get "price" with
      | VStr s =>
          match exec pricePattern s with
          | Some m =>
              Ok (option_map parseDecimal (group 2 m),
                  Some (match group 1 m with
                        | Some c => if Js.truthy c then c else "USD"
                        | None => "USD"
                        end))
          | None => Ok (None, None)
          end
      | _ => Throw "merged.price.match is not a function"
      end
    else Ok (None, None) in
  let identified : result string :=
    match get "sku" with
    | VStr s => Ok (Identity.generateProductId productUrl (Some s))
    | v => if truthy v then Throw "sku.replace is not a function"
           else Ok (Identity.generateProductId productUrl None)
    end in
  match priced, identified with
  | Throw msg, _ => Throw msg
  | _, Throw msg => Throw msg
  | Ok (price, currency), Ok productId =>
      Ok (ProductData productId productUrl
            (orV (get "name") (get "title"))
            (orV (getPropOpt (get "brand") "name") (get "brand"))
            (orV (get "breadcrumb") (VStr category))
            (orV (get "variant") (get "size"))
            price currency
            (get "description") (get "ingredients") (get "nutrition")
            (get "manufacturer")
            (orV (get "origin") (get "countryOfOrigin"))
            (orV (get "availability")
                 (getPropOpt (get "offers") "availability"))
            now baseDomain
            (orV (get "images") (VArr [])))
  end.

End Fusion.

(* ===================================================================== *)
(** ** The crawler: category traversal and the job loop *)
(* ===================================================================== *)

Module Traversal.
Import Regex.

(** The patterns of [isProductUrl]. *)
Definition productPatterns : list re :=
  [ liti "/product/"; liti "/p/"; liti "/item/"; liti "/pd/"; liti "/dp/";
    liti "?sku="; liti "?id=";
    (* /\/\d{5,}/ *)
    Seq (lit "/") (atLeast 5 digit) ].

Definition isProductUrl (url : string) : bool :=
  existsb (fun p => test p url) productPatterns.

Record category := Category { c_url : string; c_name : string }.

(** What a call of [crawlProduct] does, as far as the traversal can see:
    whether it throws, what it writes to the [products] and [images]
    tables, and how many images and barcodes it counts. *)
Record productOutcome := ProductOutcome {
  po_throws : option string;
  po_products : gmap string Db.product → gmap string Db.product;
  po_rows : list Db.image → list Db.image;
  po_images : Z;
  po_barcodes : Z
}.

Definition po_db (o : productOutcome) (d : Db.t) : Db.t :=
  Db.Database (Db.jobs d) (po_products o (Db.products d))
              (po_rows o (Db.images d)).

(** The points at which the crawler awaits and a stop request can arrive. *)
Inductive moment :=
| DuringLoad (pageUrl : string)
| DuringProduct (productUrl : string)
| AfterCategory (categoryUrl : string).

(** The site and the collaborators, as seen by the traversal. *)
Record world := World {
  (** [new URL(url)] succeeds *)
  w_validUrl : string → bool;
  (** [urlObj.searchParams.has(key)] *)
  w_hasParam : string → string → bool;
  (** [urlObj.href] after [urlObj.searchParams.set(key, pageNum)] *)
  w_setParam : string → string → nat → string;
  (** [new URL(url).origin], [None] when the constructor throws *)
  w_origin : string → option string;
  (** [page.goto(pageUrl)]: [Some msg] when it throws *)
  w_goto : string → option string;
  (** the [href]s of the anchors under the product selectors of the loaded
      page, selector by selector, after the scroll expansion *)
  w_hrefs : string → list string;
  (** [hasNextPage(page)] *)
  w_hasNext : string → bool;
  (** [crawlProduct(productUrl, ...)] *)
  w_crawlProduct : string → productOutcome;
  (** a stop request arrives at that moment *)
  w_stop : moment → bool;
  (** [new Date().toISOString()], by the number of earlier readings *)
  w_clock : nat → string;
  (** [initBrowser()]: [Some msg] when the launch throws *)
  w_initBrowser : option string;
  (** [discoverCategories(homepageUrl)] *)
  w_discover : string → result (list category)
}.

(** The fields of a [SupermarketCrawler], the database it writes to, and
    two logs kept for the statements below: the pages loaded and the
    product URLs handed to [crawlProduct], in order. *)
Record crawler := Crawler {
  jobId : string;
  db : Db.t;
  stats : Pipeline.stats;
  running : bool;
  stopRequested : bool;
  processedUrls : gset string;
  discoveredProducts : gset string;
  ticks : nat;
  loaded : list string;
  handedOff : list string
}.

Definition withDb (f : Db.t → Db.t) (s : crawler) : crawler :=
  Crawler (jobId s) (f (db s)) (stats s) (running s) (stopRequested s)
          (processedUrls s) (discoveredProducts s) (ticks s) (loaded s)
          (handedOff s).

Definition withStats (f : Pipeline.stats → Pipeline.stats) (s : crawler)
  : crawler :=
  Crawler (jobId s) (db s) (f (stats s)) (running s) (stopRequested s)
          (processedUrls s) (discoveredProducts s) (ticks s) (loaded s)
          (handedOff s).

Definition tick (s : crawler) : crawler :=
  Crawler (jobId s) (db s) (stats s) (running s) (stopRequested s)
          (processedUrls s) (discoveredProducts s) (S (ticks s)) (loaded s)
          (handedOff s).

(** A stop request: the server calls [crawler.stopCrawl()] and marks the
    job as stopping. *)
Definition stopCrawl (w : world) (s : crawler) : crawler :=
  Crawler (jobId s)
          (Db.updateJobStatus (w_clock w (ticks s)) (jobId s) Db.Stopping []
                              (db s))
          (stats s) (running s) true (processedUrls s)
          (discoveredProducts s) (S (ticks s)) (loaded s) (handedOff s).

Definition await (w : world) (m : moment) (s : crawler) : crawler :=
  if w_stop w m then stopCrawl w s else s.

(** [this.db.appendJobError(this.jobId, msg); this.stats.errors++] *)
Definition recordError (w : world) (msg : string) (s : crawler) : crawler :=
  let s1 := withDb (Db.appendJobError (w_clock w (ticks s)) (jobId s) msg) s in
  tick (withStats (fun st =>
    Pipeline.Stats (Pipeline.categories st) (Pipeline.products st)
      (Pipeline.images st) (Pipeline.barcodes st) (Pipeline.errors st + 1))
    s1).

(** [getPaginatedUrl(url, pageNum)] *)
Definition getPaginatedUrl (w : world) (url : string) (pageNum : nat)
  : result string :=
  if (pageNum =? 1)%nat then Ok url
  else if negb (w_validUrl w url) then Throw "Invalid URL"
  else if w_hasParam w url "page" then Ok (w_setParam w url "page" pageNum)
  else if w_hasParam w url "p" then Ok (w_setParam w url "p" pageNum)
  else Ok (w_setParam w url "page" pageNum).

(** The collection loop of [extractProductLinks]: every non-empty [href]
    is kept once, in order of first appearance. *)
Fixpoint collect (seen : gset string) (hrefs : list string) : list string :=
  match hrefs with
  | [] => []
  | h :: rest =>
      if Js.truthy h && negb (bool_decide (h ∈ seen))
      then h :: collect ({[h]} ∪ seen) rest
      else collect seen rest
  end.

Definition sameOriginProduct (w : world) (baseDomain url : string) : bool :=
  match w_origin w url with
  | Some o => String.eqb o baseDomain && isProductUrl url
  | None => false
  end.

(** [extractProductLinks(page, baseDomain)] on the page loaded from
    [pageUrl]. *)
Definition extractProductLinks (w : world) (baseDomain pageUrl : string)
  : list string :=
  List.filter (sameOriginProduct w baseDomain) (collect ∅ (w_hrefs w pageUrl)).

(** The body of the [try] around [crawlProduct], with its [catch]. *)
Definition visitProduct (w : world) (productUrl : string) (s : crawler)
  : crawler :=
  let o := w_crawlProduct w productUrl in
  let s1 := withDb (po_db o) s in
  let s2 := withStats (fun st =>
    Pipeline.Stats (Pipeline.categories st) (Pipeline.products st)
      (Pipeline.images st + po_images o) (Pipeline.barcodes st + po_barcodes o)
      (Pipeline.errors st)) s1 in
  match po_throws o with
  | None =>
      withDb (Db.incrementJobCounter (jobId s2) Db.ProcessedProducts)
        (withStats (fun st =>
           Pipeline.Stats (Pipeline.categories st) (Pipeline.products st + 1)
             (Pipeline.images st) (Pipeline.barcodes st) (Pipeline.errors st))
           s2)
  | Some msg => recordError w (productUrl +:+ ": " +:+ msg) s2
  end.

(** [this.discoveredProducts.add(productUrl)], followed by the call of
    [crawlProduct], which the log records. *)
Definition markProduct (productUrl : string) (s : crawler) : crawler :=
  Crawler (jobId s) (db s) (stats s) (running s) (stopRequested s)
          (processedUrls s) ({[productUrl]} ∪ discoveredProducts s)
          (ticks s) (loaded s) (handedOff s ++ [productUrl]).

(** [this.processedUrls.add(pageUrl)], followed by [page.goto(pageUrl)],
    which the log records. *)
Definition markPage (pageUrl : string) (s : crawler) : crawler :=
  Crawler (jobId s) (db s) (stats s) (running s) (stopRequested s)
          ({[pageUrl]} ∪ processedUrls s) (discoveredProducts s) (ticks s)
          (loaded s ++ [pageUrl]) (handedOff s).

(** The [for] loop over the product URLs of one page. *)
Fixpoint crawlProducts (w : world) (productUrls : list string) (s : crawler)
  : crawler :=
  match productUrls with
  | [] => s
  | productUrl :: rest =>
      if stopRequested s then s
      else if decide (productUrl ∈ discoveredProducts s) then
        crawlProducts w rest s
      else
        crawlProducts w rest
          (await w (DuringProduct productUrl)
             (visitProduct w productUrl (markProduct productUrl s)))
  end.

(** The [while] loop of [crawlCategory], from its variables [pageNum] and
    [hasMorePages].  [fuel] bounds the number of rounds; [None] means that
    the bound was reached. *)
Fixpoint crawlPages (fuel : nat) (w : world) (cat : category)
    (baseDomain : string) (pageNum : nat) (hasMorePages : bool) (s : crawler)
  : option (result unit * crawler) :=
  if hasMorePages && negb (stopRequested s) then
    match fuel with
    | O => None
    | S fuel' =>
        match getPaginatedUrl w (c_url cat) pageNum with
        | Throw msg => Some (Throw msg, s)
        | Ok pageUrl =>
            if decide (pageUrl ∈ processedUrls s) then Some (Ok (), s)
            else
              match w_goto w pageUrl with
              | Some msg => Some (Throw msg, markPage pageUrl s)
              | None =>
                  let s2 := await w (DuringLoad pageUrl) (markPage pageUrl s) in
                  let productUrls := extractProductLinks w baseDomain pageUrl in
                  if (List.length productUrls =? 0)%nat then
                    crawlPages fuel' w cat baseDomain pageNum false s2
                  else
                    crawlPages fuel' w cat baseDomain (S pageNum)
                      (w_hasNext w pageUrl) (crawlProducts w productUrls s2)
              end
        end
    end
  else Some (Ok (), s).

(** [crawlCategory(category, baseDomain)].  Opening and closing the page
    and the scripts evaluated in it are taken to succeed; the scroll
    expansion shows in the anchors the page ends up with. *)
Definition crawlCategory (fuel : nat) (w : world) (cat : category)
    (baseDomain : string) (s : crawler) : option (result unit * crawler) :=
  crawlPages fuel w cat baseDomain 1 true s.

(** [this.db.incrementJobCounter(this.jobId, 'processed_categories');
    this.stats.categories++] *)
Definition categoryDone (s : crawler) : crawler :=
  withStats (fun st =>
    Pipeline.Stats (Pipeline.categories st + 1) (Pipeline.products st)
      (Pipeline.images st) (Pipeline.barcodes st) (Pipeline.errors st))
    (withDb (Db.incrementJobCounter (jobId s) Db.ProcessedCategories) s).

(** The body of the loop over the categories in [startCrawl]: the [try]
    with its [catch], then [await this.delay()]. *)
Definition categoryStep (fuel : nat) (w : world) (baseDomain : string)
    (cat : category) (s : crawler) : option crawler :=
  match crawlCategory fuel w cat baseDomain s with
  | None => None
  | Some (Ok (), s1) =>
      Some (await w (AfterCategory (c_url cat)) (categoryDone s1))
  | Some (Throw msg, s1) =>
      Some (await w (AfterCategory (c_url cat)) (recordError w msg s1))
  end.

Fixpoint crawlCategories (fuel : nat) (w : world) (baseDomain : string)
    (cats : list category) (s : crawler) : option crawler :=
  match cats with
  | [] => Some s
  | cat :: rest =>
      if stopRequested s then Some s
      else
        match categoryStep fuel w baseDomain cat s with
        | Some s1 => crawlCategories fuel w baseDomain rest s1
        | None => None
        end
  end.

Definition zeroStats : Pipeline.stats := Pipeline.Stats 0 0 0 0 0.

(** A crawler as its constructor leaves it. *)
Definition newCrawler (d : Db.t) : crawler :=
  Crawler "" d zeroStats false false ∅ ∅ O [] [].

(** [getBaseDomain(url)] *)
Definition getBaseDomain (w : world) (url : string) : string :=
  match w_origin w url with Some o => o | None => url end.

(** The first statements of [startCrawl]: the run starts from empty sets
    and zero counters. *)
Definition resetRun (job : string) (s : crawler) : crawler :=
  Crawler job (db s) zeroStats true false ∅ ∅ (ticks s) (loaded s)
          (handedOff s).

(** [this.db.updateJobStatus(this.jobId, status, fields)] *)
Definition setStatus (w : world) (status : Db.jobStatus)
    (fields : list (Db.counter * Z)) (s : crawler) : crawler :=
  tick (withDb (Db.updateJobStatus (w_clock w (ticks s)) (jobId s) status
                                   fields) s).

(** The state in which the loop over the categories starts. *)
Definition begun (w : world) (job : string) (categories : list category)
    (s : crawler) : crawler :=
  setStatus w Db.Running
    [(Db.TotalCategories, Z.of_nat (List.length categories))] (resetRun job s).

(** [finally { await this.closeBrowser(); this.running = false; }] *)
Definition finish (s : crawler) : crawler :=
  Crawler (jobId s) (db s) (stats s) false (stopRequested s)
          (processedUrls s) (discoveredProducts s) (ticks s) (loaded s)
          (handedOff s).

(** The [catch] of [startCrawl]: the job is marked as failed and the error
    is logged, then rethrown. *)
Definition fatal (w : world) (msg : string) (s : crawler) : crawler :=
  let s1 := setStatus w Db.Failed [] s in
  finish (tick (withDb (Db.appendJobError (w_clock w (ticks s1)) (jobId s1)
                          msg) s1)).

(** The end of the [try] block: the job is marked as stopped or completed. *)
Definition complete (w : world) (s : crawler) : crawler :=
  finish (setStatus w
    (if stopRequested s then Db.Stopped else Db.Completed)
    [(Db.TotalProducts, Pipeline.products (stats s));
     (Db.ProcessedProducts, Pipeline.products (stats s))] s).

(** [startCrawl(homepageUrl, jobId)]: the final statistics, or the error
    rethrown after the job was marked as failed. *)
Definition startCrawl (fuel : nat) (w : world) (homepageUrl job : string)
    (s : crawler) : option (result Pipeline.stats * crawler) :=
  let baseDomain := getBaseDomain w homepageUrl in
  match w_initBrowser w with
  | Some msg => Some (Throw msg, fatal w msg (resetRun job s))
  | None =>
      match w_discover w homepageUrl with
      | Throw msg => Some (Throw msg, fatal w msg (resetRun job s))
      | Ok categories =>
          match crawlCategories fuel w baseDomain categories
                  (begun w job categories s) with
          | None => None
          | Some s2 => Some (Ok (stats (complete w s2)), complete w s2)
          end
      end
  end.

End Traversal.

(* ===================================================================== *)
(** ** Barcode module: variants, validation *)
(* ===================================================================== *)

Module Tools.
Import Regex.

(** The raster transforms of [preprocessImage], each [None] when it
    throws: grayscale; grayscale, normalize, sharpen; grayscale, negate;
    the width in the metadata ([Some None] when the metadata has none);
    grayscale, resize to 1500, sharpen; grayscale, threshold 128. *)
Record sharp := Sharp {
  grayscale : Pipeline.buffer → option Pipeline.buffer;
  highContrast : Pipeline.buffer → option Pipeline.buffer;
  inverted : Pipeline.buffer → option Pipeline.buffer;
  width : Pipeline.buffer → option (option Z);
  enlarged : Pipeline.buffer → option Pipeline.buffer;
  threshold : Pipeline.buffer → option Pipeline.buffer
}.

(** [preprocessImage(imageBuffer)]: the variants pushed before a transform
    throws are kept, and the [catch] pushes the original. *)
Definition preprocessImage (s : sharp) (b : Pipeline.buffer)
  : list Pipeline.buffer :=
  match grayscale s b with
  | None => [b]
  | Some g =>
      match highContrast s b with
      | None => [g; b]
      | Some h =>
          match inverted s b with
          | None => [g; h; b]
          | Some i =>
              match width s b with
              | None => [g; h; i; b]
              | Some wd =>
                  let small := match wd with
                               | Some n => n <? 1000
                               | None => false
                               end in
                  if small then
                    match enlarged s b with
                    | None => [g; h; i; b]
                    | Some e =>
                        match threshold s b with
                        | None => [g; h; i; e; b]
                        | Some t => [g; h; i; e; t]
                        end
                    end
                  else
                    match threshold s b with
                    | None => [g; h; i; b]
                    | Some t => [g; h; i; t]
                    end
              end
          end
      end
  end.

(** [r.test(value)] for a pattern [/^...$/]: the match starts at the first
    character and ends at the last. *)
Definition testWhole (body : re) (value : string) : bool :=
  match run (Seq body Eos) (fun p c => Some (p, c))
            (Pos None (Js.chars value)) [] with
  | Some _ => true
  | None => false
  end.

(** [[\x00-\x7F]] *)
Definition isAscii (c : ascii) : bool := Js.code c <=? 127.
(** [[A-Z0-9\-\.\ \$\/\+\%]] *)
Definition isCode39 (c : ascii) : bool :=
  Js.isUpper c || Js.isDigit c ||
  existsb (Ascii.eqb c) (Js.chars "-. $/+%").

(** The bodies of the [patterns] of [validateBarcode]. *)
Definition patterns : list (string * re) :=
  [ ("EAN-13", times 13 digit);
    ("EAN-8", times 8 digit);
    ("UPC-A", times 12 digit);
    ("UPC-E", times 8 digit);
    ("Code128", plus (Chr isAscii));
    ("Code39", plus (Chr isCode39)) ].

(** The property names every object literal inherits from
    [Object.prototype]: [patterns[format]] is a truthy value without a
    [test] method for them. *)
Definition inherited : list string :=
  [ "constructor"; "__defineGetter__"; "__defineSetter__"; "hasOwnProperty";
    "__lookupGetter__"; "__lookupSetter__"; "isPrototypeOf";
    "propertyIsEnumerable"; "toString"; "valueOf"; "__proto__";
    "toLocaleString" ].

(** [validateBarcode(value, format)] on strings. *)
Definition validateBarcode (value format : string) : result bool :=
  if negb (Js.truthy value) then Ok false
  else
    match List.find (fun e => String.eqb e.1 format) patterns with
    | Some (_, body) => Ok (testWhole body value)
    | None =>
        if existsb (String.eqb format) inherited
        then Throw "pattern.test is not a function"
        else Ok true
    end.

End Tools.

(* ===================================================================== *)
(** ** The crawler: discovering categories *)
(* ===================================================================== *)

Module Discovery.
Import Regex.

(** The patterns of [isCategoryUrl]. *)
Definition categoryPatterns : list re :=
  [ liti "/category/"; liti "/categories/"; liti "/c/";
    (* /\/collections?\//i *)
    seqs [liti "/collection"; opt (chri "s"); lit "/"];
    liti "/shop/";
    (* /\/products?\//i *)
    seqs [liti "/product"; opt (chri "s"); lit "/"];
    liti "/department/"; liti "/aisle/" ].

Definition isCategoryUrl (url : string) : bool :=
  existsb (fun p => test p url) categoryPatterns.

(** [s.split('/')] on the characters of [s]. *)
Fixpoint split (sep : ascii) (s : list ascii) : list (list ascii) :=
  match s with
  | [] => [[]]
  | a :: s' =>
      if Ascii.eqb a sep then [] :: split sep s'
      else match split sep s' with
           | part :: parts => (a :: part) :: parts
           | [] => [[a]]
           end
  end.

Definition nonEmptyPart (p : list ascii) : bool :=
  match p with [] => false | _ :: _ => true end.

(** [replace(/[-_]/g, ' ')] on one character. *)
Definition dashToSpace (c : ascii) : ascii :=
  if Ascii.eqb c "-" || Ascii.eqb c "_" then " "%char else c.

(** [extractNameFromUrl(url)], with [pathname url] the [pathname] of
    [new URL(url)], [None] when the constructor throws. *)
Definition extractNameFromUrl (pathname : string → option string)
    (url : string) : string :=
  match pathname url with
  | None => "Unknown"
  | Some path =>
      let parts := List.filter nonEmptyPart (split "/" (Js.chars path)) in
      match last parts with
      | None => "Unknown"
      | Some l =>
          let name :=
            Ocr.trim (Js.str (List.filter (fun c => negb (Js.isDigit c))
                                          (map dashToSpace l))) in
          if Js.truthy name then name else "Unknown"
      end
  end.


(** A parsed sitemap document: the text of the [loc] of each entry of
    [sitemapindex.sitemap] and of [urlset.url], [None] for an entry without
    one.  The [source] tag that [parseSitemap] puts on a category is not
    kept in [Traversal.category]. *)
Record sitemap := Sitemap {
  sitemapindex : option (list (option string));
  urlset : option (list (option string))
}.

(** The three locations probed by [parseSitemap]. *)
Definition sitemapUrls (baseDomain : string) : list string :=
  [ baseDomain +:+ "/sitemap.xml"; baseDomain +:+ "/sitemap_index.xml";
    baseDomain +:+ "/sitemap-index.xml" ].

Section Sitemaps.
(** [fetch(sitemapUrl)] followed by the XML parser: [None] when the
    response is not ok, or the fetch or the parser throws. *)
Variable fetchSitemap : string → option sitemap.
Variable pathname : string → option string.

Definition truthyLoc (loc : option string) : option string :=
  match loc with
  | Some l => if Js.truthy l then Some l else None
  | None => None
  end.

(** The entries of a [urlset] that look like categories. *)
Definition urlsetCategories (urls : list (option string))
  : list Traversal.category :=
  omap (fun loc =>
          match truthyLoc loc with
          | Some l =>
              if isCategoryUrl l
              then Some (Traversal.Category l (extractNameFromUrl pathname l))
              else None
          | None => None
          end) urls.

(** The loop over the entries of a sitemap index, [rec] being the
    recursive call of [parseSitemap]: the sub-sitemaps whose [loc] contains
    "product" or "category" are parsed, with their [loc] as the base. *)
Fixpoint children (rec : string → option (list Traversal.category))
    (sitemaps : list (option string)) : option (list Traversal.category) :=
  match sitemaps with
  | [] => Some []
  | sm :: rest =>
      match truthyLoc sm with
      | Some loc =>
          if Ocr.includes loc "product" || Ocr.includes loc "category" then
            match rec loc with
            | None => None
            | Some subCategories =>
                option_map (app subCategories) (children rec rest)
            end
          else children rec rest
      | None => children rec rest
      end
  end.

(** The loop over the probed locations: the first one that yields a
    category ends it. *)
Fixpoint probe (rec : string → option (list Traversal.category))
    (urls : list string) (categories : list Traversal.category)
  : option (list Traversal.category) :=
  match urls with
  | [] => Some categories
  | sitemapUrl :: rest =>
      match fetchSitemap sitemapUrl with
      | None => probe rec rest categories
      | Some doc =>
          match (match sitemapindex doc with
                 | Some sitemaps => children rec sitemaps
                 | None => Some []
                 end) with
          | None => None
          | Some subs =>
              let categories' :=
                categories ++ subs ++
                match urlset doc with
                | Some urls => urlsetCategories urls
                | None => []
                end in
              if (0 <? List.length categories')%nat then Some categories'
              else probe rec rest categories'
          end
      end
  end.

(** [parseSitemap(baseDomain)].  [fuel] bounds the depth of the recursion
    through sitemap indexes; [None] means that the bound was reached. *)
Fixpoint parseSitemap (fuel : nat) (baseDomain : string)
  : option (list Traversal.category) :=
  match fuel with
  | O => None
  | S fuel' => probe (parseSitemap fuel') (sitemapUrls baseDomain) []
  end.

End Sitemaps.

(** [handleInfiniteScroll(page)]: [heights i] is [document.body.scrollHeight]
    as read after [i] scrolls, [n] the attempts left; the result is the
    number of scrolls made. *)
Fixpoint scrollLoop (heights : nat → Z) (n : nat) (previousHeight : Z)
    (scrollAttempts : nat) : nat :=
  match n with
  | O => scrollAttempts
  | S n' =>
      let currentHeight := heights scrollAttempts in
      if currentHeight =? previousHeight then scrollAttempts
      else scrollLoop heights n' currentHeight (S scrollAttempts)
  end.

Definition maxScrolls : nat := 10.

Definition handleInfiniteScroll (heights : nat → Z) : nat :=
  scrollLoop heights maxScrolls 0 0.

End Discovery.

(* ===================================================================== *)
(** ** Vocabulary of the statements *)
(* ===================================================================== *)

(** *** The error log *)

(** The stored log of a job, [[]] for [NULL]. *)
Definition logOf (j : Db.job) : list Db.errorEntry :=
  match Db.error_log j with Some l => l | None => [] end.

(** A sequence of [appendJobError] calls on one job, each with the time at
    which it is made and its message. *)
Definition appendAll (jobId : string) (calls : list (string * string))
    (db : Db.t) : Db.t :=
  fold_left (fun d c => Db.appendJobError c.1 jobId c.2 d) calls db.

Definition entryOf (c : string * string) : Db.errorEntry :=
  Db.ErrorEntry c.1 c.2.

(** *** Identities *)

(** A SKU without any character of [[a-zA-Z0-9]]. *)
Definition noAlnum (sku : string) : bool :=
  forallb (fun c => negb (Js.isAlnum c)) (Js.chars sku).


(** *** Digit runs *)

(** The number of leading characters of [s] that satisfy [f]. *)
Fixpoint leading (f : ascii → bool) (s : list ascii) : nat :=
  match s with
  | c :: s' => if f c then S (leading f s') else O
  | [] => O
  end.



(** The continuation that accepts. *)
Definition accept : Regex.cont := fun p c => Some (p, c).

(** The position reached after reading [j] characters. *)
Definition advance (j : nat) (p : Regex.pos) : Regex.pos :=
  match j with
  | O => p
  | S j' => Regex.Pos (Regex.rest p !! j') (drop j (Regex.rest p))
  end.

(** A standalone run of [n] digits starts here: no word character before
    it, [n] digits, no word character after them. *)
Definition standaloneHere (n : nat) (pr : option ascii) (s : list ascii)
  : bool :=
  negb (Regex.isWordOpt pr) && (n <=? leading Js.isDigit s)%nat &&
  negb (Regex.isWordOpt (s !! n)).

(** The leftmost standalone run of [n] digits. *)
Fixpoint firstStandalone (n : nat) (pr : option ascii) (s : list ascii)
  : option (list ascii) :=
  if standaloneHere n pr s then Some (take n s)
  else match s with
       | [] => None
       | a :: s' => firstStandalone n (Some a) s'
       end.

Definition firstStandaloneIn (n : nat) (text : string) : option string :=
  Js.str <$> firstStandalone n None (Js.chars text).

(** *** Precedence merges *)
Module Merge.
Import Fusion.







End Merge.

(** *** Runs of the crawler *)





Definition rowView (j : Db.job)
  : Z * option (list Db.errorEntry) * Db.jobStatus * Z :=
  (Db.errors j, Db.error_log j, Db.status j, Db.processed_categories j).





(* ===================================================================== *)
(** ** Scenarios *)
(* ===================================================================== *)

(** A product with a name and nothing else. *)
Definition sampleProduct (id u nm : string) : Db.product :=
  Db.Product id u (Some nm) None None None None None None None None None
             None None None None None None.

(** *** A product with two label photographs

    Neither photograph carries a decodable barcode; the OCR engine reads a
    net weight from each. *)
Module Labels.

Definition image1 : string := "https://cdn.shop.example/milk-front.jpg".
Definition image2 : string := "https://cdn.shop.example/milk-back.jpg".
Definition text1 : string := "Net Weight: 100g".
Definition text2 : string := "Net Weight: 200g".

Definition recognize (b : Pipeline.buffer) : option (string * Q) :=
  if String.eqb b image1 then Some (text1, 90 # 1)
  else if String.eqb b image2 then Some (text2, 88 # 1)
  else None.

(** Every image is fetched; its bytes are named by its URL. *)
Definition world (zxing : Pipeline.buffer → list (string * string))
  : Pipeline.world :=
  Pipeline.World Pipeline.FetchOk (fun b => [b]) zxing recognize
    (fun _ _ => None)
    (fun dir id file => dir +:+ "/" +:+ id +:+ "/" +:+ file)
    "2024-05-01T10:00:00.000Z".

(** No symbol is read from any variant. *)
Definition noBarcode : Pipeline.world := world (fun _ => []).
(** A symbol is read from every image. *)
Definition withBarcode : Pipeline.world :=
  world (fun _ => [("4006381333931", "EAN-13")]).

Definition config : Pipeline.config :=
  Pipeline.Config true true "data/images".

Definition productRow : Db.product :=
  Db.Product "MILK1" "https://shop.example/product/milk" (Some "Milk") None
    None None None None None None None None None None
    (Some "2024-05-01T09:59:00.000Z") (Some "https://shop.example") None None.

(** The database after [crawlProduct] has stored the product. *)
Definition db : Db.t := Db.Database ∅ {[ "MILK1" := productRow ]} [].

Definition stats : Pipeline.stats := Pipeline.Stats 0 0 0 0 0.

Definition netWeight (d : Db.t) : option Db.fieldValue :=
  match Db.getProduct "MILK1" d with
  | Some row =>
      match Db.ocr_fields_json row with
      | Some fields => fields !! "net_weight"
      | None => None
      end
  | None => None
  end.

End Labels.

(** *** A photograph of a printed EAN-13 that the decoder cannot read *)
Module PrintedCode.

Definition image : string := "https://cdn.shop.example/tea-code.jpg".
Definition text : string := "EAN 4006381333931".

Definition world : Pipeline.world :=
  Pipeline.World Pipeline.FetchOk (fun b => [b]) (fun _ => [])
    (fun _ => Some (text, 80 # 1)) (fun _ _ => None)
    (fun dir id file => dir +:+ "/" +:+ id +:+ "/" +:+ file)
    "2024-05-01T10:00:00.000Z".

Definition start : Pipeline.acc :=
  Pipeline.Acc Db.empty Labels.stats [] ∅.

End PrintedCode.

(** *** A small shop *)
Module Shop.
Import Traversal.

Definition base : string := "https://shop.example".
Definition dairy : category :=
  Category "https://shop.example/category/dairy" "Dairy".
Definition bakery : category :=
  Category "https://shop.example/category/bakery" "Bakery".
Definition drinks : category :=
  Category "https://shop.example/category/drinks" "Drinks".

Definition dairyProducts : list string :=
  [ "https://shop.example/product/milk";
    "https://shop.example/product/butter";
    "https://shop.example/product/yoghurt";
    "https://shop.example/product/cream";
    "https://shop.example/product/cheese" ].

Definition drinksProducts : list string :=
  [ "https://shop.example/product/tea"; "https://shop.example/product/cola" ].

(** The anchors of the listing pages: the first page of the dairy category
    links five products, one of them twice, next to a page that is no
    product and a product of another site. *)
Definition hrefs (pageUrl : string) : list string :=
  if String.eqb pageUrl (c_url dairy) then
    [ "https://shop.example/product/milk";
      "https://shop.example/product/butter";
      "https://shop.example/product/milk";
      "https://shop.example/about";
      "https://shop.example/product/yoghurt";
      "https://shop.example/product/cream";
      "";
      "https://other.example/product/soap";
      "https://shop.example/product/cheese" ]
  else if String.eqb pageUrl (c_url drinks) then drinksProducts
  else [].

Definition origin (u : string) : option string :=
  if Ocr.prefixb (Js.chars "https://shop.example/") (Js.chars u)
  then Some base
  else if Ocr.prefixb (Js.chars "https://other.example/") (Js.chars u)
  then Some "https://other.example"
  else None.

Definition delivered : productOutcome :=
  ProductOutcome None (fun p => p) (fun i => i) 0 0.

(** The shop, by whether its listing pages show a next-page control and
    which page fails to load. *)
Definition world (hasNext : string → bool) (goto : string → option string)
  : Traversal.world :=
  World (fun _ => true) (fun _ _ => false)
        (fun u key n => u +:+ "?" +:+ key +:+ "=" +:+ pretty n)
        origin goto hrefs hasNext (fun _ => delivered) (fun _ => false)
        (fun n => "clock-" +:+ pretty n)
        None (fun _ => Ok [dairy; bakery; drinks]).

Definition allLoad : string → option string := fun _ => None.
Definition bakeryDown (u : string) : option string :=
  if String.eqb u (c_url bakery) then Some "net::ERR_CONNECTION_TIMED_OUT"
  else None.

Definition job : Db.job :=
  Db.Job "job-1" "https://shop.example" Db.Running
         (Some "2024-05-01T09:00:00Z") None 0 0 0 0 0 None "{}".

Definition db : Db.t := Db.Database {[ "job-1" := job ]} ∅ [].


(** A run in which the bakery page does not load: the states after the
    traversal of each of the three categories. *)
Definition outage : Traversal.world := world (fun _ => false) bakeryDown.


(** The same run after another category has listed the dairy products. *)
Definition seen : crawler :=
  Crawler "job-1" db zeroStats true false ∅ (list_to_set dairyProducts) O [] [].

End Shop.
(** *** Codes and variants *)

(** [v] consists of exactly [n] decimal digits. *)
Definition allDigits (n : nat) (v : string) : bool :=
  (Js.length v =? n)%nat && forallb Js.isDigit (Js.chars v).

(** [v] is not empty and all its characters satisfy [f]. *)
Definition allOf (f : ascii → bool) (v : string) : bool :=
  Js.truthy v && forallb f (Js.chars v).

(** The string of one character. *)
Definition char1 (c : ascii) : string := String c EmptyString.

(** *** Standalone digit runs *)

(** The character before the position that follows [pre], when [pr] is
    the character before [pre]. *)
Definition charBefore (pr : option ascii) (pre : list ascii) : option ascii :=
  match last pre with Some a => Some a | None => pr end.

(** [b] is a run of [n] decimal digits of [text] with no word character
    next to it on either side. *)
Definition standaloneIn (n : nat) (text b : string) : Prop :=
  ∃ pre post,
    Js.chars text = pre ++ Js.chars b ++ post ∧
    Js.length b = n ∧
    Forall (fun c => Js.isDigit c = true) (Js.chars b) ∧
    Regex.isWordOpt (last pre) = false ∧
    Regex.isWordOpt (head post) = false.

Definition hasStandalone (n : nat) (text : string) : Prop :=
  ∃ b, standaloneIn n text b.

(** The field values of the texts in which the key is set, in order. *)
Definition valuesOf (k : string) (texts : list string)
  : list Db.fieldValue :=
  omap (fun text => Ocr.parseOCRFields text !! k) texts.

(** *** Merged OCR fields *)

Definition isTruthy (o : option Db.fieldValue) : bool :=
  match o with Some v => Ocr.truthyField v | None => false end.

(** The value a key ends with, from the value [cur] it has and the values
    [vs] that arrive: the first truthy one, and without a truthy one the
    last. *)
Definition settled (cur : option Db.fieldValue) (vs : list Db.fieldValue)
  : option Db.fieldValue :=
  if isTruthy cur then cur
  else match List.find Ocr.truthyField vs with
       | Some v => Some v
       | None => match last vs with Some v => Some v | None => cur end
       end.

(** *** URL shapes *)

(** The path fragments that make a URL look like a category, and like a
    product, in lower case. *)
Definition categoryMarkers : list string :=
  [ "/category/"; "/categories/"; "/c/"; "/collection/"; "/collections/";
    "/shop/"; "/product/"; "/products/"; "/department/"; "/aisle/" ].

Definition productMarkers : list string :=
  [ "/product/"; "/p/"; "/item/"; "/pd/"; "/dp/"; "?sku="; "?id=" ].

(** [s] contains a slash followed by [n] decimal digits. *)
Definition hasNumericSegment (n : nat) (s : list ascii) : Prop :=
  ∃ pre ds post,
    s = pre ++ "/"%char :: ds ++ post ∧ List.length ds = n ∧
    Forall (fun c => Js.isDigit c = true) ds.

(** *** Names and sitemaps *)



(** A site whose sitemap index lists two sub-sitemaps, each served at its
    own location only. *)
Module Sitemaps.

Definition productsXml : string := "https://shop.example/sitemap-products.xml".
Definition pagesXml : string := "https://shop.example/sitemap-category.xml".

Definition fetch (u : string) : option Discovery.sitemap :=
  if String.eqb u "https://shop.example/sitemap.xml" then
    Some (Discovery.Sitemap (Some [Some productsXml; Some pagesXml]) None)
  else if String.eqb u productsXml then
    Some (Discovery.Sitemap None
            (Some [Some "https://shop.example/product/milk"]))
  else if String.eqb u pagesXml then
    Some (Discovery.Sitemap None
            (Some [Some "https://shop.example/category/dairy"]))
  else None.

(** The same site with a flat sitemap. *)
Definition flat (u : string) : option Discovery.sitemap :=
  if String.eqb u "https://shop.example/sitemap.xml" then
    Some (Discovery.Sitemap None
            (Some [Some "https://shop.example/category/dairy";
                   Some "https://shop.example/about";
                   None;
                   Some "https://shop.example/product/milk-1l"]))
  else None.

Definition pathname (u : string) : option string :=
  if Ocr.prefixb (Js.chars "https://shop.example") (Js.chars u)
  then Some (Js.str (drop 20 (Js.chars u)))
  else None.

End Sitemaps.

(** *** The bookkeeping of a run *)




(** *** The image pipeline *)


(** *** Product pages *)

(** A truthy value that is not a string. *)
Definition truthyNonString (v : Fusion.value) : bool :=
  Fusion.truthy v &&
  match v with Fusion.VStr _ => false | _ => true end.

(** The value of a field after the sources of a page are merged. *)
Definition mergedField (blocks : list Fusion.value) (dom : Fusion.domData)
    (jsonData : option Fusion.value) (k : string) : Fusion.value :=
  Fusion.getProp
    (Fusion.VObj (Fusion.mergeSources dom (Fusion.findStructured blocks)
                    jsonData)) k.


(** The crawler keeps to the job [job], which has no row in the jobs
    table [J]. *)
Definition jobless (job : string) (J : gmap string Db.job)
    (s : Traversal.crawler) : Prop :=
  Traversal.jobId s = job ∧ Db.jobs (Traversal.db s) = J.

(** The shop when the categories cannot be stored because the job was
    never created, and the crawler at the end of such a run. *)
Definition shopNoJob : Traversal.world :=
  Traversal.World (fun _ => true) (fun _ _ => false)
    (fun u key n => u +:+ "?" +:+ key +:+ "=" +:+ pretty n)
    Shop.origin Shop.allLoad Shop.hrefs (fun _ => false)
    (fun _ => Shop.delivered) (fun _ => false)
    (fun n => "clock-" +:+ pretty n)
    None (fun _ => Throw "FOREIGN KEY constraint failed").

Definition shopUntracked : Traversal.crawler :=
  Traversal.fatal shopNoJob "FOREIGN KEY constraint failed"
    (Traversal.resetRun "job-2" (Traversal.newCrawler Shop.db)).

(** The database of the label scenario once the first photograph is
    recorded. *)
Definition recordedDb : Db.t :=
  Db.addImage
    (Db.Image "MILK1" (Some Labels.image1)
       (Some "data/images/MILK1/MILK1__img01__other.jpg") "other"
       None None None None None)
    Labels.db.


(* ===================================================================== *)
(** * Properties *)
(* ===================================================================== *)

(** ** The model on small inputs *)

Example sha1_abc :
  Sha1.digest_hex "abc" = "a9993e364706816aba3e25717850c26c9cd0d89d".
Proof. vm_compute. reflexivity. Qed.

Example sha1_empty :
  Sha1.digest_hex "" = "da39a3ee5e6b4b0d3255bfef95601890afd80709".
Proof. vm_compute. reflexivity. Qed.

Example sha1_two_blocks :
  Sha1.digest_hex "abcdbcdecdefdefgefghfghighijhijkijkljklmklmnlmnomnopnopq"
  = "84983e441c3bd26ebaae4aa1f95129e5e54670f1".
Proof. vm_compute. reflexivity. Qed.

Example ean13_wrong_length :
  Barcode.calculateEAN13CheckDigit "40063813339" = Js.Int (-1).
Proof. reflexivity. Qed.

Example ean13_not_a_digit :
  Barcode.calculateEAN13CheckDigit "40063813339x" = Js.NaN.
Proof. reflexivity. Qed.

Example generateProductId_sku :
  Identity.generateProductId "https://shop.example/product/milk"
    (Some "ab-12 cd_34xyz9999") = "AB12CD34XYZ9".
Proof. vm_compute. reflexivity. Qed.

Example classify_both_keywords :
  Ocr.classifyImageContent "Calories 100. Ingredients: water" = "nutrition".
Proof. vm_compute. reflexivity. Qed.

Example classify_token : Ocr.classifyImageContent "GTIN" = "barcode".
Proof. vm_compute. reflexivity. Qed.

Example classify_other : Ocr.classifyImageContent "hello" = "other".
Proof. vm_compute. reflexivity. Qed.

Example parse_label :
  map_to_list (Ocr.parseOCRFields
    "Net Wt. 12.5 oz. Ingredients: water, sugar. Contains milk. Made in France. Keep frozen. Exp: 12/2025. Kosher")
  = map_to_list (list_to_map
      [ ("net_weight", Db.FStr "12.5 oz");
        ("ingredients", Db.FStr "water, sugar.");
        ("origin", Db.FStr "France");
        ("storage", Db.FStr "Keep frozen.");
        ("kosher", Db.FBool true);
        ("expiry", Db.FStr "12/2025") ] : gmap string Db.fieldValue).
Proof. vm_compute. reflexivity. Qed.

Example barcode_priority_13_before_12 :
  Ocr.extractBarcodeFromOCR "lot 123456789012 code 4006381333931"
  = Some "4006381333931".
Proof. vm_compute. reflexivity. Qed.

Example barcode_8_before_14 :
  Ocr.extractBarcodeFromOCR "12345678901234 then 12345678" = Some "12345678".
Proof. vm_compute. reflexivity. Qed.

Example barcode_not_standalone :
  Ocr.extractBarcodeFromOCR "ref_4006381333931" = None.
Proof. vm_compute. reflexivity. Qed.

Example price_with_symbol :
  option_map (fun m => (Regex.group 1 m, Regex.group 2 m))
    (Regex.exec Fusion.pricePattern "Price: $12,99 each")
  = Some (Some "$", Some "12,99")
  ∧ Fusion.parseDecimal "12,99" = (1299 # 100)%Q.
Proof. split; vm_compute; reflexivity. Qed.

Example page_two :
  Traversal.getPaginatedUrl Shop.outage "https://shop.example/category/dairy" 2
  = Ok "https://shop.example/category/dairy?page=2".
Proof. vm_compute. reflexivity. Qed.

(** ** Strings *)

Lemma chars_str l : Js.chars (Js.str l) = l.
Proof. apply list_ascii_of_string_of_list_ascii. Qed.

Lemma str_chars s : Js.str (Js.chars s) = s.
Proof. apply string_of_list_ascii_of_string. Qed.


Lemma parseIntChar_digit c :
  Js.isDigit c = true →
  Js.parseIntChar c = Js.Int (Js.code c - 48) ∧ 0 <= Js.code c - 48 <= 9.
Proof.
  intros H. unfold Js.parseIntChar. rewrite H. split; [reflexivity|].
  unfold Js.isDigit in H. apply andb_true_iff in H as [H1 H2]. lia.
Qed.

Lemma rem10_nonneg x : 0 <= x → Z.rem x 10 = x mod 10.
Proof. intros. apply Z.rem_mod_nonneg; lia. Qed.

(** For every string of twelve digits the code computes the standard check
    digit, a single digit. *)
Lemma calculateEAN13CheckDigit_standard (digits : string) :
  Js.length digits = 12%nat →
  Forall (fun c => Js.isDigit c = true) (Js.chars digits) →
  Barcode.calculateEAN13CheckDigit digits =
    Js.Int (Barcode.ean13_standard (Barcode.digitValues digits)) ∧
  0 <= Barcode.ean13_standard (Barcode.digitValues digits) <= 9.
Proof.
  unfold Barcode.calculateEAN13CheckDigit, Barcode.digitValues, Js.length.
  intros Hlen Hall. rewrite Hlen. simpl negb. cbv iota.
  destruct (Js.chars digits) as [|c0 [|c1 [|c2 [|c3 [|c4 [|c5 [|c6 [|c7 [|c8
    [|c9 [|c10 [|c11 [|? ?]]]]]]]]]]]]]; try discriminate Hlen.
  repeat match goal with
  | H : Forall _ (_ :: _) |- _ =>
      apply Forall_cons in H as [?%parseIntChar_digit H]
  end.
  repeat match goal with H : _ ∧ _ |- _ => destruct H end.
  unfold Barcode.ean13_standard. cbn [map Barcode.ean13_weighted_sum Nat.odd Nat.even negb].
  cbn [seq fold_left]. unfold Barcode.ean13_step.
  cbn [lookup list_lookup Nat.modulo Nat.divmod fst snd Nat.eqb Nat.sub].
  repeat match goal with H : Js.parseIntChar _ = _ |- _ => rewrite H; clear H end.
  cbn [Js.add Js.mul Js.sub Js.rem Z.eqb].
  match goal with |- context [Z.rem ?x 10] =>
    match x with
    | (10 - _) => fail 1
    | _ => set (sum := x); assert (Hsum : 0 <= sum) by (subst sum; lia)
    end
  end.
  rewrite (rem10_nonneg sum Hsum).
  assert (Heq : Js.code c0 - 48 + (3 * (Js.code c1 - 48) + (Js.code c2 - 48 + (3 * (Js.code c3 - 48) + (Js.code c4 - 48 + (3 * (Js.code c5 - 48) + (Js.code c6 - 48 + (3 * (Js.code c7 - 48) + (Js.code c8 - 48 + (3 * (Js.code c9 - 48) + (Js.code c10 - 48 + (3 * (Js.code c11 - 48) + 0))))))))))) = sum) by (subst sum; lia).
  rewrite Heq.
  pose proof (Z.mod_pos_bound sum 10 ltac:(lia)).
  split.
  - rewrite rem10_nonneg by lia. reflexivity.
  - pose proof (Z.mod_pos_bound (10 - sum mod 10) 10 ltac:(lia)). lia.
Qed.

(** Claim C9.  [calculateEAN13CheckDigit] applied to the twelve digits
    [400638133393] returns a single digit between 0 and 9, the one the
    standard EAN-13 algorithm prescribes (odd positions weigh 1, even
    positions weigh 3, check digit [(10 - (sum mod 10)) mod 10]): it makes
    the weighted sum a multiple of ten, and it is 1. *)
Theorem ean13_check_digit_400638133393 :
  ∃ d : Z,
    Barcode.calculateEAN13CheckDigit "400638133393" = Js.Int d ∧
    0 <= d <= 9 ∧
    d = Barcode.ean13_standard (Barcode.digitValues "400638133393") ∧
    (Barcode.ean13_weighted_sum 1 (Barcode.digitValues "400638133393") + d)
      mod 10 = 0 ∧
    d = 1.
Proof.
  destruct (calculateEAN13CheckDigit_standard "400638133393") as [Hc Hr].
  - reflexivity.
  - repeat constructor.
  - eexists. split; [exact Hc|]. split; [exact Hr|].
    split; [reflexivity|]. split; reflexivity.
Qed.


Section ErrorLog.

Lemma sliceLast_length {A} (n : nat) (l : list A) :
  List.length (Db.sliceLast n l) = Nat.min n (List.length l).
Proof. unfold Db.sliceLast. rewrite length_drop. lia. Qed.

Lemma sliceLast_all {A} (n : nat) (l : list A) :
  (List.length l <= n)%nat → Db.sliceLast n l = l.
Proof.
  intros H. unfold Db.sliceLast.
  replace (List.length l - n)%nat with O by lia. reflexivity.
Qed.

Lemma sliceLast_snoc {A} (n : nat) (l : list A) (x : A) :
  (0 < n)%nat →
  Db.sliceLast n (Db.sliceLast n l ++ [x]) = Db.sliceLast n (l ++ [x]).
Proof.
  intros Hn. destruct (le_lt_dec (List.length l) n) as [Hle|Hgt].
  - now rewrite (sliceLast_all n l Hle).
  - unfold Db.sliceLast. rewrite !length_app, length_drop. simpl List.length.
    replace (List.length l - (List.length l - n) + 1 - n)%nat with 1%nat by lia.
    rewrite !drop_app_le by (rewrite ?length_drop; lia).
    rewrite drop_drop. f_equal. f_equal. lia.
Qed.

Lemma sliceLast_last {A} (n : nat) (l : list A) (x : A) :
  (0 < n)%nat → last (Db.sliceLast n (l ++ [x])) = Some x.
Proof.
  intros Hn. unfold Db.sliceLast. rewrite length_app. simpl List.length.
  rewrite drop_app_le by lia. apply last_snoc.
Qed.

Lemma appendJobError_job now jobId err db j :
  Db.getJob jobId db = Some j →
  Db.getJob jobId (Db.appendJobError now jobId err db) =
    Some (Db.Job (Db.job_id j) (Db.homepage_url j) (Db.status j)
            (Db.started_at j) (Db.finished_at j) (Db.total_categories j)
            (Db.processed_categories j) (Db.total_products j)
            (Db.processed_products j) (Db.errors j + 1)
            (Some (Db.sliceLast 100 (logOf j ++ [Db.ErrorEntry now err])))
            (Db.config_json j)).
Proof.
  unfold Db.getJob, Db.appendJobError, Db.withJobs, Db.getJob, logOf.
  intros H. cbn [Db.jobs]. rewrite lookup_alter_eq, H. reflexivity.
Qed.

Lemma appendJobError_other now jobId err db other :
  other ≠ jobId →
  Db.getJob other (Db.appendJobError now jobId err db) = Db.getJob other db.
Proof.
  unfold Db.getJob, Db.appendJobError, Db.withJobs. intros H. cbn [Db.jobs].
  now rewrite lookup_alter_ne.
Qed.

Lemma appendAll_job jobId calls : ∀ db j,
  Db.getJob jobId db = Some j →
  calls ≠ [] →
  ∃ j', Db.getJob jobId (appendAll jobId calls db) = Some j' ∧
        Db.errors j' = Db.errors j + Z.of_nat (List.length calls) ∧
        Db.status j' = Db.status j ∧
        Db.error_log j' =
          Some (Db.sliceLast 100 (logOf j ++ map entryOf calls)).
Proof.
  induction calls as [|c calls IH] using rev_ind; [congruence|].
  intros db j Hj _. unfold appendAll. rewrite fold_left_app. cbn [fold_left].
  fold (appendAll jobId calls db).
  destruct calls as [|c0 calls'] eqn:E.
  - cbn [appendAll fold_left]. rewrite (appendJobError_job _ _ _ _ _ Hj).
    eexists. split; [reflexivity|]. cbn. repeat split. 
  - rewrite <- E in *. destruct (IH db j Hj) as (j1 & H1 & He & Hs & Hl).
    { rewrite E. discriminate. }
    rewrite (appendJobError_job _ _ _ _ _ H1).
    eexists. split; [reflexivity|]. cbn [Db.errors Db.status Db.error_log].
    split; [rewrite He, length_app; simpl List.length; lia|].
    split; [exact Hs|].
    unfold logOf at 1. rewrite Hl. rewrite sliceLast_snoc by lia.
    rewrite map_app, app_assoc. reflexivity.
Qed.

(** Claim C8.  For every job and every sequence of error appends, after
    each [appendJobError] call the stored log holds the last 100 entries
    of everything appended so far (the oldest are dropped first), so at
    most 100; its last entry carries the timestamp and the message of that
    call; and the [errors] counter has grown by exactly one per call.  The
    status of the job is not touched. *)
Theorem appendJobError_bounded_log :
  ∀ (jobId : string) (db : Db.t) (j : Db.job)
    (calls : list (string * string)) (now err : string),
    Db.getJob jobId db = Some j →
    ∃ j' log',
      Db.getJob jobId (appendAll jobId (calls ++ [(now, err)]) db) = Some j' ∧
      Db.error_log j' = Some log' ∧
      log' = Db.sliceLast 100 (logOf j ++ map entryOf calls ++
                                 [Db.ErrorEntry now err]) ∧
      (List.length log' <= 100)%nat ∧
      last log' = Some (Db.ErrorEntry now err) ∧
      Db.errors j' = Db.errors j + Z.of_nat (List.length calls) + 1 ∧
      Db.status j' = Db.status j.
Proof.
  intros jobId db j calls now err Hj.
  destruct (appendAll_job jobId (calls ++ [(now, err)]) db j Hj)
    as (j' & H1 & He & Hs & Hl).
  { destruct calls; discriminate. }
  exists j', (Db.sliceLast 100 (logOf j ++ map entryOf calls ++
                                 [Db.ErrorEntry now err])).
  rewrite map_app in Hl. cbn [map entryOf fst snd] in Hl.
  split; [exact H1|]. split; [exact Hl|]. split; [reflexivity|].
  split; [rewrite sliceLast_length; lia|].
  split; [rewrite app_assoc; apply sliceLast_last; lia|].
  split; [rewrite He, length_app; simpl List.length; lia|exact Hs].
Qed.

Lemma appendJobError_bounded_log_witness :
  ∃ j' log',
    Db.getJob "job-1"
      (appendAll "job-1"
         ([("2024-05-01T10:00:00.000Z", "page 1: timeout")] ++
          [("2024-05-01T10:00:05.000Z", "page 2: timeout")]) Shop.db)
      = Some j' ∧
    Db.error_log j' = Some log' ∧
    log' = Db.sliceLast 100
             (logOf Shop.job ++
              map entryOf [("2024-05-01T10:00:00.000Z", "page 1: timeout")] ++
              [Db.ErrorEntry "2024-05-01T10:00:05.000Z" "page 2: timeout"]) ∧
    (List.length log' <= 100)%nat ∧
    last log' =
      Some (Db.ErrorEntry "2024-05-01T10:00:05.000Z" "page 2: timeout") ∧
    Db.errors j' = Db.errors Shop.job + Z.of_nat 1 + 1 ∧
    Db.status j' = Db.status Shop.job.
Proof.
  apply (appendJobError_bounded_log "job-1" Shop.db Shop.job
           [("2024-05-01T10:00:00.000Z", "page 1: timeout")]
           "2024-05-01T10:00:05.000Z" "page 2: timeout").
  vm_compute. reflexivity.
Defined.

End ErrorLog.


Section IdentityFacts.










End IdentityFacts.


Section Collision.

Lemma stripNonAlnum_noAlnum sku :
  noAlnum sku = true → Identity.stripNonAlnum sku = "".
Proof.
  unfold noAlnum, Identity.stripNonAlnum. intros H.
  replace (filter _ (Js.chars sku)) with (@nil ascii); [reflexivity|].
  symmetry. induction (Js.chars sku) as [|c l IH]; [reflexivity|].
  cbn [forallb] in H. apply andb_true_iff in H as [Hc Hl].
  rewrite filter_cons. destruct (decide _) as [Hd|Hd].
  - apply Is_true_eq_true in Hd. rewrite Hd in Hc. discriminate.
  - now apply IH.
Qed.

Lemma upsertProduct_stores now p db db1 :
  Db.upsertProduct now p db = Ok db1 →
  ∃ row, Db.getProduct (Db.product_id p) db1 = Some row ∧
         Db.name row = Db.orNull (Db.name p).
Proof.
  unfold Db.upsertProduct, Db.getProduct. intros H.
  destruct (Db.products db !! Db.product_id p) as [old|].
  - injection H as <-. cbn [Db.products]. rewrite lookup_insert_eq. eauto.
  - destruct (Db.urlTaken _ _); [discriminate|].
    injection H as <-. cbn [Db.products]. rewrite lookup_insert_eq. eauto.
Qed.

Lemma upsertProduct_conflict now p db old :
  Db.getProduct (Db.product_id p) db = Some old →
  ∃ db2 row,
    Db.upsertProduct now p db = Ok db2 ∧
    Db.getProduct (Db.product_id p) db2 = Some row ∧
    dom (Db.products db2) = dom (Db.products db) ∧
    Db.url row = Db.url old ∧
    Db.name row = Db.orNull (Db.name p).
Proof.
  unfold Db.upsertProduct, Db.getProduct. intros H. rewrite H.
  eexists _, _. split; [reflexivity|]. cbn [Db.products].
  rewrite lookup_insert_eq. split; [reflexivity|].
  split; [|split; reflexivity].
  rewrite dom_insert_L. apply subseteq_union_1_L, singleton_subseteq_l.
  now apply elem_of_dom_2 in H.
Qed.

(** Claim C10.  [generateProductId] treats the empty SKU as absent and
    falls back to the hash of the URL, but a non-empty SKU without any
    alphanumeric character gets the empty string as identity, whatever the
    URL.  Two products with such SKUs therefore collide under
    [upsertProduct]: the second upsert finds the row stored under the
    empty identity by the first and overwrites it, adding no row and
    keeping the URL of the first. *)
Theorem generateProductId_empty_identity_collision :
  ∀ (url1 url2 : string) (c1 c2 : ascii) (s1 s2 : string)
    (p1 p2 : Db.product) (now1 now2 : string) (db db1 : Db.t),
    noAlnum (String c1 s1) = true →
    noAlnum (String c2 s2) = true →
    Db.product_id p1 = Identity.generateProductId url1 (Some (String c1 s1)) →
    Db.product_id p2 = Identity.generateProductId url2 (Some (String c2 s2)) →
    Db.upsertProduct now1 p1 db = Ok db1 →
    Identity.generateProductId url1 (Some "") =
      Identity.generateProductId url1 None ∧
    Identity.generateProductId url1 (Some (String c1 s1)) = "" ∧
    Identity.generateProductId url2 (Some (String c2 s2)) = "" ∧
    ∃ db2 row1 row2,
      Db.upsertProduct now2 p2 db1 = Ok db2 ∧
      Db.getProduct "" db1 = Some row1 ∧
      Db.getProduct "" db2 = Some row2 ∧
      dom (Db.products db2) = dom (Db.products db1) ∧
      Db.url row2 = Db.url row1 ∧
      Db.name row2 = Db.orNull (Db.name p2).
Proof.
  intros url1 url2 c1 c2 s1 s2 p1 p2 now1 now2 db db1 Hn1 Hn2 Hp1 Hp2 Hup.
  assert (Hid : ∀ u c s, noAlnum (String c s) = true →
            Identity.generateProductId u (Some (String c s)) = "").
  { intros u c s Hn. unfold Identity.generateProductId. cbn [Js.truthy].
    now rewrite (stripNonAlnum_noAlnum _ Hn). }
  rewrite (Hid _ _ _ Hn1) in *. rewrite (Hid _ _ _ Hn2) in *.
  split; [reflexivity|]. split; [reflexivity|]. split; [reflexivity|].
  destruct (upsertProduct_stores _ _ _ _ Hup) as (row1 & Hrow1 & _).
  rewrite Hp1 in Hrow1.
  destruct (upsertProduct_conflict now2 p2 db1 row1) as (db2 & row2 & H).
  { now rewrite Hp2. }
  rewrite Hp2 in H. exists db2, row1, row2. tauto.
Qed.

Lemma generateProductId_empty_identity_collision_witness :
  Identity.generateProductId "https://shop.example/p/1" (Some "--") = "" ∧
  ∃ db2 row1 row2,
    Db.upsertProduct "t2" (sampleProduct "" "https://shop.example/p/2" "Tea")
      (Db.Database ∅ {[ "" := Db.Product "" "https://shop.example/p/1"
          (Some "Milk") None None None None None None None None None None None
          (Some "t1") None None None ]} []) = Ok db2 ∧
    Db.getProduct "" (Db.Database ∅ {[ "" := Db.Product "" "https://shop.example/p/1"
          (Some "Milk") None None None None None None None None None None None
          (Some "t1") None None None ]} []) = Some row1 ∧
    Db.getProduct "" db2 = Some row2 ∧ Db.url row2 = Db.url row1.
Proof.
  destruct (generateProductId_empty_identity_collision
    "https://shop.example/p/1" "https://shop.example/p/2"
    "-"%char "#"%char "-" ""
    (sampleProduct "" "https://shop.example/p/1" "Milk")
    (sampleProduct "" "https://shop.example/p/2" "Tea")
    "t1" "t2" Db.empty
    (Db.Database ∅ {[ "" := Db.Product "" "https://shop.example/p/1"
          (Some "Milk") None None None None None None None None None None None
          (Some "t1") None None None ]} []))
    as (_ & H1 & _ & db2 & row1 & row2 & Hu & Hr1 & Hr2 & _ & Hurl & _);
    try reflexivity.
  split; [exact H1|]. exists db2, row1, row2. tauto.
Defined.
End Collision.

(** ** Regular expressions: repetitions of a character class *)

Section RegexFacts.
Import Regex.

Lemma leading_run f s n :
  (n <= leading f s)%nat ↔
  ∃ ds post, s = ds ++ post ∧ List.length ds = n ∧
              Forall (fun c => f c = true) ds.
Proof.
  revert n. induction s as [|a s IH]; intros n; cbn [leading].
  - split.
    + intros H. exists [], []. assert (n = 0%nat) as -> by lia. 
      repeat split; constructor.
    + intros (ds & post & E & L & _). symmetry in E.
      apply app_eq_nil in E as [-> _]. simpl in L. lia.
  - destruct (f a) eqn:Fa.
    + destruct n as [|n]; [split; [|lia]; intros _; exists [], (a :: s);
        repeat split; constructor|].
      rewrite <- Nat.succ_le_mono, IH. split.
      * intros (ds & post & -> & L & Hr). exists (a :: ds), post.
        repeat split; [simpl; lia|now constructor].
      * intros (ds & post & E & L & Hr). destruct ds as [|b ds]; [discriminate|].
        injection E as <- ->. apply Forall_cons in Hr as [_ Hr].
        exists ds, post. repeat split; [simpl in L; lia|exact Hr].
    + split.
      * intros H. assert (n = 0%nat) as -> by lia. exists [], (a :: s).
        repeat split; constructor.
      * intros (ds & post & E & L & Hr). destruct ds as [|b ds]; [simpl in L; lia|].
        injection E as <- ->. apply Forall_cons in Hr as [Hb _]. congruence.
Qed.


Lemma search_accepts r : ∀ pr s,
  is_Some (search r pr s) ↔
  ∃ k, (k <= List.length s)%nat ∧
       is_Some (run r accept
                  (Pos (match k with O => pr | S k' => s !! k' end) (drop k s))
                  []).
Proof.
  intros pr s. revert pr. induction s as [|a s IH]; intros pr; cbn [search].
  - fold accept. destruct (run r accept (Pos pr []) []) as [[p' c']|] eqn:E.
    + split; [intros _|intros _; eexists; reflexivity].
      exists 0%nat. cbn. rewrite E. split; [lia|eexists; reflexivity].
    + split; [intros [? ?]; discriminate|].
      intros (k & Hk & Hs). cbn in Hk. assert (k = 0%nat) as -> by lia.
      cbn in Hs. rewrite E in Hs. destruct Hs; discriminate.
  - fold accept. destruct (run r accept (Pos pr (a :: s)) []) as [[p' c']|] eqn:E.
    + split; [intros _|intros _; eexists; reflexivity].
      exists 0%nat. cbn [drop]. rewrite E. split; [lia|eexists; reflexivity].
    + rewrite IH. split.
      * intros (k & Hk & Hs). exists (S k). split; [simpl; lia|].
        cbn [drop]. destruct k as [|k']; cbn [lookup list_lookup]; exact Hs.
      * intros (k & Hk & Hs). destruct k as [|k].
        -- cbn [drop] in Hs. rewrite E in Hs. destruct Hs; discriminate.
        -- exists k. split; [simpl in Hk; lia|].
           cbn [drop] in Hs. destruct k as [|k']; cbn [lookup list_lookup] in Hs; exact Hs.
Qed.


End RegexFacts.

(** ** Regular expressions: standalone digit runs *)

Section StandaloneRuns.
Import Regex.

(** A repetition of exactly [n] characters of a class reads [n] such
    characters and goes on, or fails. *)
Lemma repLoop_chr_exact f n k : ∀ m cnt p c,
  (cnt <= n)%nat → (n - cnt <= m)%nat →
  repLoop (run (Chr f)) n (Some n) true k m cnt p c =
    if (n - cnt <=? leading f (rest p))%nat
    then k (advance (n - cnt) p) c else None.
Proof.
  induction m as [|m IH]; intros cnt p c Hc Hm.
  - assert (cnt = n) as -> by lia. cbn [repLoop].
    rewrite Nat.leb_refl, Nat.sub_diag. reflexivity.
  - destruct (decide (cnt = n)) as [->|Hne].
    + cbn [repLoop below]. rewrite Nat.leb_refl, Nat.ltb_irrefl, Nat.sub_diag.
      reflexivity.
    + cbn [repLoop below].
      assert (Hlt : (n <=? cnt)%nat = false) by (apply Nat.leb_gt; lia).
      assert (Hb : (cnt <? n)%nat = true) by (apply Nat.ltb_lt; lia).
      rewrite Hlt, Hb. cbn [andb run].
      replace (n - cnt)%nat with (S (n - S cnt)) by lia.
      destruct p as [pr [|a s]]; cbn [rest leading orElse]; [reflexivity|].
      destruct (f a); cbn [orElse]; [|reflexivity].
      rewrite IH by lia. cbn [rest].
      change (S (n - S cnt) <=? S (leading f s))%nat
        with (n - S cnt <=? leading f s)%nat.
      destruct (n - S cnt <=? leading f s)%nat; [|reflexivity].
      cbn [orElse]. 
      assert (Hadv : advance (n - S cnt) (Pos (Some a) s)
                     = advance (S (n - S cnt)) (Pos pr (a :: s))).
      { destruct (n - S cnt)%nat; reflexivity. }
      rewrite Hadv. now destruct (k _ c).
Qed.

Lemma leading_lookup f s n :
  (S n <= leading f s)%nat → ∃ a, s !! n = Some a ∧ f a = true.
Proof.
  revert n. induction s as [|b s IH]; intros n; cbn [leading]; [lia|].
  destruct (f b) eqn:Fb; [|lia]. destruct n as [|n].
  - intros _. exists b. split; [reflexivity|exact Fb].
  - intros H. apply IH. lia.
Qed.

Lemma leading_length f s : (leading f s <= List.length s)%nat.
Proof.
  induction s as [|b s IH]; cbn [leading List.length]; [lia|].
  destruct (f b); lia.
Qed.

Lemma isDigit_isWord a : Js.isDigit a = true → Js.isWord a = true.
Proof.
  intros H. unfold Js.isWord, Js.isAlnum. rewrite H.
  now rewrite !orb_true_r.
Qed.

(** What [/\b(\d{n})\b/] matches at one position. *)
Lemma run_standaloneRun n pr s :
  (0 < n)%nat →
  run (Ocr.standaloneRun n) accept (Pos pr s) [] =
    if standaloneHere n pr s
    then Some (advance n (Pos pr s), [(1%nat, take n s)])
    else None.
Proof.
  intros Hn. unfold Ocr.standaloneRun, times, digit, standaloneHere.
  cbn [seqs run prev rest].
  rewrite (repLoop_chr_exact Js.isDigit n _ _ 0 (Pos pr s) []) by lia.
  rewrite Nat.sub_0_r. cbn [rest].
  destruct (n <=? leading Js.isDigit s)%nat eqn:El.
  - apply Nat.leb_le in El. destruct n as [|n]; [lia|].
    destruct (leading_lookup _ _ _ El) as (a & Ha & Da).
    assert (Hhead : ∃ b, head s = Some b ∧ Js.isDigit b = true).
    { destruct (leading_lookup Js.isDigit s 0 ltac:(lia)) as (b & Hb & Db).
      exists b. split; [|exact Db]. destruct s; [discriminate|].
      now injection Hb as ->. }
    destruct Hhead as (b & Hb & Db). rewrite Hb.
    cbn [isWordOpt]. rewrite (isDigit_isWord b Db), xorb_true_r.
    destruct (negb (isWordOpt pr)); cbn [andb]; [|reflexivity].
    cbn [advance prev rest]. rewrite Ha. cbn [isWordOpt].
    rewrite (isDigit_isWord a Da), xorb_true_l.
    replace (head (drop (S n) s)) with (s !! S n)
      by (clear; revert s; induction (S n) as [|m IH]; intros [|c s];
          cbn; auto).
    destruct (negb (isWordOpt (s !! S n))); [|reflexivity].
    unfold accept, between. cbn [rest]. rewrite length_drop.
    pose proof (leading_length Js.isDigit s).
    replace (List.length s - (List.length s - S n))%nat with (S n) by lia.
    reflexivity.
  - rewrite andb_false_r. cbn [andb].
    now destruct (xorb _ _).
Qed.

(** [text.match(/\b(\d{n})\b/)] finds the leftmost standalone run of [n]
    digits and captures it. *)
Lemma search_standaloneRun n : (0 < n)%nat → ∀ s pr,
  (search (Ocr.standaloneRun n) pr s ≫= group 1) =
    Js.str <$> firstStandalone n pr s.
Proof.
  intros Hn. induction s as [|a s IH]; intros pr;
    cbn [search firstStandalone]; fold accept;
    rewrite (run_standaloneRun n pr _ Hn);
    destruct (standaloneHere n pr _); try reflexivity.
  apply IH.
Qed.

Lemma exec_standaloneRun n text :
  (0 < n)%nat →
  (exec (Ocr.standaloneRun n) text ≫= group 1) = firstStandaloneIn n text.
Proof. intros Hn. apply (search_standaloneRun n Hn). Qed.

(** [extractBarcodeFromOCR] returns the leftmost standalone run of 13
    digits; failing that, of 12; failing that, of 8; failing that, of 14;
    and [null] when there is none. *)
Lemma extractBarcodeFromOCR_priority text :
  Ocr.extractBarcodeFromOCR text =
    match firstStandaloneIn 13 text with
    | Some b => Some b
    | None =>
        match firstStandaloneIn 12 text with
        | Some b => Some b
        | None =>
            match firstStandaloneIn 8 text with
            | Some b => Some b
            | None => firstStandaloneIn 14 text
            end
        end
    end.
Proof.
  unfold Ocr.extractBarcodeFromOCR, Ocr.barcodeLengths.
  cbn [map Ocr.firstMatch].
  rewrite <- !exec_standaloneRun by lia.
  assert (Hg : ∀ n m, (0 < n)%nat →
            exec (Ocr.standaloneRun n) text = Some m → is_Some (group 1 m)).
  { intros n m Hn Hm. pose proof (exec_standaloneRun n text Hn) as He.
    rewrite Hm in He. cbn in He. unfold firstStandaloneIn in He.
    destruct (firstStandalone n None (Js.chars text)); [|
      revert Hm; unfold exec; clear -Hn;
      generalize (@None ascii); induction (Js.chars text) as [|a s IH];
      intros pr; cbn [search]; fold accept;
      rewrite (run_standaloneRun n pr _ Hn)].
    - rewrite He. eexists; reflexivity.
    - destruct (standaloneHere n pr []); [|discriminate].
      intros [= <-]. eexists; reflexivity.
    - destruct (standaloneHere n pr (a :: s)); [|apply IH].
      intros [= <-]. eexists; reflexivity. }
  destruct (exec (Ocr.standaloneRun 13) text) as [m13|] eqn:E13; cbn [orElse mbind option_bind].
  { destruct (Hg 13%nat m13 ltac:(lia) E13) as [b Hb]. now rewrite Hb. }
  destruct (exec (Ocr.standaloneRun 12) text) as [m12|] eqn:E12; cbn [orElse mbind option_bind].
  { destruct (Hg 12%nat m12 ltac:(lia) E12) as [b Hb]. now rewrite Hb. }
  destruct (exec (Ocr.standaloneRun 8) text) as [m8|] eqn:E8; cbn [orElse mbind option_bind].
  { destruct (Hg 8%nat m8 ltac:(lia) E8) as [b Hb]. now rewrite Hb. }
  destruct (exec (Ocr.standaloneRun 14) text) as [m14|] eqn:E14; reflexivity.
Qed.

End StandaloneRuns.

(** ** Content classification *)

Section Classification.

Lemma chars_toLowerCase s :
  Js.chars (Js.toLowerCase s) = map Js.lowerChar (Js.chars s).
Proof. unfold Js.toLowerCase. apply chars_str. Qed.








End Classification.

(** ** The image pipeline *)

Section PipelineFacts.

(** The update [{ ...ocrFields, ...fields }] keeps the later value. *)
Lemma spread_later_wins (ocrFields fields : gmap string Db.fieldValue) k v :
  fields !! k = Some v → (fields ∪ ocrFields) !! k = Some v.
Proof. intros H. now apply lookup_union_Some_l. Qed.

(** The merge of the OCR module keeps the earlier value, unless it is
    falsy. *)
Lemma mergeFields_first_wins (parsed fields : gmap string Db.fieldValue) k v :
  parsed !! k = Some v → Ocr.truthyField v = true →
  Ocr.mergeFields parsed fields !! k = Some v.
Proof.
  intros H Ht. unfold Ocr.mergeFields. rewrite lookup_union_with, H.
  destruct (fields !! k); cbn; [now rewrite Ht|reflexivity].
Qed.

(** Claim C1 does not hold of the crawler.  For a product with two images
    whose OCR texts yield the net weights [100g] and [200g], in that
    order, [SupermarketCrawler.processProductImages] stores [200g], the
    value of the later image, whether or not a barcode is decoded from the
    images; the merge of the OCR module's own [processProductImages] keeps
    [100g], the value seen first, on the same texts. *)
Theorem processProductImages_field_map_later_image_wins :
  Ocr.parseOCRFields Labels.text1 !! "net_weight" = Some (Db.FStr "100g") ∧
  Ocr.parseOCRFields Labels.text2 !! "net_weight" = Some (Db.FStr "200g") ∧
  (∃ db' st',
     Pipeline.processProductImages Labels.noBarcode Labels.config "MILK1"
       [Labels.image1; Labels.image2] Labels.db Labels.stats = Ok (db', st') ∧
     Labels.netWeight db' = Some (Db.FStr "200g")) ∧
  (∃ db' st',
     Pipeline.processProductImages Labels.withBarcode Labels.config "MILK1"
       [Labels.image1; Labels.image2] Labels.db Labels.stats = Ok (db', st') ∧
     Labels.netWeight db' = Some (Db.FStr "200g")) ∧
  Ocr.parsed_fields (Ocr.processProductImages [Labels.text1; Labels.text2])
    !! "net_weight" = Some (Db.FStr "100g").
Proof.
  split; [vm_compute; reflexivity|]. split; [vm_compute; reflexivity|].
  split; [eexists _, _; split; [vm_compute; reflexivity|vm_compute; reflexivity]|].
  split; [eexists _, _; split; [vm_compute; reflexivity|vm_compute; reflexivity]|].
  vm_compute. reflexivity.
Qed.

(** The name [extractBarcodeFromOCR] is not among the exports of the
    barcode module: the crawler's binding is [undefined]. *)
Lemma extractBarcodeFromOCR_unbound :
  Pipeline.extractBarcodeFromOCR = None ∧
  Pipeline.lookupExport "extractBarcodeFromOCR" Pipeline.ocrExports =
    Some (Pipeline.FnText Ocr.extractBarcodeFromOCR).
Proof. split; reflexivity. Qed.

(** Whenever no barcode is decoded from a fetched image and the OCR text is
    not empty, the iteration throws and no image row is written. *)
Lemma tryImage_throws_without_barcode w cfg productId i imageUrl a buf :
  Pipeline.w_fetch w imageUrl = Pipeline.FetchOk buf →
  (if Pipeline.enableBarcode cfg then Pipeline.detectBarcode w buf else None)
    = None →
  Pipeline.enableOCR cfg = true →
  Js.truthy (Pipeline.extractText w buf).1 = true →
  (Pipeline.tryImage w cfg productId i imageUrl a).1 =
    Throw "extractBarcodeFromOCR is not a function" ∧
  Db.images (Pipeline.a_db (Pipeline.tryImage w cfg productId i imageUrl a).2)
    = Db.images (Pipeline.a_db a).
Proof.
  intros Hf Hb Ho Ht. unfold Pipeline.tryImage. rewrite Hf, Hb, Ho.
  destruct (Pipeline.extractText w buf) as [t q]. cbn [fst] in Ht.
  rewrite Ht. cbn. split; reflexivity.
Qed.

(** The confidence of a barcode read from OCR text is below that of a
    decoded one. *)
Lemma ocrBarcodeConfidence_lower :
  (Pipeline.ocrBarcodeConfidence < Pipeline.decodeConfidence)%Q.
Proof. reflexivity. Qed.

(** Claim C5 does not hold of the crawler.  For an image from which no
    barcode is decoded and whose OCR text shows the standalone 13-digit run
    [4006381333931], the function [extractBarcodeFromOCR] of the OCR module
    finds that run, but the crawler's call of [extractBarcodeFromOCR]
    throws, because the module it imports the name from does not export
    it: the iteration ends in the [catch], no image row is written and no
    barcode is recorded with any confidence. *)
Theorem ocr_barcode_recovery_throws :
  Pipeline.detectBarcode PrintedCode.world PrintedCode.image = None ∧
  Ocr.extractBarcodeFromOCR PrintedCode.text = Some "4006381333931" ∧
  (Pipeline.tryImage PrintedCode.world Labels.config "TEA1" 0
     PrintedCode.image PrintedCode.start).1 =
    Throw "extractBarcodeFromOCR is not a function" ∧
  Db.images (Pipeline.a_db
    (Pipeline.imageStep PrintedCode.world Labels.config "TEA1"
       PrintedCode.start (0%nat, PrintedCode.image))) = [] ∧
  (∃ db' st',
     Pipeline.processProductImages PrintedCode.world Labels.config "TEA1"
       [PrintedCode.image] Db.empty Labels.stats = Ok (db', st') ∧
     Db.images db' = [] ∧ Pipeline.images st' = 0).
Proof.
  split; [reflexivity|]. split; [vm_compute; reflexivity|].
  split; [vm_compute; reflexivity|]. split; [vm_compute; reflexivity|].
  eexists _, _. split; [vm_compute; reflexivity|]. split; reflexivity.
Qed.

End PipelineFacts.

(** ** Fusion of the data sources *)

Section FusionFacts.
Import Fusion Merge.





End FusionFacts.

(** ** Category traversal *)

Section TraversalFacts.
Import Traversal.

Variable w : world.











End TraversalFacts.








(** ** Failure containment in the job loop *)

Section Containment.
Import Traversal.

Variable w : world.


Lemma rowView_setCounter_products v j :
  rowView (Db.setCounter Db.ProcessedProducts v j) = rowView j.
Proof. reflexivity. Qed.











End Containment.

Section ContainmentTheorem.
Import Traversal.






End ContainmentTheorem.

(* ===================================================================== *)
(** ** The barcode module beyond the check digit of one code *)
(* ===================================================================== *)

Section CheckDigit.

Lemma ean13_weighted_sum_snoc ds : ∀ pos d,
  Barcode.ean13_weighted_sum pos (ds ++ [d]) =
    Barcode.ean13_weighted_sum pos ds +
    (if Nat.odd (pos + List.length ds) then d else 3 * d).
Proof.
  induction ds as [|x ds IH]; intros pos d; simpl.
  - rewrite Nat.add_0_r. lia.
  - rewrite IH. replace (S pos + List.length ds)%nat
      with (pos + S (List.length ds))%nat by lia. lia.
Qed.

Lemma length_digitValues s :
  List.length (Barcode.digitValues s) = Js.length s.
Proof. unfold Barcode.digitValues, Js.length. by rewrite length_map. Qed.

Lemma ean13_step_NaN l i : Barcode.ean13_step l Js.NaN i = Js.NaN.
Proof. reflexivity. Qed.



(** X1. For every string of twelve decimal digits the function returns a
    digit between 0 and 9, and it is the one digit that, appended as the
    thirteenth, makes the weighted sum of the code (weights 1 and 3,
    alternating from the left) a multiple of ten. *)
Theorem calculateEAN13CheckDigit_completes_code :
  ∀ digits : string,
    Js.length digits = 12%nat →
    Forall (fun c => Js.isDigit c = true) (Js.chars digits) →
    ∃ d : Z,
      Barcode.calculateEAN13CheckDigit digits = Js.Int d ∧
      0 <= d <= 9 ∧
      Barcode.ean13_weighted_sum 1 (Barcode.digitValues digits ++ [d])
        mod 10 = 0 ∧
      ∀ d' : Z, 0 <= d' <= 9 →
        Barcode.ean13_weighted_sum 1 (Barcode.digitValues digits ++ [d'])
          mod 10 = 0 →
        d' = d.
Proof.
  intros digits Hlen Hdig.
  destruct (calculateEAN13CheckDigit_standard digits Hlen Hdig) as [Heq Hr].
  exists (Barcode.ean13_standard (Barcode.digitValues digits)).
  split; [exact Heq|]. split; [exact Hr|].
  assert (Hs : ∀ x, Barcode.ean13_weighted_sum 1
                      (Barcode.digitValues digits ++ [x]) =
                    Barcode.ean13_weighted_sum 1 (Barcode.digitValues digits)
                    + x).
  { intros x. rewrite ean13_weighted_sum_snoc, length_digitValues, Hlen.
    reflexivity. }
  unfold Barcode.ean13_standard in *.
  set (S := Barcode.ean13_weighted_sum 1 (Barcode.digitValues digits)) in *.
  split.
  - rewrite Hs.
    pose proof (Z.mod_pos_bound S 10 ltac:(lia)) as Hb.
    pose proof (Z.div_mod S 10 ltac:(lia)) as Hd.
    destruct (Z.eq_dec (S mod 10) 0) as [Hz|Hz].
    + rewrite Hz. change ((10 - 0) mod 10) with 0. rewrite Z.add_0_r. exact Hz.
    + rewrite (Z.mod_small (10 - S mod 10) 10) by lia.
      replace (S + (10 - S mod 10)) with ((S / 10 + 1) * 10) by lia.
      apply Z_mod_mult.
  - intros d' Hd' Hm. rewrite Hs in Hm.
    pose proof (Z.mod_pos_bound S 10 ltac:(lia)) as Hb.
    pose proof (Z.div_mod S 10 ltac:(lia)) as Hd.
    pose proof (Z.div_mod (S + d') 10 ltac:(lia)) as Hd2.
    rewrite Hm in Hd2.
    destruct (Z.eq_dec (S mod 10) 0) as [Hz|Hz].
    + rewrite Hz. change ((10 - 0) mod 10) with 0. lia.
    + rewrite (Z.mod_small (10 - S mod 10) 10) by lia. lia.
Qed.

Lemma calculateEAN13CheckDigit_completes_code_witness :
  ∃ d : Z,
    Barcode.calculateEAN13CheckDigit "978030640615" = Js.Int d ∧
    0 <= d <= 9 ∧
    Barcode.ean13_weighted_sum 1 (Barcode.digitValues "978030640615" ++ [d])
      mod 10 = 0 ∧
    ∀ d' : Z, 0 <= d' <= 9 →
      Barcode.ean13_weighted_sum 1 (Barcode.digitValues "978030640615" ++ [d'])
        mod 10 = 0 →
      d' = d.
Proof.
  apply (calculateEAN13CheckDigit_completes_code "978030640615").
  - reflexivity.
  - repeat constructor.
Defined.


End CheckDigit.

Section Validation.
Import Regex.

Lemma leading_all f s :
  leading f s = List.length s ↔ Forall (fun c => f c = true) s.
Proof.
  induction s as [|a s IH]; simpl.
  - split; [constructor|done].
  - destruct (f a) eqn:Ha.
    + split.
      * intros [= H]. constructor; [done|by apply IH].
      * intros H. inversion H; subst. f_equal. by apply IH.
    + split; [done|]. intros H. inversion H; subst. congruence.
Qed.

Lemma forallb_Forall_true {A} (f : A → bool) l :
  forallb f l = true ↔ Forall (fun c => f c = true) l.
Proof.
  rewrite forallb_forall, Forall_forall.
  split; intros H x Hx; apply H; by apply list_elem_of_In.
Qed.

Lemma chars_append a b : Js.chars (a +:+ b) = Js.chars a ++ Js.chars b.
Proof.
  unfold Js.chars. induction a as [|x a IH]; simpl; [done|]. by rewrite IH.
Qed.

Lemma truthy_length v : Js.truthy v = true ↔ (0 < Js.length v)%nat.
Proof.
  unfold Js.length, Js.chars. destruct v; simpl; split; intros; try done; lia.
Qed.

Lemma testWhole_times f n v :
  (0 < n)%nat →
  Tools.testWhole (times n (Chr f)) v =
    (Js.length v =? n)%nat && forallb f (Js.chars v).
Proof.
  intros Hn. apply eq_true_iff_eq.
  unfold Tools.testWhole, times. simpl run.
  change (fun p c => Some (p, c)) with accept.
  rewrite (repLoop_chr_exact f n (run Eos accept)) by (simpl; lia).
  rewrite Nat.sub_0_r. simpl rest.
  rewrite andb_true_iff, Nat.eqb_eq, forallb_Forall_true, <- leading_all.
  pose proof (leading_length f (Js.chars v)) as Hl.
  unfold Js.length.
  destruct (n <=? leading f (Js.chars v))%nat eqn:Hle.
  - apply Nat.leb_le in Hle.
    destruct n as [|j]; [lia|]. unfold advance. simpl run.
    destruct (drop (S j) (Js.chars v)) as [|x r] eqn:Hd.
    + apply (f_equal List.length) in Hd. rewrite length_drop in Hd.
      simpl in Hd. split; [|done]. intros _. lia.
    + apply (f_equal List.length) in Hd. rewrite length_drop in Hd.
      simpl in Hd. split; [done|]. intros [? ?]. lia.
  - apply Nat.leb_gt in Hle. split; [done|]. intros [? ?]. lia.
Qed.

Lemma repLoop_plus_eos f : ∀ s n cnt pr c,
  (List.length s <= n)%nat →
  is_Some (repLoop (run (Chr f)) 1 None true (run Eos accept) n cnt
             (Pos pr s) c) ↔
  Forall (fun a => f a = true) s ∧ (1 <= cnt + List.length s)%nat.
Proof.
  induction s as [|a s IH]; intros n cnt pr c Hn.
  - assert (repLoop (run (Chr f)) 1 None true (run Eos accept) n cnt
              (Pos pr []) c =
            if (1 <=? cnt)%nat then Some (Pos pr [], c) else None) as ->.
    { destruct n, cnt; reflexivity. }
    simpl List.length. rewrite Nat.add_0_r.
    destruct (1 <=? cnt)%nat eqn:Hc.
    + apply Nat.leb_le in Hc. split; [|by eauto]. intros _. split; [constructor|done].
    + apply Nat.leb_gt in Hc. split; [by intros [? ?]|]. intros [_ ?]. lia.
  - destruct n as [|n]; [simpl in Hn; lia|].
    assert (repLoop (run (Chr f)) 1 None true (run Eos accept) (S n) cnt
              (Pos pr (a :: s)) c =
            if f a
            then repLoop (run (Chr f)) 1 None true (run Eos accept) n (S cnt)
                   (Pos (Some a) s) c
            else None) as ->.
    { assert ((List.length s =? S (List.length s))%nat = false) as Hneq
        by (apply Nat.eqb_neq; lia).
      destruct cnt; simpl; destruct (f a); simpl;
        rewrite ?Hneq, ?andb_false_r; try done;
        by destruct (repLoop _ _ _ _ _ _ _ _ _). }
    destruct (f a) eqn:Ha.
    + rewrite IH by (simpl in Hn; lia). simpl. split.
      * intros [? ?]. split; [by constructor|lia].
      * intros [H ?]. inversion H; subst. split; [done|lia].
    + split; [by intros [? ?]|]. intros [H _]. inversion H; subst. congruence.
Qed.

Lemma testWhole_plus f v :
  Tools.testWhole (plus (Chr f)) v = Js.truthy v && forallb f (Js.chars v).
Proof.
  apply eq_true_iff_eq.
  unfold Tools.testWhole, plus.
  change (fun p c => Some (p, c)) with accept.
  change (run (Seq (Rep 1 None true (Chr f)) Eos) accept
            (Pos None (Js.chars v)) [])
    with (repLoop (run (Chr f)) 1 None true (run Eos accept)
            (1 + List.length (Js.chars v)) 0 (Pos None (Js.chars v)) []).
  pose proof (repLoop_plus_eos f (Js.chars v)
                (1 + List.length (Js.chars v)) 0 None [] ltac:(lia)) as H.
  rewrite andb_true_iff, forallb_Forall_true, truthy_length.
  unfold Js.length.
  destruct (repLoop (run (Chr f)) 1 None true (run Eos accept)
              (1 + List.length (Js.chars v)) 0 (Pos None (Js.chars v)) [])
    as [[??]|].
  - split; [|done]. intros _. destruct H as [H _].
    destruct (H ltac:(eauto)) as [? ?]. split; [lia|done].
  - split; [done|]. intros [? ?]. destruct H as [_ H].
    destruct H as [? H]; [split; [done|lia]|discriminate].
Qed.

Lemma validateBarcode_digits format n value :
  (0 < n)%nat →
  List.find (fun e => String.eqb e.1 format) Tools.patterns =
    Some (format, times n digit) →
  Tools.validateBarcode value format = Ok (allDigits n value).
Proof.
  intros Hn Hf. unfold Tools.validateBarcode, allDigits. rewrite Hf.
  destruct (Js.truthy value) eqn:Ht; simpl.
  - unfold digit. by rewrite testWhole_times.
  - destruct value; [|discriminate]. destruct n; [lia|done].
Qed.

(** X3. For the four numeric symbologies a value is valid exactly when it
    consists of the right number of decimal digits: 13 for EAN-13, 12 for
    UPC-A, 8 for EAN-8 and UPC-E.  Nothing else is looked at. *)
Theorem validateBarcode_numeric_formats :
  ∀ value : string,
    Tools.validateBarcode value "EAN-13" = Ok (allDigits 13 value) ∧
    Tools.validateBarcode value "UPC-A" = Ok (allDigits 12 value) ∧
    Tools.validateBarcode value "EAN-8" = Ok (allDigits 8 value) ∧
    Tools.validateBarcode value "UPC-E" = Ok (allDigits 8 value).
Proof.
  intros value.
  repeat split; apply validateBarcode_digits; (lia || reflexivity).
Qed.

(** X4. A Code128 value is valid exactly when it is not empty and all its
    characters are in the range 0 to 127; a Code39 value exactly when it
    is not empty and all its characters are capital letters, digits or one
    of the seven characters - . space $ / + %. *)
Theorem validateBarcode_text_formats :
  ∀ value : string,
    Tools.validateBarcode value "Code128" = Ok (allOf Tools.isAscii value) ∧
    Tools.validateBarcode value "Code39" = Ok (allOf Tools.isCode39 value).
Proof.
  intros value. unfold Tools.validateBarcode, allOf.
  destruct (Js.truthy value) eqn:Ht; simpl.
  - rewrite !testWhole_plus, Ht. done.
  - done.
Qed.

(** X5. The check digit is not verified: for every twelve decimal digits
    there is a thirteenth digit, different from the check digit computed
    by [calculateEAN13CheckDigit], with which the code is accepted as
    EAN-13. *)
Theorem validateBarcode_ignores_check_digit :
  ∀ digits : string,
    Js.length digits = 12%nat →
    Forall (fun c => Js.isDigit c = true) (Js.chars digits) →
    ∃ c : ascii,
      Js.isDigit c = true ∧
      Barcode.calculateEAN13CheckDigit digits ≠ Js.parseIntChar c ∧
      Tools.validateBarcode (digits +:+ char1 c) "EAN-13" = Ok true.
Proof.
  intros digits Hlen Hdig.
  destruct (calculateEAN13CheckDigit_standard digits Hlen Hdig) as [Heq Hr].
  set (d := Barcode.ean13_standard (Barcode.digitValues digits)) in *.
  assert (Hv : ∀ c, Js.isDigit c = true →
            Tools.validateBarcode (digits +:+ char1 c) "EAN-13" = Ok true).
  { intros c Hc.
    rewrite (validateBarcode_digits "EAN-13" 13) by (lia || reflexivity).
    f_equal. unfold allDigits, Js.length in *.
    rewrite chars_append, length_app, Hlen. simpl.
    rewrite forallb_app, andb_true_iff. split; [|by simpl; rewrite Hc].
    by apply forallb_Forall_true. }
  destruct (Z.eq_dec d 0) as [Hz|Hz].
  - exists "1"%char. split; [reflexivity|]. split; [|by apply Hv].
    rewrite Heq, Hz. discriminate.
  - exists "0"%char. split; [reflexivity|]. split; [|by apply Hv].
    rewrite Heq. intros [= E]. apply Hz. exact E.
Qed.

Lemma validateBarcode_ignores_check_digit_witness :
  ∃ c : ascii,
    Js.isDigit c = true ∧
    Barcode.calculateEAN13CheckDigit "400638133393" ≠ Js.parseIntChar c ∧
    Tools.validateBarcode ("400638133393" +:+ char1 c) "EAN-13" = Ok true.
Proof.
  apply (validateBarcode_ignores_check_digit "400638133393").
  - reflexivity.
  - repeat constructor.
Defined.

End Validation.

Section Variants.

(** X6. Preprocessing never returns an empty list and never more than
    five variants.  When the first transform throws the original image is
    the only variant; when any of the grayscale, contrast, inversion,
    metadata or threshold steps throws, the original image is the last
    variant; five variants are returned only for an image whose width is
    known and below 1000. *)
Theorem preprocessImage_never_empty :
  ∀ (s : Tools.sharp) (b : Pipeline.buffer),
    let variants := Tools.preprocessImage s b in
    (1 <= List.length variants <= 5)%nat ∧
    (Tools.grayscale s b = None → variants = [b]) ∧
    (Tools.grayscale s b = None ∨ Tools.highContrast s b = None ∨
     Tools.inverted s b = None ∨ Tools.width s b = None ∨
     Tools.threshold s b = None → last variants = Some b) ∧
    (List.length variants = 5%nat →
     ∃ n, Tools.width s b = Some (Some n) ∧ n < 1000).
Proof.
  intros s b. unfold Tools.preprocessImage.
  destruct (Tools.grayscale s b) as [g|]; cbn zeta.
  2: { repeat split; simpl; try lia; try done. }
  destruct (Tools.highContrast s b) as [h|].
  2: { repeat split; simpl; try lia; try done. }
  destruct (Tools.inverted s b) as [i|].
  2: { repeat split; simpl; try lia; try done. }
  destruct (Tools.width s b) as [[n|]|].
  3: { repeat split; simpl; try lia; try done. }
  - destruct (n <? 1000) eqn:Hn.
    + apply Z.ltb_lt in Hn.
      destruct (Tools.enlarged s b) as [e|], (Tools.threshold s b) as [t|];
        (split; [simpl; lia|]); (split; [done|]);
        (split; [intros [?|[?|[?|[?|?]]]]; done|]);
        intros Hl; try (simpl in Hl; lia); eauto.
    + destruct (Tools.threshold s b) as [t|];
        (split; [simpl; lia|]); (split; [done|]);
        (split; [intros [?|[?|[?|[?|?]]]]; done|]);
        intros Hl; simpl in Hl; lia.
  - destruct (Tools.threshold s b) as [t|];
      (split; [simpl; lia|]); (split; [done|]);
      (split; [intros [?|[?|[?|[?|?]]]]; done|]);
      intros Hl; simpl in Hl; lia.
Qed.



End Variants.

(* ===================================================================== *)
(** ** The OCR module beyond classification *)
(* ===================================================================== *)

Section DigitRuns.
Import Regex.

Lemma charBefore_cons pr a pre :
  charBefore pr (a :: pre) = charBefore (Some a) pre.
Proof.
  unfold charBefore. rewrite last_cons. by destruct (last pre).
Qed.

Lemma lookup_length_app {A} (ds post : list A) :
  (ds ++ post) !! List.length ds = head post.
Proof.
  rewrite lookup_app_r by lia. rewrite Nat.sub_diag. by destruct post.
Qed.

Lemma standaloneHere_spec n pr s :
  standaloneHere n pr s = true ↔
  isWordOpt pr = false ∧
  ∃ ds post, s = ds ++ post ∧ List.length ds = n ∧
             Forall (fun c => Js.isDigit c = true) ds ∧
             isWordOpt (head post) = false.
Proof.
  unfold standaloneHere.
  rewrite !andb_true_iff, !negb_true_iff, Nat.leb_le, leading_run. split.
  - intros [[Hp (ds & post & -> & <- & Hd)] Hn].
    rewrite lookup_length_app in Hn. split; [done|]. by exists ds, post.
  - intros [Hp (ds & post & -> & <- & Hd & Hn)].
    rewrite lookup_length_app. split; [split; [done|]|done].
    by exists ds, post.
Qed.

Lemma standaloneHere_take n pr s :
  standaloneHere n pr s = true →
  ∃ post, s = take n s ++ post ∧ List.length (take n s) = n ∧
          Forall (fun c => Js.isDigit c = true) (take n s) ∧
          isWordOpt (head post) = false.
Proof.
  intros H. apply standaloneHere_spec in H as [_ (ds & post & -> & <- & ? & ?)].
  exists post. rewrite take_app_length. done.
Qed.

Lemma firstStandalone_Some n : ∀ s pr ds,
  firstStandalone n pr s = Some ds →
  ∃ pre post, s = pre ++ ds ++ post ∧ List.length ds = n ∧
              Forall (fun c => Js.isDigit c = true) ds ∧
              isWordOpt (charBefore pr pre) = false ∧
              isWordOpt (head post) = false.
Proof.
  induction s as [|a s IH]; intros pr ds; cbn [firstStandalone].
  - destruct (standaloneHere n pr []) eqn:H; [|done].
    intros [= <-]. pose proof H as H'.
    apply standaloneHere_spec in H' as [Hp _].
    destruct (standaloneHere_take _ _ _ H) as (post & E & L & F & W).
    exists [], post. done.
  - destruct (standaloneHere n pr (a :: s)) eqn:H.
    + intros [= <-]. pose proof H as H'.
      apply standaloneHere_spec in H' as [Hp _].
      destruct (standaloneHere_take _ _ _ H) as (post & E & L & F & W).
      exists [], post. done.
    + intros Hs. destruct (IH _ _ Hs) as (pre & post & -> & L & F & B & W).
      exists (a :: pre), post. rewrite charBefore_cons. done.
Qed.

Lemma firstStandalone_None n : ∀ s pr,
  firstStandalone n pr s = None →
  ∀ pre ds post,
    s = pre ++ ds ++ post → List.length ds = n →
    Forall (fun c => Js.isDigit c = true) ds →
    isWordOpt (charBefore pr pre) = false →
    isWordOpt (head post) = false → False.
Proof.
  induction s as [|a s IH]; intros pr; cbn [firstStandalone];
    destruct (standaloneHere n pr _) eqn:H; try done;
    intros Hs pre ds post E L F B W.
  - destruct pre; [|done]. simpl in E.
    assert (standaloneHere n pr [] = true) as H'; [|congruence].
    apply standaloneHere_spec. split; [done|]. by exists ds, post.
  - destruct pre as [|x pre].
    + assert (standaloneHere n pr (a :: s) = true) as H'; [|congruence].
      apply standaloneHere_spec. split; [done|]. by exists ds, post.
    + injection E as <- ->. rewrite charBefore_cons in B.
      by eapply (IH _ Hs pre ds post).
Qed.

Lemma firstStandaloneIn_Some n text b :
  firstStandaloneIn n text = Some b → standaloneIn n text b.
Proof.
  unfold firstStandaloneIn.
  destruct (firstStandalone n None (Js.chars text)) as [ds|] eqn:H; [|done].
  intros [= <-].
  destruct (firstStandalone_Some _ _ _ _ H) as (pre & post & E & L & F & B & W).
  exists pre, post. rewrite chars_str. unfold Js.length. rewrite chars_str.
  unfold charBefore in B. split; [done|]. split; [done|]. split; [done|].
  split; [|done]. by destruct (last pre).
Qed.

Lemma firstStandaloneIn_None n text :
  firstStandaloneIn n text = None ↔ ¬ hasStandalone n text.
Proof.
  unfold firstStandaloneIn. split.
  - destruct (firstStandalone n None (Js.chars text)) eqn:H; [done|].
    intros _ (b & pre & post & E & L & F & B & W).
    eapply (firstStandalone_None _ _ _ H pre (Js.chars b) post); try done.
    unfold charBefore. by destruct (last pre).
  - intros Hn.
    destruct (firstStandalone n None (Js.chars text)) as [ds|] eqn:H; [|done].
    exfalso. apply Hn. exists (Js.str ds). apply firstStandaloneIn_Some.
    unfold firstStandaloneIn. by rewrite H.
Qed.

Lemma standaloneIn_length n text b : standaloneIn n text b → Js.length b = n.
Proof. by intros (? & ? & ? & ? & ?). Qed.

(** X8. What the barcode fallback returns is a run of 13, 12, 8 or 14
    decimal digits of the text with no letter, digit or underscore next to
    it on either side; and it returns nothing exactly when the text has no
    such run of any of these four lengths. *)
Theorem extractBarcodeFromOCR_standalone_digit_run :
  ∀ text : string,
    (∀ b, Ocr.extractBarcodeFromOCR text = Some b →
       In (Js.length b) Ocr.barcodeLengths ∧
       standaloneIn (Js.length b) text b) ∧
    (Ocr.extractBarcodeFromOCR text = None ↔
       ∀ n, In n Ocr.barcodeLengths → ¬ hasStandalone n text).
Proof.
  intros text. rewrite extractBarcodeFromOCR_priority.
  pose proof (firstStandaloneIn_Some 13 text) as S13.
  pose proof (firstStandaloneIn_Some 12 text) as S12.
  pose proof (firstStandaloneIn_Some 8 text) as S8.
  pose proof (firstStandaloneIn_Some 14 text) as S14.
  pose proof (firstStandaloneIn_None 13 text) as N13.
  pose proof (firstStandaloneIn_None 12 text) as N12.
  pose proof (firstStandaloneIn_None 8 text) as N8.
  pose proof (firstStandaloneIn_None 14 text) as N14.
  assert (Hin : ∀ n b, In n Ocr.barcodeLengths → standaloneIn n text b →
                  In (Js.length b) Ocr.barcodeLengths ∧
                  standaloneIn (Js.length b) text b).
  { intros n b Hn Hb. by rewrite (standaloneIn_length _ _ _ Hb). }
  unfold Ocr.barcodeLengths in *.
  destruct (firstStandaloneIn 13 text) as [b13|].
  { split.
    - intros b [= <-]. apply (Hin 13%nat); [simpl; tauto|by apply S13].
    - split; [done|]. intros H. exfalso. apply (H 13%nat); [simpl; tauto|].
      exists b13. by apply S13. }
  destruct (firstStandaloneIn 12 text) as [b12|].
  { split.
    - intros b [= <-]. apply (Hin 12%nat); [simpl; tauto|by apply S12].
    - split; [done|]. intros H. exfalso. apply (H 12%nat); [simpl; tauto|].
      exists b12. by apply S12. }
  destruct (firstStandaloneIn 8 text) as [b8|].
  { split.
    - intros b [= <-]. apply (Hin 8%nat); [simpl; tauto|by apply S8].
    - split; [done|]. intros H. exfalso. apply (H 8%nat); [simpl; tauto|].
      exists b8. by apply S8. }
  destruct (firstStandaloneIn 14 text) as [b14|].
  { split.
    - intros b [= <-]. apply (Hin 14%nat); [simpl; tauto|by apply S14].
    - split; [done|]. intros H. exfalso. apply (H 14%nat); [simpl; tauto|].
      exists b14. by apply S14. }
  split; [done|]. split; [|done]. intros _ n Hn.
  simpl in Hn. destruct Hn as [<-|[<-|[<-|[<-|[]]]]];
    [by apply N13|by apply N12|by apply N8|by apply N14].
Qed.

(** X9. The length decides before the position: a text with a standalone
    run of 13 digits yields 13 digits wherever its other runs are; without
    one, a run of 12 digits wins, then one of 8, and a run of 14 digits is
    returned only when the text has none of the other three lengths. *)
Theorem extractBarcodeFromOCR_length_priority :
  ∀ text : string,
    let found (n : nat) :=
      ∃ b, Ocr.extractBarcodeFromOCR text = Some b ∧ standaloneIn n text b in
    (hasStandalone 13 text → found 13%nat) ∧
    (¬ hasStandalone 13 text → hasStandalone 12 text → found 12%nat) ∧
    (¬ hasStandalone 13 text → ¬ hasStandalone 12 text →
     hasStandalone 8 text → found 8%nat) ∧
    (¬ hasStandalone 13 text → ¬ hasStandalone 12 text →
     ¬ hasStandalone 8 text → hasStandalone 14 text → found 14%nat).
Proof.
  intros text found. subst found. cbv beta.
  rewrite extractBarcodeFromOCR_priority.
  pose proof (firstStandaloneIn_Some 13 text) as S13.
  pose proof (firstStandaloneIn_Some 12 text) as S12.
  pose proof (firstStandaloneIn_Some 8 text) as S8.
  pose proof (firstStandaloneIn_Some 14 text) as S14.
  pose proof (firstStandaloneIn_None 13 text) as N13.
  pose proof (firstStandaloneIn_None 12 text) as N12.
  pose proof (firstStandaloneIn_None 8 text) as N8.
  pose proof (firstStandaloneIn_None 14 text) as N14.
  destruct (firstStandaloneIn 13 text) as [b13|].
  { split; [intros _; exists b13; split; [done|by apply S13]|].
    assert ((¬ hasStandalone 13 text) → False) as F.
    { intros H. apply N13 in H. discriminate. }
    repeat split; intros; by exfalso. }
  split; [intros H; exfalso; by apply N13|].
  destruct (firstStandaloneIn 12 text) as [b12|].
  { split; [intros _ _; exists b12; split; [done|by apply S12]|].
    assert ((¬ hasStandalone 12 text) → False) as F.
    { intros H. apply N12 in H. discriminate. }
    repeat split; intros; by exfalso; auto. }
  split; [intros _ H; exfalso; by apply N12|].
  destruct (firstStandaloneIn 8 text) as [b8|].
  { split; [intros _ _ _; exists b8; split; [done|by apply S8]|].
    assert ((¬ hasStandalone 8 text) → False) as F.
    { intros H. apply N8 in H. discriminate. }
    intros; by exfalso; auto. }
  split; [intros _ _ H; exfalso; by apply N8|].
  destruct (firstStandaloneIn 14 text) as [b14|].
  { intros _ _ _ _; exists b14; split; [done|by apply S14]. }
  intros _ _ _ H. exfalso. by apply N14.
Qed.

End DigitRuns.

Section PotentialBarcode.
Import Regex.

Lemma run_potentialBarcodePattern pr s :
  run Ocr.potentialBarcodePattern accept (Pos pr s) [] =
    orElse (run (Ocr.standaloneRun 8) accept (Pos pr s) [])
      (orElse (run (Ocr.standaloneRun 12) accept (Pos pr s) [])
         (orElse (run (Ocr.standaloneRun 13) accept (Pos pr s) [])
                 (run (Ocr.standaloneRun 14) accept (Pos pr s) []))).
Proof.
  unfold Ocr.potentialBarcodePattern, Ocr.standaloneRun.
  cbn [seqs alts run prev rest].
  destruct (xorb (isWordOpt pr) (isWordOpt (head s))); reflexivity.
Qed.

Lemma is_Some_orElse {A} (a b : option A) :
  is_Some (orElse a b) ↔ is_Some a ∨ is_Some b.
Proof.
  destruct a; simpl; split; eauto. intros [[? ?]|?]; [discriminate|done].
Qed.

Lemma search_potentialBarcodePattern : ∀ s pr,
  match search Ocr.potentialBarcodePattern pr s with
  | Some m =>
      is_Some (group 1 m) ∧
      (is_Some (firstStandalone 8 pr s) ∨ is_Some (firstStandalone 12 pr s) ∨
       is_Some (firstStandalone 13 pr s) ∨ is_Some (firstStandalone 14 pr s))
  | None =>
      firstStandalone 8 pr s = None ∧ firstStandalone 12 pr s = None ∧
      firstStandalone 13 pr s = None ∧ firstStandalone 14 pr s = None
  end.
Proof.
  assert (Hstep : ∀ pr s,
    match run Ocr.potentialBarcodePattern accept (Pos pr s) [] with
    | Some (p', c) =>
        is_Some (List.find (fun g => (g.1 =? 1)%nat) c) ∧
        (standaloneHere 8 pr s = true ∨ standaloneHere 12 pr s = true ∨
         standaloneHere 13 pr s = true ∨ standaloneHere 14 pr s = true)
    | None =>
        standaloneHere 8 pr s = false ∧ standaloneHere 12 pr s = false ∧
        standaloneHere 13 pr s = false ∧ standaloneHere 14 pr s = false
    end).
  { intros pr s. rewrite run_potentialBarcodePattern.
    rewrite !run_standaloneRun by lia.
    destruct (standaloneHere 8 pr s); [simpl; eauto|].
    destruct (standaloneHere 12 pr s); [simpl; eauto|].
    destruct (standaloneHere 13 pr s); [simpl; eauto 6|].
    destruct (standaloneHere 14 pr s); [simpl; eauto 6|].
    simpl. done. }
  induction s as [|a s IH]; intros pr; cbn [search firstStandalone];
    fold accept; specialize (Hstep pr);
    match goal with
    | |- context [run _ accept (Pos pr ?l) []] => specialize (Hstep l)
    end;
    destruct (run Ocr.potentialBarcodePattern accept _ []) as [[p' c]|].
  - unfold group. cbn [groups]. destruct Hstep as [[g Hg] Hh]; rewrite Hg.
    split; [eauto|].
    destruct Hh as [-> | [-> | [-> | ->]]]; eauto 6.
  - destruct Hstep as (-> & -> & -> & ->). done.
  - unfold group. cbn [groups]. destruct Hstep as [[g Hg] Hh]; rewrite Hg.
    split; [eauto|].
    destruct Hh as [-> | [-> | [-> | ->]]]; eauto 6.
  - destruct Hstep as (-> & -> & -> & ->). apply IH.
Qed.

Lemma setField_other k k' v (f : gmap string Db.fieldValue) :
  k ≠ k' → Ocr.setField k v f !! k' = f !! k'.
Proof.
  intros Hne. unfold Ocr.setField. destruct v; [|done].
  by rewrite lookup_insert_ne.
Qed.

Lemma setField_same k v (f : gmap string Db.fieldValue) :
  f !! k = None → Ocr.setField k v f !! k = v.
Proof.
  intros Hf. unfold Ocr.setField. destruct v; [|done].
  by rewrite lookup_insert_eq.
Qed.

Lemma parseOCRFields_potential_barcode text :
  Ocr.parseOCRFields text !! "potential_barcode" =
    match exec Ocr.potentialBarcodePattern text with
    | Some m => option_map Db.FStr (group 1 m)
    | None => None
    end.
Proof.
  unfold Ocr.parseOCRFields. cbv zeta.
  rewrite setField_same; [done|].
  rewrite !setField_other by done. apply lookup_empty.
Qed.

(** X10. The field [potential_barcode] of the parsed OCR fields is present
    exactly when the barcode fallback finds a barcode in the same text. *)
Theorem parseOCRFields_potential_barcode_iff :
  ∀ text : string,
    is_Some (Ocr.parseOCRFields text !! "potential_barcode") ↔
    is_Some (Ocr.extractBarcodeFromOCR text).
Proof.
  intros text. rewrite parseOCRFields_potential_barcode.
  rewrite extractBarcodeFromOCR_priority.
  unfold exec, firstStandaloneIn.
  pose proof (search_potentialBarcodePattern (Js.chars text) None) as H.
  destruct (search Ocr.potentialBarcodePattern None (Js.chars text)) as [m|].
  - destruct H as [[g Hg] Hh]. rewrite Hg. simpl. split; [intros _|eauto].
    destruct (firstStandalone 13 None (Js.chars text)) as [?|] eqn:E13;
      [simpl; eauto|].
    destruct (firstStandalone 12 None (Js.chars text)) as [?|] eqn:E12;
      [simpl; eauto|].
    destruct (firstStandalone 8 None (Js.chars text)) as [?|] eqn:E8;
      [simpl; eauto|].
    destruct (firstStandalone 14 None (Js.chars text)) as [?|] eqn:E14;
      [simpl; eauto|].
    destruct Hh as [[? ?]|[[? ?]|[[? ?]|[? ?]]]]; discriminate.
  - destruct H as (-> & -> & -> & ->). simpl. split; intros [? ?]; discriminate.
Qed.

End PotentialBarcode.

Section MergedFields.

Lemma mergeFields_lookup (parsed fields : gmap string Db.fieldValue) k :
  Ocr.mergeFields parsed fields !! k =
    match parsed !! k, fields !! k with
    | Some o, Some n => Some (if Ocr.truthyField o then o else n)
    | Some o, None => Some o
    | None, x => x
    end.
Proof.
  unfold Ocr.mergeFields. rewrite lookup_union_with.
  by destruct (parsed !! k), (fields !! k).
Qed.

Lemma settled_step cur v vs :
  settled (match cur with
           | Some o => Some (if Ocr.truthyField o then o else v)
           | None => Some v
           end) vs = settled cur (v :: vs).
Proof.
  unfold settled. destruct cur as [o|]; simpl.
  - destruct (Ocr.truthyField o) eqn:Ho; simpl; [by rewrite Ho|].
    destruct (Ocr.truthyField v) eqn:Hv; simpl; [done|].
    destruct (List.find Ocr.truthyField vs); [done|].
    rewrite last_cons. by destruct (last vs).
  - destruct (Ocr.truthyField v) eqn:Hv; simpl; [done|].
    destruct (List.find Ocr.truthyField vs); [done|].
    rewrite last_cons. by destruct (last vs).
Qed.

Lemma processProductImages_fold k texts : ∀ r,
  Ocr.parsed_fields
    (fold_left (fun r text =>
       Ocr.OcrResults
         (Ocr.merged_text r +:+ text +:+ Js.str [ascii_of_nat 10])
         (Ocr.mergeFields (Ocr.parsed_fields r) (Ocr.parseOCRFields text))
         (Ocr.tags r ++ [Ocr.classifyImageContent text])) texts r) !! k =
    settled (Ocr.parsed_fields r !! k) (valuesOf k texts) ∧
  Ocr.tags
    (fold_left (fun r text =>
       Ocr.OcrResults
         (Ocr.merged_text r +:+ text +:+ Js.str [ascii_of_nat 10])
         (Ocr.mergeFields (Ocr.parsed_fields r) (Ocr.parseOCRFields text))
         (Ocr.tags r ++ [Ocr.classifyImageContent text])) texts r) =
    Ocr.tags r ++ map Ocr.classifyImageContent texts.
Proof.
  induction texts as [|t ts IH]; intros r; cbn [fold_left map].
  - rewrite app_nil_r. split; [|done]. unfold settled, valuesOf.
    cbn [omap list_omap List.find last].
    by destruct (isTruthy _), (Ocr.parsed_fields r !! k).
  - destruct (IH (Ocr.OcrResults
         (Ocr.merged_text r +:+ t +:+ Js.str [ascii_of_nat 10])
         (Ocr.mergeFields (Ocr.parsed_fields r) (Ocr.parseOCRFields t))
         (Ocr.tags r ++ [Ocr.classifyImageContent t]))) as [H1 H2].
    rewrite H1, H2. cbn [Ocr.parsed_fields Ocr.tags].
    rewrite <- app_assoc. split; [|done].
    rewrite mergeFields_lookup. unfold valuesOf. cbn [omap list_omap].
    destruct (Ocr.parseOCRFields t !! k) as [v|] eqn:Hv.
    + rewrite <- settled_step. by destruct (Ocr.parsed_fields r !! k).
    + by destruct (Ocr.parsed_fields r !! k).
Qed.

(** X11. In the merged result of the OCR module every field holds the
    first truthy value among the values parsed from the texts, in the
    order of the images; when no value is truthy it holds the last one;
    and there is one tag per image, the classification of its text. *)
Theorem processProductImages_first_truthy_value_wins :
  ∀ (texts : list string) (k : string),
    Ocr.parsed_fields (Ocr.processProductImages texts) !! k =
      match List.find Ocr.truthyField (valuesOf k texts) with
      | Some v => Some v
      | None => last (valuesOf k texts)
      end ∧
    Ocr.tags (Ocr.processProductImages texts) =
      map Ocr.classifyImageContent texts.
Proof.
  intros texts k. unfold Ocr.processProductImages.
  destruct (processProductImages_fold k texts (Ocr.OcrResults "" ∅ []))
    as [-> ->].
  split; [|done]. unfold settled. simpl. rewrite lookup_empty. simpl.
  destruct (List.find Ocr.truthyField (valuesOf k texts)); [done|].
  by destruct (last (valuesOf k texts)).
Qed.

End MergedFields.

Section CaseInsensitive.
Import Regex.









End CaseInsensitive.

(* ===================================================================== *)
(** ** The crawler: what a URL is taken for *)
(* ===================================================================== *)

Section UrlShapes.
Import Regex.

Lemma advance_advance j p a s :
  rest p = a :: s →
  advance j (Pos (Some a) s) = advance (S j) p.
Proof.
  intros E. destruct p as [pr r]. simpl in E. subst r.
  destruct j; reflexivity.
Qed.

(** A literal under [/i] reads its characters, whatever their case. *)
Lemma run_liti l : ∀ k p c,
  run (seqs (map chri l)) k p c =
    if Ocr.prefixb (map Js.lowerChar l) (map Js.lowerChar (rest p))
    then k (advance (List.length l) p) c else None.
Proof.
  induction l as [|a l IH]; intros k p c.
  - reflexivity.
  - assert (E : run (seqs (map chri (a :: l))) k p c =
                run (chri a) (run (seqs (map chri l)) k) p c).
    { destruct l; reflexivity. }
    rewrite E. unfold chri at 1. cbn [run].
    destruct (rest p) as [|b s] eqn:Hr; [reflexivity|].
    cbn [map Ocr.prefixb List.length].
    rewrite (Ascii.eqb_sym (Js.lowerChar a)).
    destruct (Ascii.eqb (Js.lowerChar b) (Js.lowerChar a)); [|reflexivity].
    rewrite IH. cbn [rest andb].
    by rewrite (advance_advance _ p b s Hr).
Qed.

Lemma run_opt_chr f k pr s c :
  run (opt (Chr f)) k (Pos pr s) c =
    orElse (match s with
            | a :: s' => if f a then k (Pos (Some a) s') c else None
            | [] => None
            end) (k (Pos pr s) c).
Proof.
  unfold opt. cbn [run rest]. destruct s as [|a s]; [reflexivity|].
  cbn [List.length Nat.add repLoop below run rest orElse Nat.leb Nat.ltb].
  destruct (f a); [|reflexivity].
  assert ((List.length s =? S (List.length s))%nat = false) as ->
    by (apply Nat.eqb_neq; lia).
  cbn [andb]. destruct (List.length s); reflexivity.
Qed.

Lemma includesb_drop p : ∀ s,
  Ocr.includesb s p = true ↔
  ∃ k, (k <= List.length s)%nat ∧ Ocr.prefixb p (drop k s) = true.
Proof.
  induction s as [|a s IH]; cbn [Ocr.includesb].
  - rewrite orb_false_r. split.
    + intros H. exists 0%nat. by split.
    + intros (k & Hk & H). by destruct k.
  - rewrite orb_true_iff, IH. split.
    + intros [H|(k & Hk & H)].
      * exists 0%nat. split; [lia|done].
      * exists (S k). split; [simpl; lia|done].
    + intros (k & Hk & H). destruct k as [|k].
      * by left.
      * right. exists k. split; [simpl in Hk; lia|done].
Qed.

Lemma test_is_Some r text :
  test r text = true ↔ is_Some (search r None (Js.chars text)).
Proof.
  unfold test, exec. destruct (search r None (Js.chars text)).
  - split; eauto.
  - split; [done|]. by intros [? ?].
Qed.

(** A pattern that matches at a position exactly when one of the listed
    prefixes starts there, case ignored, is found exactly in the texts
    whose lower-case form includes one of them. *)
Lemma test_prefixes r (kws : list string) text :
  Forall (fun kw => Forall (fun c => Js.lowerChar c = c) (Js.chars kw)) kws →
  (∀ pr s, is_Some (run r accept (Pos pr s) []) ↔
           existsb (fun kw => Ocr.prefixb (Js.chars kw) (map Js.lowerChar s))
             kws = true) →
  test r text = existsb (Ocr.includes (Js.toLowerCase text)) kws.
Proof.
  intros Hlow Hrun. apply eq_true_iff_eq.
  rewrite test_is_Some, search_accepts, existsb_exists. split.
  - intros (k & Hk & Hs). apply Hrun in Hs. apply existsb_exists in Hs
      as (kw & Hin & Hp).
    exists kw. split; [done|]. unfold Ocr.includes.
    rewrite chars_toLowerCase. apply includesb_drop.
    exists k. rewrite length_map. split; [done|].
    by rewrite skipn_map.
  - intros (kw & Hin & Hi). unfold Ocr.includes in Hi.
    rewrite chars_toLowerCase in Hi. apply includesb_drop in Hi
      as (k & Hk & Hp).
    rewrite length_map in Hk. exists k. split; [done|].
    apply Hrun. apply existsb_exists. exists kw. split; [done|].
    by rewrite <- skipn_map.
Qed.

Lemma lowerChar_fixed_map l :
  Forall (fun c => Js.lowerChar c = c) l → map Js.lowerChar l = l.
Proof.
  induction 1 as [|c l Hc _ IH]; simpl; [done|]. by rewrite Hc, IH.
Qed.

Lemma test_liti kw text :
  Forall (fun c => Js.lowerChar c = c) (Js.chars kw) →
  test (liti kw) text = Ocr.includes (Js.toLowerCase text) kw.
Proof.
  intros Hlow.
  rewrite (test_prefixes (liti kw) [kw] text).
  - simpl. by rewrite orb_false_r.
  - by constructor.
  - intros pr s. unfold liti. rewrite run_liti. cbn [rest existsb].
    rewrite orb_false_r, (lowerChar_fixed_map _ Hlow).
    destruct (Ocr.prefixb _ _); [split; eauto|].
    split; [by intros [? ?]|done].
Qed.

Lemma prefixb_app p q s :
  Ocr.prefixb (p ++ q) s =
    Ocr.prefixb p s && Ocr.prefixb q (drop (List.length p) s).
Proof.
  revert s. induction p as [|a p IH]; intros s; [done|].
  destruct s as [|b s]; simpl; [done|].
  rewrite IH. by rewrite andb_assoc.
Qed.

(** [/<kw>x?\//i] for a lower-case [kw] and a letter [x]. *)
Lemma test_optional_letter kw x text :
  Forall (fun c => Js.lowerChar c = c) (Js.chars kw) →
  Js.lowerChar x = x →
  test (seqs [liti kw; opt (chri x); lit "/"]) text =
    existsb (Ocr.includes (Js.toLowerCase text))
      [kw +:+ "/"; kw +:+ char1 x +:+ "/"].
Proof.
  intros Hlow Hx. apply test_prefixes.
  - repeat constructor; rewrite ?chars_append; rewrite ?Forall_app;
      repeat split; try done; repeat constructor; done.
  - intros pr s.
    change (run (seqs [liti kw; opt (chri x); lit "/"]) accept (Pos pr s) [])
      with (run (liti kw) (run (opt (chri x)) (run (lit "/") accept))
              (Pos pr s) []).
    unfold liti. rewrite run_liti.
    cbn [rest existsb]. rewrite orb_false_r.
    rewrite !chars_append, !prefixb_app, (lowerChar_fixed_map _ Hlow).
    destruct (Ocr.prefixb (Js.chars kw) (map Js.lowerChar s)) eqn:Hp;
      [|split; [by intros [? ?]|done]].
    cbn [andb]. rewrite skipn_map.
    assert (Hadv : advance (List.length (Js.chars kw)) (Pos pr s) =
                   Pos (prev (advance (List.length (Js.chars kw)) (Pos pr s)))
                       (drop (List.length (Js.chars kw)) s)).
    { destruct (List.length (Js.chars kw)); reflexivity. }
    rewrite Hadv.
    generalize (prev (advance (List.length (Js.chars kw)) (Pos pr s))).
    generalize (drop (List.length (Js.chars kw)) s). clear -Hx.
    intros t q.
    change (chri x)
      with (Chr (fun c => Ascii.eqb (Js.lowerChar c) (Js.lowerChar x))).
    rewrite run_opt_chr. unfold lit, chr, char1.
    cbn [Js.chars list_ascii_of_string map seqs run rest List.length].
    destruct t as [|a t]; [split; [by intros [? ?]|done]|].
    cbn [map Ocr.prefixb drop].
    rewrite !andb_true_r.
    rewrite (Ascii.eqb_sym "/"%char (Js.lowerChar a)).
    assert (Hs : Ascii.eqb "/" a = Ascii.eqb (Js.lowerChar a) "/").
    { destruct a as [[] [] [] [] [] [] [] []]; vm_compute; reflexivity. }
    rewrite Hs.
    destruct (Ascii.eqb (Js.lowerChar a) "/") eqn:Ea.
    + rewrite is_Some_orElse. split; [done|]. intros _. right.
      unfold accept. eauto.
    + cbn [orb orElse].
      rewrite (Ascii.eqb_sym x (Js.lowerChar a)).
      rewrite Hx.
      destruct (Ascii.eqb (Js.lowerChar a) x); cbn [andb].
      * destruct t as [|b t]; cbn [map Ocr.prefixb drop].
        { split; [by intros [? ?]|done]. }
        rewrite (Ascii.eqb_sym "/"%char (Js.lowerChar b)).
        assert (Hb : Ascii.eqb "/" b = Ascii.eqb (Js.lowerChar b) "/").
        { destruct b as [[] [] [] [] [] [] [] []]; vm_compute; reflexivity. }
        rewrite Hb. rewrite andb_true_r.
        destruct (Ascii.eqb (Js.lowerChar b) "/"); cbn [orElse].
        -- split; [done|]. intros _. unfold accept. eauto.
        -- split; [by intros [? ?]|done].
      * split; [by intros [? ?]|done].
Qed.

End UrlShapes.

Section UrlKinds.
Import Regex.

Lemma repLoop_chr_atLeast f lo :
  ∀ n cnt p c, (cnt <= lo)%nat → (lo - cnt <= n)%nat →
    is_Some (repLoop (run (Chr f)) lo None true accept n cnt p c) ↔
    (lo - cnt <= leading f (rest p))%nat.
Proof.
  induction n as [|n IH]; intros cnt p c Hc Hn.
  - assert (cnt = lo) as -> by lia. cbn [repLoop].
    rewrite Nat.leb_refl. cbn. split; [lia|]. intros _. eexists; reflexivity.
  - destruct (decide (cnt = lo)) as [->|Hne].
    + cbn [repLoop]. rewrite Nat.leb_refl. split; [lia|]. intros _.
      destruct (if below _ _ then _ else _); cbn; eexists; reflexivity.
    + cbn [repLoop].
      assert (Hlt : (lo <=? cnt)%nat = false) by (apply Nat.leb_gt; lia).
      rewrite Hlt. cbn [below andb run].
      destruct p as [pr [|a s]]; cbn [rest leading orElse].
      * split; [intros [? ?]; discriminate|lia].
      * destruct (f a); cbn [orElse].
        -- specialize (IH (S cnt) (Pos (Some a) s) c ltac:(lia) ltac:(lia)).
           cbn [rest] in IH.
           destruct (repLoop _ _ _ _ _ _ _ _ _) eqn:E; cbn [orElse].
           ++ split; [intros _|intros _; eexists; reflexivity].
              assert (is_Some (Some p)) as Hs by (eexists; reflexivity).
              apply IH in Hs. lia.
           ++ split; [intros [? ?]; discriminate|]. intros H.
              assert (Hs : (lo - S cnt <= leading f s)%nat) by lia.
              apply IH in Hs. destruct Hs as [? ?]. discriminate.
        -- split; [intros [? ?]; discriminate|lia].
Qed.

(** [/\/\d{5,}/] matches exactly the texts with a slash followed by five
    digits. *)
Lemma test_numericSegment text :
  test (Seq (lit "/") (atLeast 5 digit)) text = true ↔
  hasNumericSegment 5 (Js.chars text).
Proof.
  rewrite test_is_Some, search_accepts.
  assert (Hrun : ∀ pr s,
    is_Some (run (Seq (lit "/") (atLeast 5 digit)) accept (Pos pr s) []) ↔
    ∃ t, s = "/"%char :: t ∧ (5 <= leading Js.isDigit t)%nat).
  { intros pr s.
    assert (E : run (Seq (lit "/") (atLeast 5 digit)) accept (Pos pr s) [] =
                match s with
                | a :: t =>
                    if Ascii.eqb "/" a
                    then repLoop (run (Chr Js.isDigit)) 5 None true accept
                           (5 + List.length t) 0 (Pos (Some a) t) []
                    else None
                | [] => None
                end) by (destruct s; reflexivity).
    rewrite E. clear E.
    destruct s as [|a s]; [split; [by intros [? ?]|by intros (? & ? & ?)]|].
    destruct (Ascii.eqb "/" a) eqn:Ea.
    - apply Ascii.eqb_eq in Ea as <-.
      rewrite repLoop_chr_atLeast by lia. cbn [rest]. split.
      + intros H. exists s. split; [done|lia].
      + intros (t & [= <-] & H). lia.
    - split; [by intros [? ?]|]. intros (t & [= -> _] & _).
      by rewrite Ascii.eqb_refl in Ea. }
  unfold hasNumericSegment. split.
  - intros (k & Hk & Hs). apply Hrun in Hs as (t & Ht & Hl).
    apply leading_run in Hl as (ds & post & -> & L & F).
    exists (take k (Js.chars text)), ds, post.
    rewrite <- Ht, take_drop. done.
  - intros (pre & ds & post & E & L & F). exists (List.length pre).
    split; [rewrite E, length_app; lia|].
    apply Hrun. exists (ds ++ post). rewrite E, drop_app_length.
    split; [done|]. apply leading_run. by exists ds, post.
Qed.

(** X13. A URL looks like a category exactly when its lower-case form
    contains one of the ten fragments /category/, /categories/, /c/,
    /collection/, /collections/, /shop/, /product/, /products/,
    /department/ and /aisle/. *)
Theorem isCategoryUrl_markers :
  ∀ url : string,
    Discovery.isCategoryUrl url =
      existsb (Ocr.includes (Js.toLowerCase url)) categoryMarkers.
Proof.
  intros url. unfold Discovery.isCategoryUrl, Discovery.categoryPatterns.
  cbn [existsb].
  rewrite !test_liti by (repeat constructor).
  rewrite !test_optional_letter by (repeat constructor).
  unfold categoryMarkers. cbn [existsb].
  change ("/collection" +:+ "/") with "/collection/".
  change ("/collection" +:+ char1 "s" +:+ "/") with "/collections/".
  change ("/product" +:+ "/") with "/product/".
  change ("/product" +:+ char1 "s" +:+ "/") with "/products/".
  rewrite !orb_false_r, !orb_assoc. reflexivity.
Qed.

(** X14. A URL looks like a product exactly when its lower-case form
    contains one of the seven fragments /product/, /p/, /item/, /pd/,
    /dp/, ?sku= and ?id=, or the URL contains a slash followed by five
    decimal digits. *)
Theorem isProductUrl_markers :
  ∀ url : string,
    Traversal.isProductUrl url = true ↔
    existsb (Ocr.includes (Js.toLowerCase url)) productMarkers = true ∨
    hasNumericSegment 5 (Js.chars url).
Proof.
  intros url. unfold Traversal.isProductUrl, Traversal.productPatterns.
  cbn [existsb].
  rewrite !test_liti by (repeat constructor).
  rewrite <- test_numericSegment.
  unfold productMarkers. cbn [existsb].
  rewrite !orb_false_r, !orb_true_iff. tauto.
Qed.

(** X15. Every URL with /product/ in it, in any case, looks like a
    product and like a category at once, so a product page listed in the
    URL set of a sitemap is returned among the categories. *)
Theorem product_pages_look_like_categories :
  ∀ (pathname : string → option string) (url : string),
    Ocr.includes (Js.toLowerCase url) "/product/" = true →
    Traversal.isProductUrl url = true ∧
    Discovery.isCategoryUrl url = true ∧
    Discovery.urlsetCategories pathname [Some url] =
      [Traversal.Category url (Discovery.extractNameFromUrl pathname url)].
Proof.
  intros pathname url H.
  assert (Hc : Discovery.isCategoryUrl url = true).
  { unfold Discovery.isCategoryUrl, Discovery.categoryPatterns.
    apply existsb_exists.
    exists (seqs [liti "/product"; opt (chri "s"); lit "/"]).
    split; [simpl; tauto|].
    rewrite test_optional_letter by (repeat constructor).
    cbn [existsb]. change ("/product" +:+ "/") with "/product/".
    by rewrite H. }
  split; [|split; [done|]].
  - unfold Traversal.isProductUrl, Traversal.productPatterns.
    cbn [existsb]. rewrite (test_liti "/product/") by (repeat constructor).
    by rewrite H.
  - unfold Discovery.urlsetCategories, Discovery.truthyLoc.
    cbn [omap list_omap].
    assert (Js.truthy url = true) as ->.
    { destruct url; [|done]. discriminate H. }
    by rewrite Hc.
Qed.

Lemma product_pages_look_like_categories_witness :
  Traversal.isProductUrl "https://shop.example/Product/milk-1l" = true ∧
  Discovery.isCategoryUrl "https://shop.example/Product/milk-1l" = true ∧
  Discovery.urlsetCategories (fun _ => Some "/Product/milk-1l")
    [Some "https://shop.example/Product/milk-1l"] =
    [Traversal.Category "https://shop.example/Product/milk-1l"
       (Discovery.extractNameFromUrl (fun _ => Some "/Product/milk-1l")
          "https://shop.example/Product/milk-1l")].
Proof.
  apply (product_pages_look_like_categories
           (fun _ => Some "/Product/milk-1l")
           "https://shop.example/Product/milk-1l").
  vm_compute. reflexivity.
Defined.

End UrlKinds.

(* ===================================================================== *)
(** ** The crawler: names, sitemaps, navigation and scrolling *)
(* ===================================================================== *)

Section Names.













End Names.

Section Navigation.
Import Traversal.




End Navigation.

Section SitemapFacts.
Import Traversal.
Variable fetchSitemap : string → option Discovery.sitemap.
Variable pathname : string → option string.

Lemma urlsetCategories_sound urls :
  Forall (fun c => Discovery.isCategoryUrl (c_url c) = true ∧
                   c_name c = Discovery.extractNameFromUrl pathname (c_url c))
         (Discovery.urlsetCategories pathname urls).
Proof.
  unfold Discovery.urlsetCategories.
  induction urls as [|u urls IH]; cbn [omap list_omap]; [constructor|].
  destruct (Discovery.truthyLoc u) as [l|]; [|done].
  destruct (Discovery.isCategoryUrl l) eqn:H; [|done].
  constructor; [done|done].
Qed.

Lemma children_sound (P : category → Prop) rec sitemaps subs :
  (∀ loc cats, rec loc = Some cats → Forall P cats) →
  Discovery.children rec sitemaps = Some subs → Forall P subs.
Proof.
  intros Hrec. revert subs.
  induction sitemaps as [|sm rest IH]; intros subs; cbn [Discovery.children].
  - intros [= <-]. constructor.
  - destruct (Discovery.truthyLoc sm) as [loc|]; [|by apply IH].
    destruct (Ocr.includes loc "product" || Ocr.includes loc "category");
      [|by apply IH].
    destruct (rec loc) as [sub|] eqn:Hsub; [|done].
    destruct (Discovery.children rec rest) as [more|]; [|done].
    intros [= <-]. apply Forall_app. split; [by eapply Hrec|by apply IH].
Qed.

Lemma probe_sound (P : category → Prop) rec urls : ∀ categories result,
  (∀ loc cats, rec loc = Some cats → Forall P cats) →
  (∀ urls', Forall P (Discovery.urlsetCategories pathname urls')) →
  Forall P categories →
  Discovery.probe fetchSitemap pathname rec urls categories = Some result →
  Forall P result.
Proof.
  induction urls as [|u urls IH]; intros categories result Hrec Hset Hc;
    cbn [Discovery.probe].
  - by intros [= <-].
  - destruct (fetchSitemap u) as [doc|]; [|by apply IH].
    destruct (match Discovery.sitemapindex doc with
              | Some sitemaps => Discovery.children rec sitemaps
              | None => Some []
              end) as [subs|] eqn:Hsubs; [|done].
    assert (Hs : Forall P subs).
    { destruct (Discovery.sitemapindex doc).
      - by eapply children_sound.
      - injection Hsubs as <-. constructor. }
    cbv zeta.
    assert (Hall : Forall P (categories ++ subs ++
                    match Discovery.urlset doc with
                    | Some urls0 => Discovery.urlsetCategories pathname urls0
                    | None => []
                    end)).
    { apply Forall_app. split; [done|]. apply Forall_app. split; [done|].
      destruct (Discovery.urlset doc); [apply Hset|constructor]. }
    destruct (0 <? _)%nat; [by intros [= <-]|].
    by apply IH.
Qed.

(** X18. Every category read from the sitemaps has a URL that looks like a
    category, and its name is the one taken from that URL. *)
Theorem parseSitemap_returns_category_urls :
  ∀ (fuel : nat) (baseDomain : string) (categories : list category),
    Discovery.parseSitemap fetchSitemap pathname fuel baseDomain
      = Some categories →
    Forall (fun c => Discovery.isCategoryUrl (c_url c) = true ∧
                     c_name c =
                       Discovery.extractNameFromUrl pathname (c_url c))
           categories.
Proof.
  induction fuel as [|fuel IH]; intros baseDomain categories;
    cbn [Discovery.parseSitemap]; [done|].
  intros H. eapply probe_sound; [| |constructor|exact H].
  - intros loc cats. apply IH.
  - apply urlsetCategories_sound.
Qed.

End SitemapFacts.

Section SitemapTheorems.
Import Traversal.

Lemma parseSitemap_returns_category_urls_witness :
  Forall (fun c => Discovery.isCategoryUrl (c_url c) = true ∧
                   c_name c =
                     Discovery.extractNameFromUrl Sitemaps.pathname (c_url c))
         [ Category "https://shop.example/category/dairy" "dairy";
           Category "https://shop.example/product/milk-1l" "milk l" ].
Proof.
  apply (parseSitemap_returns_category_urls Sitemaps.flat Sitemaps.pathname
           1 "https://shop.example").
  vm_compute. reflexivity.
Defined.

(** X19. The location of a sub-sitemap is used as a base, not fetched:
    when the index at /sitemap.xml lists sub-sitemaps and nothing is served
    at the three sitemap locations below each of them, no category is
    found, whatever is served at the locations themselves. *)
Theorem parseSitemap_never_fetches_sub_sitemap :
  ∀ (fetchSitemap : string → option Discovery.sitemap)
    (pathname : string → option string) (fuel : nat)
    (baseDomain : string) (locs : list (option string)),
    fetchSitemap (baseDomain +:+ "/sitemap.xml") =
      Some (Discovery.Sitemap (Some locs) None) →
    fetchSitemap (baseDomain +:+ "/sitemap_index.xml") = None →
    fetchSitemap (baseDomain +:+ "/sitemap-index.xml") = None →
    (∀ loc u, In (Some loc) locs → In u (Discovery.sitemapUrls loc) →
              fetchSitemap u = None) →
    Discovery.parseSitemap fetchSitemap pathname (S (S fuel)) baseDomain
      = Some [].
Proof.
  intros f p fuel b locs H1 H2 H3 Hsub.
  assert (Hrec : ∀ loc, In (Some loc) locs →
            Discovery.parseSitemap f p (S fuel) loc = Some []).
  { intros loc Hin. cbn [Discovery.parseSitemap Discovery.probe
                         Discovery.sitemapUrls].
    rewrite !(Hsub loc) by (try done; simpl; tauto). done. }
  assert (Hch : Discovery.children (Discovery.parseSitemap f p (S fuel)) locs
                = Some []).
  { clear H1. induction locs as [|sm rest IH]; [done|].
    cbn [Discovery.children].
    assert (IH' : Discovery.children (Discovery.parseSitemap f p (S fuel)) rest
                  = Some []).
    { apply IH.
      - intros loc u Hin. apply Hsub. by right.
      - intros loc Hin. apply Hrec. by right. }
    unfold Discovery.truthyLoc. destruct sm as [l|]; [|done].
    destruct (Js.truthy l); [|done].
    destruct (Ocr.includes l "product" || Ocr.includes l "category"); [|done].
    rewrite (Hrec l) by (by left). by rewrite IH'. }
  change (Discovery.parseSitemap f p (S (S fuel)) b)
    with (Discovery.probe f p (Discovery.parseSitemap f p (S fuel))
            (Discovery.sitemapUrls b) []).
  cbn [Discovery.probe Discovery.sitemapUrls].
  rewrite H1. cbn [Discovery.sitemapindex Discovery.urlset].
  rewrite Hch. cbn [app List.length Nat.ltb Nat.leb].
  rewrite H2, H3. done.
Qed.

Lemma parseSitemap_never_fetches_sub_sitemap_witness :
  Sitemaps.fetch Sitemaps.productsXml =
    Some (Discovery.Sitemap None
            (Some [Some "https://shop.example/product/milk"])) ∧
  Discovery.parseSitemap Sitemaps.fetch Sitemaps.pathname 2
    "https://shop.example" = Some [].
Proof.
  split; [reflexivity|].
  apply (parseSitemap_never_fetches_sub_sitemap Sitemaps.fetch
           Sitemaps.pathname 0 "https://shop.example"
           [Some Sitemaps.productsXml; Some Sitemaps.pagesXml]).
  - reflexivity.
  - reflexivity.
  - reflexivity.
  - intros loc u [[= <-]|[[= <-]|[]]] [<-|[<-|[<-|[]]]]; reflexivity.
Defined.

End SitemapTheorems.

Section Scrolling.

Lemma scrollLoop_spec heights : ∀ n previous attempts,
  let r := Discovery.scrollLoop heights n previous attempts in
  (attempts <= r <= attempts + n)%nat ∧
  (∀ i, (attempts < i < r)%nat → heights i ≠ heights (i - 1)%nat) ∧
  ((attempts < r)%nat → heights attempts ≠ previous) ∧
  ((r < attempts + n)%nat →
   heights r = if (r =? attempts)%nat then previous
               else heights (r - 1)%nat).
Proof.
  induction n as [|n IH]; intros previous attempts; cbn [Discovery.scrollLoop].
  - cbv zeta. repeat split; try lia.
  - cbv zeta. destruct (heights attempts =? previous) eqn:E.
    + apply Z.eqb_eq in E. repeat split; try lia.
      intros _. by rewrite Nat.eqb_refl.
    + apply Z.eqb_neq in E.
      specialize (IH (heights attempts) (S attempts)). cbv zeta in IH.
      destruct IH as (Hb & Hmid & Hfirst & Hstop).
      set (r := Discovery.scrollLoop heights n (heights attempts) (S attempts))
        in *.
      split; [lia|]. split; [|split; [done|]].
      * intros i Hi. destruct (decide (i = S attempts)) as [->|Hne].
        -- replace (S attempts - 1)%nat with attempts by lia.
           apply Hfirst. lia.
        -- apply Hmid. lia.
      * intros Hr. assert ((r =? attempts)%nat = false) as ->
          by (apply Nat.eqb_neq; lia).
        rewrite Hstop by lia.
        destruct (r =? S attempts)%nat eqn:Er; [|done].
        apply Nat.eqb_eq in Er. rewrite Er.
        by replace (S attempts - 1)%nat with attempts by lia.
Qed.

(** X20. The scroll expansion scrolls at most ten times.  It scrolls as
    long as the height of the page differs from the height read before
    (zero at the start), and when it stops early the height no longer
    changed; a page of height zero is never scrolled. *)
Theorem handleInfiniteScroll_stops_when_stable :
  ∀ heights : nat → Z,
    let scrolls := Discovery.handleInfiniteScroll heights in
    let before (i : nat) :=
      match i with O => 0 | S j => heights j end in
    (scrolls <= 10)%nat ∧
    (∀ i, (i < scrolls)%nat → heights i ≠ before i) ∧
    ((scrolls < 10)%nat → heights scrolls = before scrolls) ∧
    (heights 0%nat = 0 → scrolls = 0%nat).
Proof.
  intros heights. cbv zeta. unfold Discovery.handleInfiniteScroll.
  pose proof (scrollLoop_spec heights Discovery.maxScrolls 0 0) as H.
  cbv zeta in H. destruct H as (Hb & Hmid & Hfirst & Hstop).
  unfold Discovery.maxScrolls in *.
  set (r := Discovery.scrollLoop heights 10 0 0) in *.
  split; [lia|]. split; [|split].
  - intros [|i] Hi; [apply Hfirst; lia|].
    specialize (Hmid (S i) ltac:(lia)).
    by replace (S i - 1)%nat with i in Hmid by lia.
  - intros Hr. rewrite Hstop by lia. destruct r as [|j]; [done|].
    cbn [Nat.eqb]. by replace (S j - 1)%nat with j by lia.
  - intros H0. destruct r as [|j] eqn:Er; [done|].
    exfalso. apply Hfirst; [lia|done].
Qed.

End Scrolling.

(* ===================================================================== *)
(** ** The crawler: links, visits and the bookkeeping of a run *)
(* ===================================================================== *)

Section Links.
Import Traversal.
Variable w : world.





End Links.

Section LinkTheorems.
Import Traversal.


End LinkTheorems.

Section RunFacts.
Import Traversal.
Variable w : world.



























End RunFacts.

Section Lifecycle.
Import Traversal.

Lemma startCrawl_cases fuel w home job s r s' :
  startCrawl fuel w home job s = Some (r, s') →
  (∃ msg, r = Throw msg ∧ s' = fatal w msg (resetRun job s) ∧
          (w_initBrowser w = Some msg ∨
           w_initBrowser w = None ∧ w_discover w home = Throw msg)) ∨
  (∃ cats s2, w_initBrowser w = None ∧ w_discover w home = Ok cats ∧
              crawlCategories fuel w (getBaseDomain w home) cats
                (begun w job cats s) = Some s2 ∧
              r = Ok (stats (complete w s2)) ∧ s' = complete w s2).
Proof.
  unfold startCrawl.
  destruct (w_initBrowser w) as [msg|].
  { intros [= <- <-]. left. exists msg. auto. }
  destruct (w_discover w home) as [cats|msg].
  - destruct (crawlCategories _ _ _ _ _) as [s2|] eqn:E; [|done].
    intros [= <- <-]. right. exists cats, s2. auto.
  - intros [= <- <-]. left. exists msg. auto.
Qed.








End Lifecycle.

(* ===================================================================== *)
(** ** The crawler: what the image pipeline writes *)
(* ===================================================================== *)

Section ImageRows.
Import Pipeline.
Variable w : world.
Variable cfg : config.
Variable productId : string.







Lemma fold_imageStep_skips l : ∀ a,
  Forall (fun iu => Db.imageExists productId iu.2 (a_db a) = true) l →
  fold_left (imageStep w cfg productId) l a = a.
Proof.
  induction l as [|[i u] l IH]; intros a H; cbn [fold_left]; [done|].
  inversion H as [|? ? Hu Hl]; subst. cbn [snd] in Hu.
  unfold imageStep at 2. rewrite Hu. by apply IH.
Qed.

End ImageRows.

Section ImageTheorems.
Import Pipeline.




(** X26. When every one of the first ten image URLs is already recorded
    for the product, the pipeline fetches nothing and changes nothing:
    the database and the statistics come back as they were. *)
Theorem processProductImages_skips_recorded_images :
  ∀ (w : world) (cfg : config) (productId : string)
    (imageUrls : list string) (db : Db.t) (st : stats),
    Forall (fun u => Db.imageExists productId u db = true)
           (take 10 imageUrls) →
    processProductImages w cfg productId imageUrls db st = Ok (db, st).
Proof.
  intros w cfg productId imageUrls db st H.
  unfold processProductImages.
  rewrite fold_imageStep_skips; [done|].
  cbn [a_db]. revert H. generalize (take 10 imageUrls). generalize (seq 0 10).
  intros idx l. revert idx.
  induction l as [|u l IH]; intros idx H; destruct idx as [|i idx];
    cbn [zip zip_with]; try constructor.
  - by inversion H.
  - inversion H; subst. by apply IH.
Qed.

Lemma processProductImages_skips_recorded_images_witness :
  processProductImages Labels.noBarcode Labels.config "MILK1"
    [Labels.image1] recordedDb Labels.stats = Ok (recordedDb, Labels.stats).
Proof.
  apply (processProductImages_skips_recorded_images Labels.noBarcode
           Labels.config "MILK1" [Labels.image1] recordedDb Labels.stats).
  repeat constructor.
Defined.

End ImageTheorems.

(* ===================================================================== *)
(** ** The crawler: reading a product page *)
(* ===================================================================== *)

Section ProductData.
Import Fusion.

(** X27. Reading a product page throws exactly when the merged price or
    the merged SKU is a truthy value that is not a string, such as a
    number in the structured data; in every other case it returns the
    product, with the page URL as its URL and the site as its source. *)
Theorem extractProductData_throws_on_non_string_price_or_sku :
  ∀ (now : string) (blocks : list value) (dom : domData)
    (productUrl category baseDomain : string) (jsonData : option value),
    let outcome :=
      extractProductData now blocks dom productUrl category baseDomain
        jsonData in
    ((∃ msg, outcome = Throw msg) ↔
     truthyNonString (mergedField blocks dom jsonData "price") = true ∨
     truthyNonString (mergedField blocks dom jsonData "sku") = true) ∧
    (∀ p, outcome = Ok p →
          url p = productUrl ∧ source_site p = baseDomain ∧
          scrape_date p = now).
Proof.
  intros now blocks dom productUrl category baseDomain jsonData. cbv zeta.
  unfold extractProductData, mergedField, truthyNonString. cbv zeta.
  set (merged := VObj (mergeSources dom (findStructured blocks) jsonData)).
  destruct (getProp merged "price") as [| |b|q|s|l|m] eqn:Hp;
    destruct (getProp merged "sku") as [| |b'|q'|s'|l'|m'] eqn:Hs;
    cbn [truthy andb orb];
    try destruct b; try destruct b';
    try destruct (negb (Qeq_bool q 0));
    try destruct (negb (Qeq_bool q' 0));
    try destruct (Js.truthy s);
    try destruct (Js.truthy s');
    cbn [andb];
    try match goal with
        | |- context [Regex.exec ?r ?t] => destruct (Regex.exec r t)
        end;
    (split;
     [split;
      [intros [msg H]; first [discriminate H | tauto | (left; reflexivity)
                              | (right; reflexivity)]
      |intros [H|H]; first [discriminate H | (eexists; reflexivity)]]
     |intros p H; first [discriminate H | by injection H as <-]]).
Qed.

End ProductData.

Section Prices.
Import Regex Fusion.














End Prices.

(* ===================================================================== *)
(** ** The crawler: runs without a job row, and runs that end *)
(* ===================================================================== *)

Section MissingJob.
Import Traversal.
Variable w : world.
Variable job : string.
Variable J : gmap string Db.job.
Hypothesis missing : J !! job = None.

Lemma alter_missing (f : Db.job → Db.job) : alter f job J = J.
Proof.
  apply map_eq. intros j. rewrite lookup_alter.
  case_decide; [subst; by rewrite missing|done].
Qed.

Lemma jobless_same s s' :
  jobId s' = jobId s → Db.jobs (db s') = Db.jobs (db s) →
  jobless job J s → jobless job J s'.
Proof. unfold jobless. by intros -> ->. Qed.

Lemma jobless_stopCrawl s : jobless job J s → jobless job J (stopCrawl w s).
Proof.
  intros [Hj HJ]. destruct s as [jid d ? ? ? ? ? ? ? ?].
  cbn [jobId db] in *. subst jid. split; [done|].
  cbn [stopCrawl db jobId]. unfold Db.updateJobStatus, Db.withJobs.
  cbn [Db.jobs]. rewrite HJ. apply alter_missing.
Qed.

Lemma jobless_await m s : jobless job J s → jobless job J (await w m s).
Proof.
  unfold await. destruct (w_stop w m); [apply jobless_stopCrawl|done].
Qed.

Lemma jobless_recordError msg s : jobless job J s → jobless job J (recordError w msg s).
Proof.
  intros [Hj HJ]. destruct s as [jid d ? ? ? ? ? ? ? ?].
  cbn [jobId db] in *. subst jid. split; [done|].
  unfold recordError. cbn [tick withStats withDb db jobId ticks].
  unfold Db.appendJobError, Db.withJobs. cbn [Db.jobs].
  rewrite HJ. apply alter_missing.
Qed.

Lemma jobless_categoryDone s : jobless job J s → jobless job J (categoryDone s).
Proof.
  intros [Hj HJ]. destruct s as [jid d ? ? ? ? ? ? ? ?].
  cbn [jobId db] in *. subst jid. split; [done|].
  unfold categoryDone. cbn [withStats withDb db jobId].
  unfold Db.incrementJobCounter, Db.withJobs. cbn [Db.jobs].
  rewrite HJ. apply alter_missing.
Qed.

Lemma jobless_visitProduct u s : jobless job J s → jobless job J (visitProduct w u s).
Proof.
  intros H. unfold visitProduct.
  set (o := w_crawlProduct w u).
  assert (H2 : jobless job J
    (withStats (fun st =>
       Pipeline.Stats (Pipeline.categories st) (Pipeline.products st)
         (Pipeline.images st + po_images o)
         (Pipeline.barcodes st + po_barcodes o) (Pipeline.errors st))
       (withDb (po_db o) s))).
  { revert H. apply jobless_same; by destruct s. }
  destruct (po_throws o); [by apply jobless_recordError|].
  destruct H2 as [Hj HJ]. revert Hj HJ.
  generalize (withStats
       (fun st => Pipeline.Stats (Pipeline.categories st) (Pipeline.products st)
         (Pipeline.images st + po_images o)
         (Pipeline.barcodes st + po_barcodes o) (Pipeline.errors st))
       (withDb (po_db o) s)).
  intros [jid d ? ? ? ? ? ? ? ?]. cbn [jobId db]. intros -> HJ.
  split; [done|]. cbn [withStats withDb db jobId].
  unfold Db.incrementJobCounter, Db.withJobs. cbn [Db.jobs].
  rewrite HJ. apply alter_missing.
Qed.

Lemma jobless_crawlProducts links : ∀ s,
  jobless job J s → jobless job J (crawlProducts w links s).
Proof.
  induction links as [|u rest IH]; intros s H; cbn [crawlProducts]; [done|].
  destruct (stopRequested s); [done|].
  destruct (decide (u ∈ discoveredProducts s)); [by apply IH|].
  apply IH, jobless_await, jobless_visitProduct.
  revert H. apply jobless_same; by destruct s.
Qed.

Lemma jobless_crawlPages fuel cat base : ∀ n more s r s',
  jobless job J s →
  crawlPages fuel w cat base n more s = Some (r, s') → jobless job J s'.
Proof.
  induction fuel as [|fuel IH]; intros n more s r s' H; cbn [crawlPages];
    destruct (more && negb (stopRequested s)); try done;
    try (by intros [= _ <-]).
  destruct (getPaginatedUrl w (c_url cat) n) as [pageUrl|msg];
    [|by intros [= _ <-]].
  destruct (decide (pageUrl ∈ processedUrls s)); [by intros [= _ <-]|].
  assert (Hm : jobless job J (markPage pageUrl s)).
  { revert H. apply jobless_same; by destruct s. }
  destruct (w_goto w pageUrl); [by intros [= _ <-]|].
  cbv zeta.
  destruct (List.length _ =? 0)%nat.
  - apply IH. by apply jobless_await.
  - apply IH. by apply jobless_crawlProducts, jobless_await.
Qed.

Lemma jobless_crawlCategories fuel base cats : ∀ s s',
  jobless job J s →
  crawlCategories fuel w base cats s = Some s' → jobless job J s'.
Proof.
  induction cats as [|cat rest IH]; intros s s' H; cbn [crawlCategories].
  - by intros [= <-].
  - destruct (stopRequested s); [by intros [= <-]|].
    unfold categoryStep, crawlCategory.
    destruct (crawlPages fuel w cat base 1 true s) as [[[[]|msg] s1]|] eqn:E;
      [| |done]; apply IH, jobless_await.
    + apply jobless_categoryDone. by eapply jobless_crawlPages.
    + apply jobless_recordError. by eapply jobless_crawlPages.
Qed.

Lemma jobless_setStatus status fields s :
  jobless job J s → jobless job J (setStatus w status fields s).
Proof.
  intros [Hj HJ]. destruct s as [jid d ? ? ? ? ? ? ? ?].
  cbn [jobId db] in *. subst jid. split; [done|].
  unfold setStatus. cbn [tick withDb db jobId ticks].
  unfold Db.updateJobStatus, Db.withJobs. cbn [Db.jobs].
  rewrite HJ. apply alter_missing.
Qed.

Lemma jobless_startCrawl fuel home s r s' :
  Db.jobs (db s) = J →
  startCrawl fuel w home job s = Some (r, s') →
  Db.jobs (db s') = J.
Proof.
  intros HJ Hs.
  assert (H0 : jobless job J (resetRun job s)) by (by destruct s).
  destruct (startCrawl_cases _ _ _ _ _ _ _ Hs)
    as [(msg & -> & -> & Hwhy)|(cats & s2 & Hi & Hd & Hc & -> & ->)].
  - unfold fatal.
    pose proof (jobless_setStatus Db.Failed [] _ H0) as [Hj1 HJ1].
    revert Hj1 HJ1. generalize (setStatus w Db.Failed [] (resetRun job s)).
    intros [jid d ? ? ? ? ? ? ? ?]. cbn [jobId db]. intros -> HJ1.
    cbn [finish tick withDb db jobId ticks].
    unfold Db.appendJobError, Db.withJobs. cbn [Db.jobs].
    rewrite HJ1. apply alter_missing.
  - assert (Hb : jobless job J (begun w job cats s)).
    { unfold begun. by apply jobless_setStatus. }
    pose proof (jobless_crawlCategories _ _ _ _ _ Hb Hc) as H2.
    unfold complete.
    pose proof (jobless_setStatus
      (if stopRequested s2 then Db.Stopped else Db.Completed)
      [(Db.TotalProducts, Pipeline.products (stats s2));
       (Db.ProcessedProducts, Pipeline.products (stats s2))] _ H2) as [_ H3].
    revert H3. generalize (setStatus w
      (if stopRequested s2 then Db.Stopped else Db.Completed)
      [(Db.TotalProducts, Pipeline.products (stats s2));
       (Db.ProcessedProducts, Pipeline.products (stats s2))] s2).
    by intros [jid d ? ? ? ? ? ? ? ?].
Qed.

End MissingJob.

Section Termination.
Import Traversal.
Variable w : world.


End Termination.

Section RunTheorems.
Import Traversal.

(** X29. A run for a job that has no row in the jobs table leaves that
    table exactly as it was: the status changes, the counters and the
    logged errors of the run are not stored anywhere. *)
Theorem startCrawl_without_job_row :
  ∀ (fuel : nat) (w : world) (home job : string) (s : crawler)
    (r : result Pipeline.stats) (s' : crawler),
    Db.getJob job (db s) = None →
    startCrawl fuel w home job s = Some (r, s') →
    Db.jobs (db s') = Db.jobs (db s).
Proof.
  intros fuel w home job s r s' Hm Hs.
  by apply (jobless_startCrawl w job (Db.jobs (db s)) Hm fuel home s r s').
Qed.

Lemma startCrawl_without_job_row_witness :
  Db.jobs (db shopUntracked) = Db.jobs Shop.db.
Proof.
  apply (startCrawl_without_job_row 3 shopNoJob "https://shop.example/"
           "job-2" (newCrawler Shop.db)
           (Throw "FOREIGN KEY constraint failed") shopUntracked).
  - reflexivity.
  - reflexivity.
Defined.



End RunTheorems.
